(** * generate_rev_data.py: a shallow embedding and its properties

    The script samples revision ids of a MediaWiki installation at a fixed
    stride, asks the web API for their timestamps in batches of ten, prints
    the pairs, and retries with [id + 1] the ids the API reported as bad.

    Conventions of the embedding.
    - Python values that come out of [json.loads] are the inductive [pyval];
      JSON numbers with a fraction or an exponent (Python floats) are not
      represented.
    - A Python [str] is the Rocq [string] of its UTF-8 encoding;
      [str.isdigit] and [int] read it character by character, with the
      digits and the white space of the Unicode character database.
      CPython's optional cap on the length of decimal conversions is not
      modelled.
    - The two library calls whose code is not part of the script are taken by
      their results: a response body is given as what [json.loads] makes of it
      ([None] when it raises), and a command line as what
      [getopt.gnu_getopt] makes of it.
    - Effects (HTTP requests, writes to stdout and stderr, sleeps) are
      recorded in a trace carried by a state-and-exception monad; the remote
      service is a function of the number of requests made so far and of the
      request.
    - The one loop of the script that need not terminate, the retry loop of
      [do_main], takes fuel. *)

From Stdlib Require Import ZArith List String Ascii Bool Lia.
From Stdlib Require Import Sorting.Permutation Sorting.Sorted.
Import ListNotations.

Set Warnings "-register-all".

Local Open Scope string_scope.
Local Open Scope Z_scope.

(** ** Python values, exceptions and outcomes *)

Module Py.

(** What [json.loads] returns (floats left out). A [PDict] lists the items of
    the dict in insertion order; [json.loads] never produces two items with
    one key. *)
Inductive pyval : Type :=
| PNone
| PBool (b : bool)
| PInt (z : Z)
| PStr (s : string)
| PList (l : list pyval)
| PDict (d : list (string * pyval)).

(** The exceptions the script can meet. All but [SystemExit] derive from
    [Exception]. [JSONDecodeError] is what [json.loads] raises;
    [RequestException] stands for what [requests] raises when no response
    arrives (connection failure, timeout). *)
Inductive exn : Type :=
| TypeError
| ValueError
| KeyError
| IndexError
| AttributeError
| JSONDecodeError
| RequestException
| SystemExit (code : Z).

Definition is_Exception (e : exn) : bool :=
  match e with
  | SystemExit _ => false
  | _ => true
  end.

(** The outcome of running a piece of the script: a value, an exception in
    flight, or fuel exhausted in the retry loop. *)
Inductive outcome (A : Type) : Type :=
| Ok (a : A)
| Raise (e : exn)
| Diverge.

Arguments Ok {A} a.
Arguments Raise {A} e.
Arguments Diverge {A}.

Definition obind {A B} (o : outcome A) (k : A -> outcome B) : outcome B :=
  match o with
  | Ok a => k a
  | Raise e => Raise e
  | Diverge => Diverge
  end.

Declare Scope pure_scope.
Delimit Scope pure_scope with pure.
Notation "x <- c ;; k" := (obind c (fun x => k))
  (at level 61, c at next level, right associativity) : pure_scope.
Notation "' p <- c ;; k" := (obind c (fun x => let p := x in k))
  (at level 61, p pattern, c at next level, right associativity) : pure_scope.

(** [try: body except Exception: handler]. *)
Definition try_except {A} (body : outcome A) (handler : A) : outcome A :=
  match body with
  | Raise e => if is_Exception e then Ok handler else Raise e
  | o => o
  end.

(** *** Truth, equality of keys, hashability *)

(** Numbers as dict keys and in comparisons: [True == 1] and [False == 0]. *)
Definition key_num (v : pyval) : option Z :=
  match v with
  | PBool b => Some (if b then 1 else 0)
  | PInt z => Some z
  | _ => None
  end.

Definition hashable (v : pyval) : bool :=
  match v with
  | PList _ | PDict _ => false
  | _ => true
  end.

(** [a == b] on hashable values. *)
Definition key_eqb (a b : pyval) : bool :=
  match a, b with
  | PNone, PNone => true
  | PStr s, PStr t => String.eqb s t
  | _, _ =>
      match key_num a, key_num b with
      | Some x, Some y => Z.eqb x y
      | _, _ => false
      end
  end.

(** [bool(v)]. *)
Definition truthy (v : pyval) : bool :=
  match v with
  | PNone => false
  | PBool b => b
  | PInt z => negb (z =? 0)
  | PStr s => negb (String.eqb s "")
  | PList l => match l with [] => false | _ => true end
  | PDict d => match d with [] => false | _ => true end
  end.

(** *** Text and its characters *)

(** A [str] is held as its UTF-8 encoding, a lone surrogate encoded like any
    other code point; Rocq's string literals are such encodings. A byte that
    begins no well-formed sequence counts as a character of its own, with the
    code point of its surrogate escape (the way undecodable bytes of a
    command line reach the script). *)

Definition byte (c : ascii) : Z := Z.of_nat (nat_of_ascii c).

Definition between (lo x hi : Z) : bool := (lo <=? x) && (x <=? hi).

Definition continues (c : ascii) : bool := between 128 (byte c) 191.

Definition heads_two (a b : ascii) : bool :=
  between 194 (byte a) 223 && continues b.

Definition heads_three (a b c : ascii) : bool :=
  (((byte a =? 224) && between 160 (byte b) 191)
   || (between 225 (byte a) 239 && continues b))
  && continues c.

Definition heads_four (a b c d : ascii) : bool :=
  (((byte a =? 240) && between 144 (byte b) 191)
   || (between 241 (byte a) 243 && continues b)
   || ((byte a =? 244) && between 128 (byte b) 143))
  && continues c && continues d.

(** [list(s)]: the characters of [s], each as a string of one character. *)
Fixpoint chars (s : string) : list string :=
  match s with
  | EmptyString => []
  | String a r =>
      match r with
      | String b r2 =>
          if heads_two a b then String a (String b EmptyString) :: chars r2
          else
            match r2 with
            | String c r3 =>
                if heads_three a b c
                then String a (String b (String c EmptyString)) :: chars r3
                else
                  match r3 with
                  | String d r4 =>
                      if heads_four a b c d
                      then String a (String b (String c (String d EmptyString)))
                           :: chars r4
                      else String a EmptyString :: chars r
                  | EmptyString => String a EmptyString :: chars r
                  end
            | EmptyString => String a EmptyString :: chars r
            end
      | EmptyString => [String a EmptyString]
      end
  end.

(** [ord(c)] for one of the characters [chars] gives. *)
Definition code_point (c : string) : Z :=
  match c with
  | String a EmptyString => if byte a <? 128 then byte a else 56320 + byte a
  | String a (String b EmptyString) => 64 * (byte a - 192) + (byte b - 128)
  | String a (String b (String c EmptyString)) =>
      4096 * (byte a - 224) + 64 * (byte b - 128) + (byte c - 128)
  | String a (String b (String c (String d EmptyString))) =>
      262144 * (byte a - 240) + 4096 * (byte b - 128) + 64 * (byte c - 128)
      + (byte d - 128)
  | _ => 0
  end.

(** *** Subscripts, membership, iteration *)

Fixpoint lookup {V} (k : string) (d : list (string * V)) : option V :=
  match d with
  | [] => None
  | (k', v) :: d' => if String.eqb k' k then Some v else lookup k d'
  end.

(** A sequence index, negative ones counted from the end. *)
Definition seq_index (len : nat) (i : Z) : option nat :=
  let n := Z.of_nat len in
  if (0 <=? i) && (i <? n) then Some (Z.to_nat i)
  else if (i <? 0) && (0 <=? i + n) then Some (Z.to_nat (i + n))
  else None.

(** [x[key]]. *)
Definition getitem (x key : pyval) : outcome pyval :=
  match x with
  | PDict d =>
      match key with
      | PStr k => match lookup k d with Some v => Ok v | None => Raise KeyError end
      | PList _ | PDict _ => Raise TypeError
      | _ => Raise KeyError
      end
  | PList l =>
      match key_num key with
      | Some i =>
          match seq_index (List.length l) i with
          | Some n => match nth_error l n with Some v => Ok v | None => Raise IndexError end
          | None => Raise IndexError
          end
      | None => Raise TypeError
      end
  | PStr s =>
      match key_num key with
      | Some i =>
          match seq_index (List.length (chars s)) i with
          | Some n => match nth_error (chars s) n with Some c => Ok (PStr c) | None => Raise IndexError end
          | None => Raise IndexError
          end
      | None => Raise TypeError
      end
  | _ => Raise TypeError
  end.

(** [x['k']]. *)
Definition item (x : pyval) (k : string) : outcome pyval := getitem x (PStr k).

(** [k in x] for a string [k]: key of a dict, element of a list, substring
    of a string. *)
Definition contains (k : string) (x : pyval) : outcome bool :=
  match x with
  | PDict d => Ok (existsb (fun p => String.eqb (fst p) k) d)
  | PList l => Ok (existsb (fun v => match v with PStr s => String.eqb s k | _ => false end) l)
  | PStr s => Ok (match index 0 k s with Some _ => true | None => false end)
  | _ => Raise TypeError
  end.

(** [for v in x]: the values the loop variable takes. *)
Definition iter (x : pyval) : outcome (list pyval) :=
  match x with
  | PDict d => Ok (map (fun p => PStr (fst p)) d)
  | PList l => Ok l
  | PStr s => Ok (map PStr (chars s))
  | _ => Raise TypeError
  end.

(** [list(x.keys())]. *)
Definition keys (x : pyval) : outcome (list string) :=
  match x with
  | PDict d => Ok (map fst d)
  | _ => Raise AttributeError
  end.

(** [len(x)] is not needed on [pyval]: the script takes [len] of a list it
    built itself. *)

(** *** Dicts the script builds: keys are hashable values *)

Definition mapping : Type := list (pyval * pyval).

Fixpoint assoc (k : pyval) (m : mapping) : option pyval :=
  match m with
  | [] => None
  | (k', v) :: m' => if key_eqb k' k then Some v else assoc k m'
  end.

(** [m[k] = v]: an equal key keeps its place (and its key object). *)
Fixpoint store (k v : pyval) (m : mapping) : mapping :=
  match m with
  | [] => [(k, v)]
  | (k', v') :: m' => if key_eqb k' k then (k', v) :: m' else (k', v') :: store k v m'
  end.

Definition setitem (m : mapping) (k v : pyval) : outcome mapping :=
  if hashable k then Ok (store k v m) else Raise TypeError.

(** *** Text and numbers *)

(** The character database of CPython 3.11 (Unicode 14.0.0), as far as
    [str.isdigit] and [int] consult it. The decimal digits come in runs of
    ten, zero to nine: [decimal_zeros] lists the code point of each zero. *)
Definition decimal_zeros : list Z :=
  [48; 1632; 1776; 1984; 2406; 2534; 2662; 2790; 2918; 3046; 3174; 3302;
   3430; 3558; 3664; 3792; 3872; 4160; 4240; 6112; 6160; 6470; 6608; 6784;
   6800; 6992; 7088; 7232; 7248; 42528; 43216; 43264; 43472; 43504; 43600;
   44016; 65296; 66720; 68912; 69734; 69872; 69942; 70096; 70384; 70736;
   70864; 71248; 71360; 71472; 71904; 72016; 72784; 73040; 73120; 92768;
   92864; 93008; 120782; 120792; 120802; 120812; 120822; 123200; 123632;
   125264; 130032].

(** The value of a decimal digit ([Py_UNICODE_TODECIMAL]). *)
Definition decimal_value (p : Z) : option Z :=
  option_map (fun zero => p - zero)
    (find (fun zero => between zero p (zero + 9)) decimal_zeros).

(** The digits that are no decimal digits (superscripts, circled digits and
    the like), as ranges of code points. *)
Definition other_digits : list (Z * Z) :=
  [(178, 179); (185, 185); (4969, 4977); (6618, 6618); (8304, 8304);
   (8308, 8313); (8320, 8329); (9312, 9320); (9332, 9340); (9352, 9360);
   (9450, 9450); (9461, 9469); (9471, 9471); (10102, 10110);
   (10112, 10120); (10122, 10130); (68160, 68163); (69216, 69224);
   (69714, 69722); (127232, 127242)].

(** [Py_UNICODE_ISDIGIT]. *)
Definition digit_point (p : Z) : bool :=
  match decimal_value p with
  | Some _ => true
  | None => existsb (fun r => between (fst r) p (snd r)) other_digits
  end.

Definition space_points : list (Z * Z) :=
  [(9, 13); (28, 32); (133, 133); (160, 160); (5760, 5760); (8192, 8202);
   (8232, 8233); (8239, 8239); (8287, 8287); (12288, 12288)].

(** [Py_UNICODE_ISSPACE]. *)
Definition space_point (p : Z) : bool :=
  existsb (fun r => between (fst r) p (snd r)) space_points.

(** Text within ASCII: every character is one byte. *)
Fixpoint ascii_text (s : string) : bool :=
  match s with
  | EmptyString => true
  | String a r => (byte a <? 128) && ascii_text r
  end.

(** [s.isdigit()]: at least one character, and every character a digit. *)
Definition isdigit (s : string) : bool :=
  match chars s with
  | [] => false
  | cs => forallb (fun c => digit_point (code_point c)) cs
  end.

(** An ASCII digit, and the white space the parser of [int] skips (that of
    the C locale: [0x1c] to [0x1f] are not part of it). *)
Definition is_digit (c : ascii) : bool :=
  let n := nat_of_ascii c in (48 <=? n)%nat && (n <=? 57)%nat.

Definition is_space (c : ascii) : bool :=
  let n := nat_of_ascii c in
  ((9 <=? n)%nat && (n <=? 13)%nat) || (n =? 32)%nat.

Fixpoint all_digits (s : string) : bool :=
  match s with
  | EmptyString => true
  | String c r => is_digit c && all_digits r
  end.

Fixpoint lstrip (s : string) : string :=
  match s with
  | EmptyString => EmptyString
  | String c r => if is_space c then lstrip r else s
  end.

Fixpoint rstrip (s : string) : string :=
  match s with
  | EmptyString => EmptyString
  | String c r =>
      match rstrip r with
      | EmptyString => if is_space c then EmptyString else String c EmptyString
      | r' => String c r'
      end
  end.

Definition digit_val (c : ascii) : Z := Z.of_nat (nat_of_ascii c) - 48.

(** Decimal digits with single underscores between them. [seen] tells that
    the previous character was a digit. *)
Fixpoint parse_digits (acc : Z) (seen : bool) (s : string) : option Z :=
  match s with
  | EmptyString => if seen then Some acc else None
  | String c r =>
      if Ascii.eqb c "_" then
        (if seen then parse_digits acc false r else None)
      else if is_digit c then parse_digits (10 * acc + digit_val c) true r
      else None
  end.

(** The parser of [int] on ASCII text: white space around, an optional
    sign, digits. *)
Definition parse_int (s : string) : option Z :=
  match rstrip (lstrip s) with
  | String "-" r => option_map Z.opp (parse_digits 0 false r)
  | String "+" r => parse_digits 0 false r
  | t => parse_digits 0 false t
  end.

Definition digit_char (d : Z) : ascii := ascii_of_nat (48 + Z.to_nat d).

(** What [int] makes of a character before it parses: an ASCII character
    is kept, other white space becomes a space, another decimal digit the
    ASCII digit of its value, and anything else a character no number
    holds. *)
Definition plain (c : string) : ascii :=
  match c with
  | String a EmptyString => if byte a <? 128 then a else "?"%char
  | _ =>
      let p := code_point c in
      if space_point p then " "%char
      else match decimal_value p with
           | Some d => digit_char d
           | None => "?"%char
           end
  end.

Definition ascii_form (s : string) : string :=
  string_of_list_ascii (map plain (chars s)).

(** [int(s)] for a string. *)
Definition int_of_str (s : string) : option Z := parse_int (ascii_form s).

(** [int(v)]. *)
Definition int (v : pyval) : outcome Z :=
  match v with
  | PInt z => Ok z
  | PBool b => Ok (if b then 1 else 0)
  | PStr s => match int_of_str s with Some z => Ok z | None => Raise ValueError end
  | _ => Raise TypeError
  end.

Fixpoint digits_of (fuel : nat) (n : Z) (acc : string) : string :=
  match fuel with
  | O => acc
  | S f =>
      let acc' := String (digit_char (n mod 10)) acc in
      if n <? 10 then acc' else digits_of f (n / 10) acc'
  end.

Definition str_of_nonneg (n : Z) : string :=
  digits_of (S (Z.to_nat (Z.log2 n))) n EmptyString.

(** [str(z)] for an int. *)
Definition str_of_Z (z : Z) : string :=
  if z <? 0 then String "-" (str_of_nonneg (- z)) else str_of_nonneg z.

(** [str(v)] where it needs no [repr]: [None] for a list or a dict. *)
Definition str_atom (v : pyval) : option string :=
  match v with
  | PNone => Some "None"
  | PBool b => Some (if b then "True" else "False")
  | PInt z => Some (str_of_Z z)
  | PStr s => Some s
  | _ => None
  end.

(** [range(start, stop, step)] for a positive step, as CPython computes it:
    a length and the elements [start + i * step]. *)
Definition range_len (start stop step : Z) : nat :=
  if start <? stop then Z.to_nat ((stop - start - 1) / step + 1) else O.

Definition range (start stop step : Z) : list Z :=
  map (fun i => start + Z.of_nat i * step) (seq 0 (range_len start stop step)).

(** *** [sorted] on the keys of a dict *)

Section Insertion.
Context {A : Type} (leb : A -> A -> bool).

Fixpoint insert (x : A) (l : list A) : list A :=
  match l with
  | [] => [x]
  | y :: l' => if leb y x then y :: insert x l' else x :: l
  end.

Definition isort (l : list A) : list A :=
  fold_left (fun acc x => insert x acc) l [].

End Insertion.

Definition num_leb (a b : pyval) : bool :=
  match key_num a, key_num b with
  | Some x, Some y => x <=? y
  | _, _ => false
  end.

Definition str_leb (a b : pyval) : bool :=
  match a, b with
  | PStr s, PStr t => String.leb s t
  | _, _ => false
  end.

Definition is_num (v : pyval) : bool :=
  match key_num v with Some _ => true | None => false end.

Definition is_str (v : pyval) : bool :=
  match v with PStr _ => true | _ => false end.

(** [sorted(l)] for a list of dict keys. With fewer than two elements nothing
    is compared; otherwise the elements must be all numbers or all strings,
    any other mix makes a comparison raise [TypeError]. The sort is stable. *)
Definition sorted (l : list pyval) : outcome (list pyval) :=
  match l with
  | [] | [_] => Ok l
  | _ =>
      if forallb is_num l then Ok (isort num_leb l)
      else if forallb is_str l then Ok (isort str_leb l)
      else Raise TypeError
  end.

End Py.

(** ** The script *)

Module Script.
Import Py.

Local Open Scope pure_scope.

(** *** Configuration *)

(** The dict [args] of the script: its five keys are fixed by
    [get_default_opts] and never removed. [end_rev] starts as [None], may be
    set to a string from the command line, and is overwritten by
    [check_opts] with whatever [get_max_rev] returns. *)
Record args : Type := mkArgs {
  domain : option string;
  start_rev : string;
  end_rev : pyval;
  dryrun : bool;
  verbose : bool
}.

Definition get_default_opts : args :=
  {| domain := None; start_rev := "1"; end_rev := PNone;
     dryrun := false; verbose := false |}.

(** What [getopt.gnu_getopt] makes of [sys.argv[1:]]: it raises
    [GetoptError], or returns the options, each with its value (empty for a
    flag), and the arguments left over. *)
Inductive cmdline : Type :=
| GetoptError (err : string)
| Parsed (options : list (string * string)) (remainder : list string).

(** *** Requests, responses, the trace *)

(** The body of a response as [json.loads] sees it. *)
Definition body : Type := option pyval.

Definition json_loads (content : body) : outcome pyval :=
  match content with
  | Some v => Ok v
  | None => Raise JSONDecodeError
  end.

(** What [sess.get(url, params=params, timeout=5)] comes to: a response, or an
    exception of [requests] when none arrives in time. *)
Inductive http_result : Type :=
| Response (status_code : Z) (content : body)
| NoResponse.

(** A GET request: the url and the query parameters in the order the script
    lists them. Every request carries the session headers of [get_session]
    and a timeout of 5 seconds. *)
Record request : Type := mkRequest {
  url : string;
  params : list (string * string)
}.

Inductive event : Type :=
| EGet (req : request) (res : http_result)
| EStderr (text : string)
| EPrint (objects : list pyval)
| EVerbose (a : args)
| ESleep (seconds : Z).

(** Running a piece of the script from a given number of requests already
    made: its outcome, the number of requests made afterwards, and what it
    did, oldest first. *)
Record run (A : Type) : Type := mkRun {
  result : outcome A;
  clock : nat;
  trace : list event
}.

Arguments mkRun {A} result clock trace.
Arguments result {A} r.
Arguments clock {A} r.
Arguments trace {A} r.

Definition M (A : Type) : Type := nat -> run A.

Definition ret {A} (a : A) : M A := fun n => mkRun (Ok a) n [].

Definition bind {A B} (c : M A) (k : A -> M B) : M B :=
  fun n =>
    let r := c n in
    match result r with
    | Ok a =>
        let r' := k a (clock r) in
        mkRun (result r') (clock r') (trace r ++ trace r')
    | Raise e => mkRun (Raise e) (clock r) (trace r)
    | Diverge => mkRun Diverge (clock r) (trace r)
    end.

Definition lift {A} (o : outcome A) : M A := fun n => mkRun o n [].

Definition raise {A} (e : exn) : M A := lift (Raise e).

Definition emit (e : event) : M unit := fun n => mkRun (Ok tt) n [e].

Declare Scope script_scope.
Delimit Scope script_scope with script.
Notation "x <- c ;; k" := (bind c (fun x => k))
  (at level 61, c at next level, right associativity) : script_scope.
Notation "c ;; k" := (bind c (fun _ => k))
  (at level 61, right associativity) : script_scope.

Local Open Scope script_scope.

Definition sleep (seconds : Z) : M unit := emit (ESleep seconds).

Definition stderr_write (text : string) : M unit := emit (EStderr text).

Definition newline : string := String (ascii_of_nat 10) EmptyString.

Definition usage_message : string :=
"Usage: $0 --domain [--startrev <num>] [--endrev <num>]
       [--dryrun] [--verbose]
or: $0 --help

Retrieve revision information in a format that can be fed to gnuplot to generate
a graph showing the increase in the number of revisions over time.

Arguments:

 --domain   (-d):  fqdn of wiki from which to retrieve data. e.g. en.wikipedia.org
 --startrev (-s):  starting rev_id; default 1
 --endrev   (-e):  ending rev_id; default the current maximum revid

Flags:

 --dryrun  (-d):  write the commands that would have been run instead of running them
 --verbose (-v):  write some progress messages some day
 --help    (-h):  show this help message
".

(** [usage(message)]: never returns, [sys.exit(1)] raises [SystemExit]. *)
Definition usage {A} (message : option string) : M A :=
  (match message with
   | Some m => if String.eqb m "" then ret tt else stderr_write (m ++ newline)
   | None => ret tt
   end) ;;
  stderr_write usage_message ;;
  raise (SystemExit 1).

Section Remote.

(** The remote service: the answer to the [n]-th request of the run. *)
Variable remote : nat -> request -> http_result.

(** [sess.get(url, params=params, timeout=5)]: the status code and the
    content of the response. *)
Definition sess_get (req : request) : M (Z * body) :=
  fun n =>
    let res := remote n req in
    mkRun (match res with
           | Response status_code content => Ok (status_code, content)
           | NoResponse => Raise RequestException
           end) (S n) [EGet req res].

(** ['https://' + domain + base]: [domain] is a string or [None]. *)
Definition api_url (domain : option string) : outcome string :=
  match domain with
  | Some d => Ok ("https://" ++ d ++ "/w/api.php")
  | None => Raise TypeError
  end.

Definition get_revids_url (domain : option string) (revids : list string)
  : outcome request :=
  (url <- api_url domain ;;
   Ok {| url := url;
         params := [("action", "query"); ("prop", "revisions");
                    ("revids", String.concat "|" revids);
                    ("rvprop", "ids|timestamp"); ("format", "json")] |})%pure.

Definition get_maxrev_url (domain : option string) : outcome request :=
  (url <- api_url domain ;;
   Ok {| url := url;
         params := [("action", "query"); ("list", "allrevisions");
                    ("arvlimit", "1"); ("arvdir", "older");
                    ("format", "json")] |})%pure.

(** *** Reading the answers *)

(** What [get_revinfo_from_json] can return: [None], the empty dict, or a
    pair of the dict built and the list of bad ids. *)
Inductive revinfo_result : Type :=
| RNone
| REmptyDict
| RPair (revid_timestamp : mapping) (badrevs : list string).

(** The inner loop: [for revision in revisions:
    revid_timestamp[revision['revid']] = revision['timestamp']]. *)
Fixpoint record_revisions (revisions : list pyval) (revid_timestamp : mapping)
  : outcome mapping :=
  match revisions with
  | [] => Ok revid_timestamp
  | revision :: rest =>
      (timestamp <- item revision "timestamp" ;;
       revid <- item revision "revid" ;;
       m <- setitem revid_timestamp revid timestamp ;;
       record_revisions rest m)%pure
  end.

(** The outer loop: [for page in revinfo['query']['pages']]. *)
Fixpoint record_pages (revinfo : pyval) (pages : list pyval)
  (revid_timestamp : mapping) : outcome mapping :=
  match pages with
  | [] => Ok revid_timestamp
  | page :: rest =>
      (query <- item revinfo "query" ;;
       all_pages <- item query "pages" ;;
       this_page <- getitem all_pages page ;;
       revisions <- item this_page "revisions" ;;
       revisions <- iter revisions ;;
       m <- record_revisions revisions revid_timestamp ;;
       record_pages revinfo rest m)%pure
  end.

Definition get_revinfo_from_json (content : body) : revinfo_result :=
  let body : outcome revinfo_result :=
    (revinfo <- json_loads content ;;
     query <- item revinfo "query" ;;
     has_bad <- contains "badrevids" query ;;
     badrevs <- (if has_bad : bool
                 then (query <- item revinfo "query" ;;
                       bad <- item query "badrevids" ;;
                       keys bad)
                 else Ok []) ;;
     query <- item revinfo "query" ;;
     has_pages <- contains "pages" query ;;
     if negb has_pages then Ok REmptyDict
     else
       (query <- item revinfo "query" ;;
        pages <- item query "pages" ;;
        pages <- iter pages ;;
        revid_timestamp <- record_pages revinfo pages [] ;;
        Ok (RPair revid_timestamp badrevs)))%pure in
  match try_except body RNone with
  | Ok r => r
  | _ => RNone
  end.

(** The loop of [get_revid_from_json]:
    [for entry in ...: revisions.extend(entry['revisions'])]. *)
Fixpoint collect_revisions (entries : list pyval) (revisions : list pyval)
  : outcome (list pyval) :=
  match entries with
  | [] => Ok revisions
  | entry :: rest =>
      (more <- item entry "revisions" ;;
       more <- iter more ;;
       collect_revisions rest (revisions ++ more))%pure
  end.

(** [get_revid_from_json]: the revision id found, or [None]. *)
Definition get_revid_from_json (content : body) : pyval :=
  let body : outcome pyval :=
    (revinfo <- json_loads content ;;
     query <- item revinfo "query" ;;
     entries <- item query "allrevisions" ;;
     entries <- iter entries ;;
     revisions <- collect_revisions entries [] ;;
     match revisions with
     | [first] => item first "revid"
     | _ => Ok PNone
     end)%pure in
  match try_except body PNone with
  | Ok r => r
  | _ => PNone
  end.

(** *** Talking to the service *)

Definition failed_message (req : request) : string :=
  "failed to get revid for " ++ url req ++ newline.

(** [get_max_rev(domain)]: the revision id, or [None]. *)
Definition get_max_rev (domain : option string) : M pyval :=
  req <- lift (get_maxrev_url domain) ;;
  response <- sess_get req ;;
  if negb (fst response =? 200) then
    stderr_write (failed_message req) ;; ret PNone
  else ret (get_revid_from_json (snd response)).

(** [revinfo, badrevs = get_revinfo_from_json(...)]: unpacking [None] raises
    [TypeError], unpacking the empty dict raises [ValueError]. *)
Definition unpack_revinfo (r : revinfo_result)
  : outcome (mapping * list string) :=
  match r with
  | RNone => Raise TypeError
  | REmptyDict => Raise ValueError
  | RPair revid_timestamp badrevs => Ok (revid_timestamp, badrevs)
  end.

(** [get_revinfo(revids, domain)]: [None], or the pair it unpacked. *)
Definition get_revinfo (revids : list string) (domain : option string)
  : M (option (mapping * list string)) :=
  req <- lift (get_revids_url domain revids) ;;
  response <- sess_get req ;;
  if negb (fst response =? 200) then
    stderr_write (failed_message req) ;; ret None
  else
    p <- lift (unpack_revinfo (get_revinfo_from_json (snd response))) ;;
    ret (Some p).

(** [a, b = x] where [x] is [None] or a pair. *)
Definition unpack_pair {A B} (x : option (A * B)) : outcome (A * B) :=
  match x with
  | Some p => Ok p
  | None => Raise TypeError
  end.

(** *** Printing *)

Fixpoint print_revids (revinfo : mapping) (revids : list pyval) : M unit :=
  match revids with
  | [] => ret tt
  | revid :: rest =>
      timestamp <- lift (match assoc revid revinfo with
                         | Some v => Ok v
                         | None => Raise KeyError
                         end) ;;
      emit (EPrint [revid; timestamp]) ;;
      print_revids revinfo rest
  end.

Definition display_revinfo (revinfo : mapping) : M unit :=
  revids <- lift (sorted (map fst revinfo)) ;;
  print_revids revinfo revids.

(** The line [print(a, b)] writes, where [str] needs no [repr]. *)
Definition printed_line (objects : list pyval) : option string :=
  match objects with
  | [a; b] =>
      match str_atom a, str_atom b with
      | Some x, Some y => Some (x ++ " " ++ y)
      | _, _ => None
      end
  | _ => None
  end.

(** *** Batches *)

(** [str(x)] for the two kinds of ids [do_revrange] is given: the ints of a
    [range] and the strings of a retry list. *)
Class Str (A : Type) : Type := str : A -> string.

#[export] Instance Str_Z : Str Z := str_of_Z.
#[export] Instance Str_string : Str string := fun s => s.

(** The body of [while batch:] in [do_revrange], entered with a non-empty
    batch. Each turn drops ten ids, so the length of the list bounds the
    turns. *)
Fixpoint revrange_loop {A} `{Str A} (turns : nat) (domain : option string)
  (redo batch : list string) (revrange : list A) : M (list string) :=
  match turns with
  | O => lift Diverge
  | S turns' =>
      r <- get_revinfo batch domain ;;
      p <- lift (unpack_pair r) ;;
      let redo := (redo ++ snd p)%list in
      display_revinfo (fst p) ;;
      let revrange := skipn 10 revrange in
      let batch := map str (firstn 10 revrange) in
      match batch with
      | [] => ret redo
      | _ => sleep 5 ;; revrange_loop turns' domain redo batch revrange
      end
  end.

Definition do_revrange {A} `{Str A} (revrange : list A)
  (domain : option string) : M (list string) :=
  let redo := [] in
  let batch := map str (firstn 10 revrange) in
  match batch with
  | [] => ret redo
  | _ => revrange_loop (S (List.length revrange)) domain redo batch revrange
  end.

(** *** The command line *)

Definition one_of (opt : string) (names : list string) : bool :=
  existsb (String.eqb opt) names.

(** The loop [for (opt, val) in options]. *)
Fixpoint set_opts (options : list (string * string)) (a : args) : M args :=
  match options with
  | [] => ret a
  | (opt, val) :: rest =>
      if one_of opt ["-d"; "--domain"] then
        set_opts rest {| domain := Some val; start_rev := start_rev a;
                         end_rev := end_rev a; dryrun := dryrun a;
                         verbose := verbose a |}
      else if one_of opt ["-e"; "--endrev"] then
        set_opts rest {| domain := domain a; start_rev := start_rev a;
                         end_rev := PStr val; dryrun := dryrun a;
                         verbose := verbose a |}
      else if one_of opt ["-s"; "--startrev"] then
        set_opts rest {| domain := domain a; start_rev := val;
                         end_rev := end_rev a; dryrun := dryrun a;
                         verbose := verbose a |}
      else if one_of opt ["-D"; "--dryrun"] then
        set_opts rest {| domain := domain a; start_rev := start_rev a;
                         end_rev := end_rev a; dryrun := true;
                         verbose := verbose a |}
      else if one_of opt ["-v"; "--verbose"] then
        set_opts rest {| domain := domain a; start_rev := start_rev a;
                         end_rev := end_rev a; dryrun := dryrun a;
                         verbose := true |}
      else if one_of opt ["-h"; "--help"] then
        usage (Some ("Help for this script" ++ newline))
      else
        usage (Some ("Unknown option specified: <" ++ opt ++ ">"))
  end.

(** [v.isdigit()] on a value: only strings have the method. *)
Definition isdigit_method (v : pyval) : outcome bool :=
  match v with
  | PStr s => Ok (isdigit s)
  | _ => Raise AttributeError
  end.

Definition when (b : bool) (c : M unit) : M unit :=
  if b then c else ret tt.

Definition domain_truthy (d : option string) : bool :=
  match d with
  | Some s => negb (String.eqb s "")
  | None => false
  end.

(** [check_opts(args)]; the dict it updates in place is returned. *)
Definition check_opts (a : args) : M args :=
  when (negb (domain_truthy (domain a)))
    (usage (Some "The argument 'domain' must be specified and may not be empty.")) ;;
  when (negb (isdigit (start_rev a)))
    (usage (Some "The 'startrev' argument must be a number.")) ;;
  bad_end <- lift (if truthy (end_rev a)
                   then (d <- isdigit_method (end_rev a) ;; Ok (negb d))%pure
                   else Ok false) ;;
  when bad_end (usage (Some "The 'endrev' argument must be a number.")) ;;
  if negb (truthy (end_rev a)) then
    revid <- get_max_rev (domain a) ;;
    ret {| domain := domain a; start_rev := start_rev a; end_rev := revid;
           dryrun := dryrun a; verbose := verbose a |}
  else ret a.

Definition process_opts (argv : cmdline) : M args :=
  match argv with
  | GetoptError err => usage (Some ("Unknown option specified: " ++ err))
  | Parsed options remainder =>
      a <- set_opts options get_default_opts ;;
      match remainder with
      | opt :: _ => usage (Some ("Unknown option(s) specified: " ++ opt))
      | [] => ret tt
      end ;;
      check_opts a
  end.

(** *** The entry point *)

(** [[str(int(rev) + 1) for rev in redo]]. *)
Fixpoint next_ids (redo : list string) : outcome (list string) :=
  match redo with
  | [] => Ok []
  | rev :: rest =>
      (n <- int (PStr rev) ;;
       more <- next_ids rest ;;
       Ok (str_of_Z (n + 1) :: more))%pure
  end.

(** The loop [while redo:] of [do_main]; [passes] bounds the number of turns
    the model follows. *)
Fixpoint retry (passes : nat) (redo : list string) (domain : option string)
  : M unit :=
  match redo with
  | [] => ret tt
  | _ =>
      match passes with
      | O => lift Diverge
      | S passes' =>
          new_range <- lift (next_ids redo) ;;
          redo <- do_revrange new_range domain ;;
          retry passes' redo domain
      end
  end.

(** [range(int(args['start_rev']), int(args['end_rev']), 10000000)]. *)
Definition candidates (a : args) : outcome (list Z) :=
  (start <- int (PStr (start_rev a)) ;;
   stop <- int (end_rev a) ;;
   Ok (range start stop 10000000))%pure.

(** [do_main()], a fresh process: no request made yet. *)
Definition do_main (passes : nat) (argv : cmdline) : M unit :=
  a <- process_opts argv ;;
  when (verbose a) (emit (EVerbose a)) ;;
  revrange <- lift (candidates a) ;;
  redo <- do_revrange revrange (domain a) ;;
  when (match redo with [] => false | _ => true end) (sleep 5) ;;
  retry passes redo (domain a).

End Remote.

(** *** What a trace shows *)

Definition requests (t : list event) : list request :=
  flat_map (fun e => match e with EGet req _ => [req] | _ => [] end) t.

Definition printed (t : list event) : list (list pyval) :=
  flat_map (fun e => match e with EPrint objects => [objects] | _ => [] end) t.

Definition stderr_text (t : list event) : list string :=
  flat_map (fun e => match e with EStderr text => [text] | _ => [] end) t.

End Script.

(** ** Notions used to state the properties *)

Module Spec.
Import Py Script.

Local Open Scope script_scope.

(** The request [get_revinfo] sends for a batch, at a domain that is a
    string. *)
Definition revinfo_request (d : string) (revids : list string) : request :=
  {| url := "https://" ++ d ++ "/w/api.php";
     params := [("action", "query"); ("prop", "revisions");
                ("revids", String.concat "|" revids);
                ("rvprop", "ids|timestamp"); ("format", "json")] |}.

Definition maxrev_request (d : string) : request :=
  {| url := "https://" ++ d ++ "/w/api.php";
     params := [("action", "query"); ("list", "allrevisions");
                ("arvlimit", "1"); ("arvdir", "older");
                ("format", "json")] |}.

(** A request of the batch lookup, told from the maximum-revision lookup by
    its [prop] parameter. *)
Definition is_revinfo_request (req : request) : bool :=
  match lookup "prop" (params req) with
  | Some p => String.eqb p "revisions"
  | None => false
  end.

(** What one turn of [do_revrange] gets out of the answer to its request:
    the pair it goes on with, or the exception that ends the run. A status
    other than 200 makes [get_revinfo] return [None], which the turn fails to
    unpack. *)
Definition verdict (res : http_result) : outcome (mapping * list string) :=
  match res with
  | NoResponse => Raise RequestException
  | Response status_code content =>
      if status_code =? 200
      then unpack_revinfo (get_revinfo_from_json content)
      else Raise TypeError
  end.

(** What is written to stderr after the answer to a batch request. *)
Definition complaint (req : request) (res : http_result) : list event :=
  match res with
  | Response status_code _ =>
      if status_code =? 200 then [] else [EStderr (failed_message req)]
  | NoResponse => []
  end.

(** Consecutive batches of at most [size] elements, in order. *)
Fixpoint batches_upto {A} (bound size : nat) (l : list A) : list (list A) :=
  match bound with
  | O => []
  | S bound' =>
      match l with
      | [] => []
      | _ => firstn size l :: batches_upto bound' size (skipn size l)
      end
  end.

Definition batches {A} (l : list A) : list (list A) :=
  batches_upto (List.length l) 10 l.

Section Pass.
Variable remote : nat -> request -> http_result.

(** One pass as the specification words it: for each batch in order, look it
    up, print what came back, add the bad ids to the redo list, and pause
    when more batches remain. *)
Fixpoint spec_pass (domain : option string) (bs : list (list string))
  (redo : list string) : M (list string) :=
  match bs with
  | [] => ret redo
  | batch :: rest =>
      r <- get_revinfo remote batch domain ;;
      p <- lift (unpack_pair r) ;;
      display_revinfo (fst p) ;;
      match rest with
      | [] => ret (redo ++ snd p)%list
      | _ => sleep 5 ;; spec_pass domain rest (redo ++ snd p)%list
      end
  end.

(** The runs of a pass at a domain [d], turn by turn: the pass is over, the
    batch lookup fails, the printing fails, or the turn completes and the
    pass goes on (after a pause when batches remain). *)
Inductive pass_run (d : string)
  : list (list string) -> list string -> nat -> run (list string) -> Prop :=
| pass_over redo n :
    pass_run d [] redo n (mkRun (Ok redo) n [])
| pass_lookup_fails batch rest redo n e :
    let req := revinfo_request d batch in
    let res := remote n req in
    verdict res = Raise e ->
    pass_run d (batch :: rest) redo n
      (mkRun (Raise e) (S n) (EGet req res :: complaint req res))
| pass_print_fails batch rest redo n p lines e :
    let req := revinfo_request d batch in
    let res := remote n req in
    verdict res = Ok p ->
    pass_run d (batch :: rest) redo n
      (mkRun (Raise e) (S n) (EGet req res :: map EPrint lines))
| pass_turn batch rest redo n p lines r :
    let req := revinfo_request d batch in
    let res := remote n req in
    verdict res = Ok p ->
    pass_run d rest (redo ++ snd p)%list (S n) r ->
    pass_run d (batch :: rest) redo n
      (mkRun (result r) (clock r)
         (EGet req res :: map EPrint lines
          ++ match rest with [] => [] | _ => [ESleep 5] end ++ trace r)%list).

End Pass.

(** An id one higher, as the retry loop writes it. *)
Definition successor (rev : string) : option string :=
  option_map (fun z => str_of_Z (z + 1)) (int_of_str rev).

(** A mapping whose revision ids are ints, from its entries. *)
Definition int_keyed (entries : list (Z * pyval)) : mapping :=
  map (fun e => (PInt (fst e), snd e)) entries.

(** What [print] is called with for an entry. *)
Definition print_entry (e : Z * pyval) : event := EPrint [PInt (fst e); snd e].

(** Keys no two of which are equal as dict keys. *)
Definition apart (keys : list pyval) : Prop :=
  ForallOrdPairs (fun a b => key_eqb a b = false) keys.

(** *** Command lines *)

(** The value of the last option of [options] with one of the [names]. *)
Fixpoint last_given (names : list string) (options : list (string * string))
  : option string :=
  match options with
  | [] => None
  | (opt, val) :: rest =>
      match last_given names rest with
      | Some v => Some v
      | None => if one_of opt names then Some val else None
      end
  end.

Definition known_options : list string :=
  ["-d"; "--domain"; "-e"; "--endrev"; "-s"; "--startrev";
   "-D"; "--dryrun"; "-v"; "--verbose"].

Definition given_domain (options : list (string * string)) : option string :=
  last_given ["-d"; "--domain"] options.

Definition given_start (options : list (string * string)) : string :=
  match last_given ["-s"; "--startrev"] options with
  | Some v => v
  | None => "1"
  end.

Definition given_end (options : list (string * string)) : option string :=
  last_given ["-e"; "--endrev"] options.

Definition is_dryrun (option : string * string) : bool :=
  one_of (fst option) ["-D"; "--dryrun"].

Definition is_verbose (option : string * string) : bool :=
  one_of (fst option) ["-v"; "--verbose"].

Definition recognized (option : string * string) : bool :=
  one_of (fst option) known_options.

(** The configuration a list of recognized options makes of [a]: for each
    setting the last value given, and a flag is set once it was given. *)
Definition configured (options : list (string * string)) (a : args) : args :=
  {| domain := match given_domain options with
               | Some v => Some v
               | None => domain a
               end;
     start_rev := match last_given ["-s"; "--startrev"] options with
                  | Some v => v
                  | None => start_rev a
                  end;
     end_rev := match given_end options with
                | Some v => PStr v
                | None => end_rev a
                end;
     dryrun := existsb is_dryrun options || dryrun a;
     verbose := existsb is_verbose options || verbose a |}.

(** A run that ends in [usage]: a message and the usage text on stderr, exit
    status 1, nothing else done. *)
Definition usage_exit {A} (r : run A) (n : nat) : Prop :=
  result r = Raise (SystemExit 1) /\ clock r = n
  /\ exists message, trace r = [EStderr message; EStderr usage_message].

(** The command lines the script refuses: [gnu_getopt] raised, an argument
    is left over, an option is not one of the settings and flags, the domain
    is missing or empty, the start revision is not made of digits, or the
    end revision is a string that is neither empty nor made of digits. *)
Definition refused (argv : cmdline) : bool :=
  match argv with
  | GetoptError _ => true
  | Parsed options remainder =>
      negb (forallb recognized options)
      || match remainder with [] => false | _ => true end
      || negb (domain_truthy (given_domain options))
      || negb (isdigit (given_start options))
      || match given_end options with
         | Some e => negb (String.eqb e "") && negb (isdigit e)
         | None => false
         end
  end.

(** The configuration with the dry-run flag blanked, and a trace with the
    flag blanked where the configuration is printed. *)
Definition forget (a : args) : args :=
  {| domain := domain a; start_rev := start_rev a; end_rev := end_rev a;
     dryrun := false; verbose := verbose a |}.

Definition hide (e : event) : event :=
  match e with
  | EVerbose a => EVerbose (forget a)
  | _ => e
  end.

(** The command lines to refuse when every end revision that is not a
    number counts, the empty string among them. *)
Definition stated_refused (argv : cmdline) : bool :=
  match argv with
  | GetoptError _ => true
  | Parsed options remainder =>
      negb (forallb recognized options)
      || match remainder with [] => false | _ => true end
      || negb (domain_truthy (given_domain options))
      || negb (isdigit (given_start options))
      || match given_end options with
         | Some e => negb (isdigit e)
         | None => false
         end
  end.

Section AfterOpts.
Variable remote : nat -> request -> http_result.

(** What [do_main] does once [process_opts] has returned. *)
Definition after_opts (passes : nat) (a : args) : M unit :=
  when (verbose a) (emit (EVerbose a)) ;;
  revrange <- lift (candidates a) ;;
  redo <- do_revrange remote revrange (domain a) ;;
  when (match redo with [] => false | _ => true end) (sleep 5) ;;
  retry remote passes redo (domain a).

End AfterOpts.

(** The configuration once [check_opts] has set the end revision. *)
Definition with_end (a : args) (revid : pyval) : args :=
  {| domain := domain a; start_rev := start_rev a; end_rev := revid;
     dryrun := dryrun a; verbose := verbose a |}.

(** The configuration the options make of the defaults. *)
Definition settings (options : list (string * string)) : args :=
  configured options get_default_opts.

(** A run with the configuration it returns stripped of the dry-run flag. *)
Definition forget_run (r : run args) : run args :=
  mkRun (match result r with
         | Ok a => Ok (forget a)
         | Raise e => Raise e
         | Diverge => Diverge
         end) (clock r) (trace r).

End Spec.

(** ** Sample answers and services *)

Module Samples.
Import Py Script Spec.

Definition wiki : string := "en.wikipedia.org".

Definition revision (revid : Z) (timestamp : string) : pyval :=
  PDict [("revid", PInt revid); ("parentid", PInt 0);
         ("timestamp", PStr timestamp)].

(** Three revisions on two pages, not in the order of their ids. *)
Definition three_revisions : pyval :=
  PDict [("batchcomplete", PStr "");
         ("query",
          PDict [("pages",
                  PDict [("12", PDict [("pageid", PInt 12); ("ns", PInt 0);
                                       ("title", PStr "Main Page");
                                       ("revisions",
                                        PList [revision 20000001 "2005-08-01T03:15:00Z";
                                               revision 1 "2001-01-15T19:27:13Z"])]);
                         ("290", PDict [("pageid", PInt 290); ("ns", PInt 0);
                                        ("title", PStr "A");
                                        ("revisions",
                                         PList [revision 10000001 "2005-01-31T10:02:44Z"])])])])].

(** The newest revision of the wiki. *)
Definition newest_revision : pyval :=
  PDict [("batchcomplete", PStr "");
         ("query",
          PDict [("allrevisions",
                  PList [PDict [("pageid", PInt 290); ("ns", PInt 0);
                                ("title", PStr "A");
                                ("revisions",
                                 PList [PDict [("revid", PInt 25000000);
                                               ("parentid", PInt 24999990)]])]])])].

(** Every id asked for was bad: no pages in the answer. *)
Definition only_bad : pyval :=
  PDict [("batchcomplete", PStr "");
         ("query",
          PDict [("badrevids",
                  PDict [("5", PDict [("revid", PInt 5); ("missing", PStr "")])])])].

(** A service that is up: it knows the three revisions. *)
Definition remote_up (n : nat) (req : request) : http_result :=
  if is_revinfo_request req then Response 200 (Some three_revisions)
  else Response 200 (Some newest_revision).

(** A service that is down: status 500, a body that is no JSON. *)
Definition remote_down (n : nat) (req : request) : http_result :=
  Response 500 None.

(** A service that answers 200 with a body that is no JSON. *)
Definition remote_garbled (n : nat) (req : request) : http_result :=
  Response 200 None.

(** A service for which every id of a batch is bad. *)
Definition remote_only_bad (n : nat) (req : request) : http_result :=
  Response 200 (Some only_bad).

Definition sample_argv : cmdline :=
  Parsed [("--domain", wiki); ("--startrev", "1"); ("--endrev", "25000000")] [].

(** The id 6 is bad; the answer lists it and has a [pages] section with
    nothing in it. *)
Definition six_is_bad : pyval :=
  PDict [("batchcomplete", PStr "");
         ("query",
          PDict [("badrevids",
                  PDict [("6", PDict [("revid", PInt 6); ("missing", PStr "")])]);
                 ("pages", PDict [])])].

(** The revision 7. *)
Definition one_revision : pyval :=
  PDict [("batchcomplete", PStr "");
         ("query",
          PDict [("pages",
                  PDict [("12", PDict [("pageid", PInt 12); ("ns", PInt 0);
                                       ("title", PStr "Main Page");
                                       ("revisions",
                                        PList [revision 7 "2001-01-21T02:12:21Z"])])])])].

(** A service for which the id 6 alone is bad: asked for it, it says so;
    asked for anything else, it answers with the revision 7. *)
Definition remote_six_bad (n : nat) (req : request) : http_result :=
  match lookup "revids" (params req) with
  | Some ids =>
      if String.eqb ids "6" then Response 200 (Some six_is_bad)
      else Response 200 (Some one_revision)
  | None => Response 200 (Some newest_revision)
  end.

Definition is_six (z : Z) : bool := z =? 6.

(** A service for which the ids never recover: its answer number [n] lists
    the id [6 + n] as bad. *)
Definition ever_bad (n : nat) : pyval :=
  PDict [("batchcomplete", PStr "");
         ("query",
          PDict [("badrevids",
                  PDict [(str_of_Z (6 + Z.of_nat n),
                          PDict [("revid", PInt (6 + Z.of_nat n));
                                 ("missing", PStr "")])]);
                 ("pages", PDict [])])].

Definition remote_ever_bad (n : nat) (req : request) : http_result :=
  Response 200 (Some (ever_bad n)).

(** What the batch lookup makes of [three_revisions]. *)
Definition three_entries : list (Z * pyval) :=
  [(20000001, PStr "2005-08-01T03:15:00Z"); (1, PStr "2001-01-15T19:27:13Z");
   (10000001, PStr "2005-01-31T10:02:44Z")].

(** A command line with an empty end revision. *)
Definition empty_end_argv : cmdline :=
  Parsed [("--domain", wiki); ("--endrev", "")] [].

(** A command line with a start revision that is no number. *)
Definition bad_start_argv : cmdline :=
  Parsed [("--startrev", "abc"); ("--domain", wiki)] [].

Definition eleven : list string :=
  ["1"; "2"; "3"; "4"; "5"; "6"; "7"; "8"; "9"; "10"; "11"].

(** The sample command line with the dry-run flag added. *)
Definition dryrun_argv : cmdline :=
  Parsed [("-D", ""); ("--domain", wiki); ("--startrev", "1");
          ("--dryrun", ""); ("--endrev", "25000000")] [].

End Samples.

(** ** Further notions: shapes of answers, what a trace holds *)

Module Shapes.
Import Py Script Spec.

(** A revision of an answer, as an object with an int [revid] and a
    [timestamp], to be recorded as the entry [e]. *)
Definition revision_of (rev : pyval) (e : Z * pyval) : Prop :=
  exists fields,
    rev = PDict fields
    /\ lookup "revid" fields = Some (PInt (fst e))
    /\ lookup "timestamp" fields = Some (snd e).

(** A page of an answer, as an object whose [revisions] is the list of the
    revisions recorded as [entries]. *)
Definition page_of (page : pyval) (entries : list (Z * pyval)) : Prop :=
  exists fields revisions,
    page = PDict fields
    /\ lookup "revisions" fields = Some (PList revisions)
    /\ Forall2 revision_of revisions entries.

(** An entry of [allrevisions], as an object whose [revisions] is a list. *)
Definition entry_of (entry : pyval) (revisions : list pyval) : Prop :=
  item entry "revisions" = Ok (PList revisions).

(** A page that cannot be read: no list of revisions to go through, or a
    revision without a timestamp, without a revision id, or with a revision
    id that cannot be a key. *)
Definition unreadable (page : pyval) : Prop :=
  forall revisions,
    obind (item page "revisions") iter = Ok revisions ->
    exists rev,
      In rev revisions
      /\ ((forall t, item rev "timestamp" <> Ok t)
          \/ (forall k, item rev "revid" <> Ok k)
          \/ exists k, item rev "revid" = Ok k /\ hashable k = false).

(** The pauses of a trace, and the bad ids its answers list. *)
Definition sleeps (t : list event) : list Z :=
  flat_map (fun e => match e with ESleep s => [s] | _ => [] end) t.

Definition listed_bad (t : list event) : list string :=
  flat_map (fun e => match e with
                     | EGet _ res =>
                         match verdict res with
                         | Ok p => snd p
                         | _ => []
                         end
                     | _ => []
                     end) t.

(** A string without the separator of the [revids] parameter. *)
Fixpoint no_bar (s : string) : bool :=
  match s with
  | EmptyString => true
  | String c r => negb (Ascii.eqb c "|") && no_bar r
  end.

(** *** Samples *)

(** A mapping with an int key and a string key. *)
Definition mixed_keys : mapping :=
  [(PInt 7, PStr "2001-01-21T02:12:21Z"); (PStr "8", PStr "2001-01-21T02:12:22Z")].

(** A page without revisions among the pages of an answer. *)
Definition missing_page : pyval :=
  PDict [("pageid", PInt 13); ("missing", PStr "")].

Definition with_missing_page : pyval :=
  PDict [("batchcomplete", PStr "");
         ("query",
          PDict [("badrevids",
                  PDict [("5", PDict [("revid", PInt 5); ("missing", PStr "")])]);
                 ("pages",
                  PDict [("12", PDict [("pageid", PInt 12);
                                       ("revisions",
                                        PList [Samples.revision 7 "2001-01-21T02:12:21Z"])]);
                         ("13", missing_page)])])].

(** A service that does not answer. *)
Definition remote_silent (n : nat) (req : request) : http_result := NoResponse.

(** A command line whose end is not above its start. *)
Definition empty_range_argv : cmdline :=
  Parsed [("--domain", Samples.wiki); ("--startrev", "500"); ("--endrev", "500")] [].

(** A command line without an end revision. *)
Definition no_end_argv : cmdline :=
  Parsed [("-d", "de.wikipedia.org"); ("-d", Samples.wiki)] [].

(** The configuration with the verbose flag blanked, a run with the
    configuration it returns so blanked, and a trace without the printing of
    the configuration. *)
Definition quiet (a : args) : args :=
  {| domain := domain a; start_rev := start_rev a; end_rev := end_rev a;
     dryrun := dryrun a; verbose := false |}.

Definition quiet_run (r : run args) : run args :=
  mkRun (match result r with
         | Ok a => Ok (quiet a)
         | Raise e => Raise e
         | Diverge => Diverge
         end) (clock r) (trace r).

Definition unsaid (t : list event) : list event :=
  filter (fun e => match e with EVerbose _ => false | _ => true end) t.

(** A command line with the verbose flag. *)
Definition verbose_argv : cmdline :=
  Parsed [("-v", ""); ("--domain", Samples.wiki); ("--startrev", "1");
          ("--endrev", "25000000")] [].

(** Command lines whose start revision is a superscript two, which
    [str.isdigit] accepts and [int] does not read: without an end revision,
    and with one. *)
Definition superscript_argv : cmdline :=
  Parsed [("--domain", Samples.wiki); ("--startrev", "²")] [].

Definition superscript_end_argv : cmdline :=
  Parsed [("--domain", Samples.wiki); ("--startrev", "²");
          ("--endrev", "25000000")] [].

End Shapes.

(** ** Facts about the Python primitives *)

Module PyFacts.
Import Py.

#[local] Arguments digit_char : simpl never.
#[local] Arguments is_digit : simpl never.
#[local] Arguments is_space : simpl never.
#[local] Arguments digit_val : simpl never.
#[local] Arguments byte : simpl never.

Lemma digit_char_facts (d : Z) :
  0 <= d < 10 ->
  is_digit (digit_char d) = true /\ digit_val (digit_char d) = d.
Proof.
  intros Hd.
  assert (H : d = 0 \/ d = 1 \/ d = 2 \/ d = 3 \/ d = 4 \/ d = 5 \/ d = 6
              \/ d = 7 \/ d = 8 \/ d = 9) by lia.
  repeat (destruct H as [-> | H]; [split; reflexivity |]).
  subst d; split; reflexivity.
Qed.

Lemma is_digit_range (c : ascii) :
  is_digit c = true <-> (48 <= nat_of_ascii c <= 57)%nat.
Proof.
  unfold is_digit. rewrite andb_true_iff, !Nat.leb_le. tauto.
Qed.

Lemma digit_not_space (c : ascii) : is_digit c = true -> is_space c = false.
Proof.
  rewrite is_digit_range. intros H. unfold is_space.
  apply orb_false_iff; split;
    [apply andb_false_iff; rewrite !Nat.leb_gt | apply Nat.eqb_neq]; lia.
Qed.

Lemma digit_not_underscore (c : ascii) :
  is_digit c = true -> Ascii.eqb c "_" = false.
Proof.
  intros H. apply Ascii.eqb_neq. intros ->. discriminate H.
Qed.

Lemma digit_val_bounds (c : ascii) : is_digit c = true -> 0 <= digit_val c < 10.
Proof. rewrite is_digit_range. unfold digit_val. lia. Qed.

Lemma digit_not_sign (c : ascii) :
  is_digit c = true -> c <> "-"%char /\ c <> "+"%char.
Proof. intros H; split; intros ->; discriminate H. Qed.

(** Parsing a run of digits. *)
Lemma parse_all_digits (s : string) :
  all_digits s = true ->
  forall acc seen, 0 <= acc -> (seen = true \/ s <> EmptyString) ->
  exists z, parse_digits acc seen s = Some z /\ acc <= z.
Proof.
  induction s as [| c r IH]; simpl; intros Hs acc seen Hacc Hne.
  - destruct Hne as [-> | Hne]; [| congruence]. exists acc; split; [reflexivity | lia].
  - apply andb_true_iff in Hs as [Hc Hr].
    rewrite (digit_not_underscore _ Hc), Hc.
    pose proof (digit_val_bounds _ Hc) as Hv.
    destruct (IH Hr (10 * acc + digit_val c) true) as (z & Hz & Hle);
      [lia | now left |].
    exists z; split; [exact Hz | lia].
Qed.

Lemma lstrip_digits (s : string) : all_digits s = true -> lstrip s = s.
Proof.
  destruct s as [| c r]; simpl; [reflexivity |].
  intros H; apply andb_true_iff in H as [Hc _].
  now rewrite (digit_not_space _ Hc).
Qed.

Lemma rstrip_digits (s : string) : all_digits s = true -> rstrip s = s.
Proof.
  induction s as [| c r IH]; simpl; [reflexivity |].
  intros H; apply andb_true_iff in H as [Hc Hr].
  rewrite (IH Hr), (digit_not_space _ Hc). now destruct r.
Qed.

Lemma parse_int_digits (s : string) :
  all_digits s = true -> parse_int s = parse_digits 0 false s.
Proof.
  intros H. unfold parse_int. rewrite (lstrip_digits _ H), (rstrip_digits _ H).
  destruct s as [| c r]; [reflexivity |].
  simpl in H; apply andb_true_iff in H as [Hc _].
  destruct (digit_not_sign _ Hc) as [Hm Hp].
  destruct c as [[] [] [] [] [] [] [] []]; try reflexivity; congruence.
Qed.

(** *** Characters *)

Lemma heads_ascii (a : ascii) :
  (byte a <? 128) = true ->
  (forall b, heads_two a b = false)
  /\ (forall b c, heads_three a b c = false)
  /\ (forall b c d, heads_four a b c d = false).
Proof.
  intros H. apply Z.ltb_lt in H.
  assert (H2 : forall lo hi, 128 <= lo -> between lo (byte a) hi = false).
  { intros lo hi Hlo. unfold between. apply andb_false_iff. left.
    apply Z.leb_gt. lia. }
  assert (He : forall k, 128 <= k -> (byte a =? k) = false).
  { intros k Hk. apply Z.eqb_neq. lia. }
  repeat split; intros; unfold heads_two, heads_three, heads_four;
    rewrite ?H2, ?He by lia; reflexivity.
Qed.

(** An ASCII character is a character of its own. *)
Lemma chars_ascii (a : ascii) (r : string) :
  (byte a <? 128) = true -> chars (String a r) = String a EmptyString :: chars r.
Proof.
  intros H. destruct (heads_ascii a H) as (H2 & H3 & H4).
  destruct r as [| b [| c [| d r4]]]; cbn [chars];
    rewrite ?H2, ?H3, ?H4; reflexivity.
Qed.

Lemma ascii_form_ascii (a : ascii) (r : string) :
  (byte a <? 128) = true -> ascii_form (String a r) = String a (ascii_form r).
Proof.
  intros H. unfold ascii_form. rewrite (chars_ascii a r H).
  cbn [map string_of_list_ascii plain]. now rewrite H.
Qed.

(** [int] parses ASCII text as it is. *)
Lemma ascii_form_text (s : string) : ascii_text s = true -> ascii_form s = s.
Proof.
  induction s as [| a r IH]; [reflexivity |]. cbn [ascii_text].
  intros H. apply andb_true_iff in H as [Ha Hr].
  now rewrite (ascii_form_ascii a r Ha), (IH Hr).
Qed.

Lemma digit_byte (c : ascii) :
  is_digit c = true -> 48 <= byte c <= 57.
Proof. rewrite is_digit_range. unfold byte. lia. Qed.

Lemma all_digits_text (s : string) : all_digits s = true -> ascii_text s = true.
Proof.
  induction s as [| c r IH]; [reflexivity |]. cbn [all_digits ascii_text].
  intros H. apply andb_true_iff in H as [Hc Hr].
  rewrite (IH Hr), andb_true_r. apply Z.ltb_lt.
  pose proof (digit_byte c Hc). lia.
Qed.

Lemma int_of_str_digits (s : string) :
  all_digits s = true -> int_of_str s = parse_digits 0 false s.
Proof.
  intros H. unfold int_of_str.
  now rewrite (ascii_form_text s (all_digits_text s H)), parse_int_digits.
Qed.

(** *** The digits of the character database *)

Lemma decimal_value_range (p d : Z) :
  decimal_value p = Some d ->
  0 <= d < 10 /\ (p < 128 -> 48 <= p <= 57) /\ 48 <= p.
Proof.
  unfold decimal_value.
  destruct (find (fun zero => between zero p (zero + 9)) decimal_zeros)
    as [zero |] eqn:Hf; [| discriminate].
  intros [= <-]. apply find_some in Hf as [Hin Hb].
  unfold between in Hb. apply andb_true_iff in Hb as [Hlo Hhi].
  apply Z.leb_le in Hlo, Hhi.
  assert (Hz : forallb (fun z => (z =? 48) || (1632 <=? z)) decimal_zeros = true)
    by reflexivity.
  rewrite forallb_forall in Hz. specialize (Hz zero Hin).
  apply orb_true_iff in Hz as [Hz | Hz];
    [apply Z.eqb_eq in Hz | apply Z.leb_le in Hz]; lia.
Qed.

Lemma decimal_ascii (p : Z) : 48 <= p <= 57 -> decimal_value p = Some (p - 48).
Proof.
  intros H. unfold decimal_value, decimal_zeros. cbn [find].
  replace (between 48 p (48 + 9)) with true; [reflexivity |].
  symmetry. unfold between. apply andb_true_iff.
  split; apply Z.leb_le; lia.
Qed.

Lemma digit_point_low (p : Z) :
  digit_point p = true -> p < 128 -> 48 <= p <= 57.
Proof.
  unfold digit_point. destruct (decimal_value p) as [d |] eqn:Hd.
  - intros _ Hp. now apply (decimal_value_range p d Hd).
  - intros H Hp. apply existsb_exists in H as (r & Hin & Hb).
    assert (Hr : forallb (fun r => 178 <=? fst r) other_digits = true)
      by reflexivity.
    rewrite forallb_forall in Hr. specialize (Hr r Hin). apply Z.leb_le in Hr.
    unfold between in Hb. apply andb_true_iff in Hb as [Hlo _].
    apply Z.leb_le in Hlo. lia.
Qed.

(** No digit is white space. *)
Lemma digit_point_not_space (p : Z) :
  digit_point p = true -> space_point p = false.
Proof.
  intros Hd. destruct (space_point p) eqn:Hs; [| reflexivity]. exfalso.
  apply existsb_exists in Hs as (s & Hs & Hb).
  unfold between in Hb. apply andb_true_iff in Hb as [Hlo Hhi].
  apply Z.leb_le in Hlo, Hhi.
  unfold digit_point in Hd. destruct (decimal_value p) as [d |] eqn:Hv.
  - unfold decimal_value in Hv.
    destruct (find (fun zero => between zero p (zero + 9)) decimal_zeros)
      as [zero |] eqn:Hf; [| discriminate].
    apply find_some in Hf as [Hin Hz].
    unfold between in Hz. apply andb_true_iff in Hz as [Hzl Hzh].
    apply Z.leb_le in Hzl, Hzh.
    assert (Hapart : forallb (fun s => forallb (fun z =>
              (snd s <? z) || (z + 9 <? fst s)) decimal_zeros) space_points
            = true) by reflexivity.
    rewrite forallb_forall in Hapart. specialize (Hapart s Hs).
    rewrite forallb_forall in Hapart. specialize (Hapart zero Hin).
    apply orb_true_iff in Hapart as [H | H]; apply Z.ltb_lt in H; lia.
  - apply existsb_exists in Hd as (r & Hr & Hz).
    unfold between in Hz. apply andb_true_iff in Hz as [Hzl Hzh].
    apply Z.leb_le in Hzl, Hzh.
    assert (Hapart : forallb (fun s => forallb (fun r =>
              (snd s <? fst r) || (snd r <? fst s)) other_digits) space_points
            = true) by reflexivity.
    rewrite forallb_forall in Hapart. specialize (Hapart s Hs).
    rewrite forallb_forall in Hapart. specialize (Hapart r Hr).
    apply orb_true_iff in Hapart as [H | H]; apply Z.ltb_lt in H; lia.
Qed.

(** What [int] makes of a digit: an ASCII digit, or a character it will not
    parse. *)
Lemma plain_digit (c : string) :
  digit_point (code_point c) = true ->
  is_digit (plain c) = true \/ plain c = "?"%char.
Proof.
  intros Hd.
  assert (Hmany :
    is_digit (if space_point (code_point c) then " "%char
              else match decimal_value (code_point c) with
                   | Some d => digit_char d
                   | None => "?"%char
                   end) = true
    \/ (if space_point (code_point c) then " "%char
        else match decimal_value (code_point c) with
             | Some d => digit_char d
             | None => "?"%char
             end) = "?"%char).
  { rewrite (digit_point_not_space _ Hd).
    destruct (decimal_value (code_point c)) as [d |] eqn:Hv; [| now right].
    left. apply digit_char_facts. now apply (decimal_value_range _ d Hv). }
  destruct c as [| a [| b r]]; [exact Hmany | | exact Hmany].
  cbn [plain]. destruct (byte a <? 128) eqn:Ha; [| now right].
  left. cbn [code_point] in Hd. rewrite Ha in Hd.
  apply Z.ltb_lt in Ha. pose proof (digit_point_low _ Hd Ha) as Hr.
  apply is_digit_range. unfold byte in Hr. lia.
Qed.

Lemma parse_digits_lower (s : string) :
  forall acc seen z, parse_digits acc seen s = Some z -> 0 <= acc -> acc <= z.
Proof.
  induction s as [| c r IH]; cbn [parse_digits]; intros acc seen z H Hacc.
  - destruct seen; [| discriminate]. injection H as <-. lia.
  - destruct (Ascii.eqb c "_").
    + destruct seen; [| discriminate]. now apply (IH acc false).
    + destruct (is_digit c) eqn:Hc; [| discriminate].
      pose proof (digit_val_bounds _ Hc).
      specialize (IH _ _ _ H). lia.
Qed.

Lemma rstrip_head (c : ascii) (r : string) :
  is_space c = false -> exists r', rstrip (String c r) = String c r'.
Proof.
  intros H. cbn [rstrip]. rewrite H. destruct (rstrip r); eauto.
Qed.

Lemma parse_int_unsigned (x : ascii) (r : string) :
  is_space x = false -> x <> "-"%char -> x <> "+"%char ->
  exists r', parse_int (String x r) = parse_digits 0 false (String x r').
Proof.
  intros Hsp Hm Hp. unfold parse_int. cbn [lstrip]. rewrite Hsp.
  destruct (rstrip_head x r Hsp) as (r' & ->). exists r'.
  destruct x as [[] [] [] [] [] [] [] []]; try reflexivity; congruence.
Qed.

(** A string that passes [isdigit] holds no sign: what [int] reads in it,
    when it reads a number at all, is not negative. *)
Lemma int_isdigit (s : string) (z : Z) :
  isdigit s = true -> int (PStr s) = Ok z -> 0 <= z.
Proof.
  unfold isdigit. cbn [int]. unfold int_of_str, ascii_form.
  destruct (chars s) as [| c cs]; [discriminate |].
  cbn [forallb map string_of_list_ascii]. intros H.
  apply andb_true_iff in H as [Hc _].
  assert (Hx : is_space (plain c) = false /\ plain c <> "-"%char
               /\ plain c <> "+"%char).
  { destruct (plain_digit c Hc) as [Hd | ->].
    - split; [now apply digit_not_space |]. now apply digit_not_sign.
    - repeat split; discriminate. }
  destruct Hx as (Hsp & Hm & Hp).
  destruct (parse_int_unsigned (plain c) (string_of_list_ascii (map plain cs))
              Hsp Hm Hp) as (r' & ->).
  destruct (parse_digits 0 false (String (plain c) r')) as [v |] eqn:Hv;
    [| discriminate].
  intros [= <-]. apply parse_digits_lower in Hv; lia.
Qed.

(** A string of ASCII digits passes [isdigit], and [int] reads a number
    that is not negative in it. *)
Lemma isdigit_all_digits (s : string) :
  all_digits s = true -> s <> EmptyString -> isdigit s = true.
Proof.
  intros Hd Hne.
  assert (Hall : forall t, all_digits t = true ->
            forallb (fun c => digit_point (code_point c)) (chars t) = true).
  { induction t as [| a r IH]; [reflexivity |]. cbn [all_digits].
    intros H. apply andb_true_iff in H as [Ha Hr].
    pose proof (digit_byte a Ha) as Hb.
    assert (Hlow : (byte a <? 128) = true) by (apply Z.ltb_lt; lia).
    rewrite (chars_ascii a r Hlow). cbn [forallb code_point].
    rewrite Hlow, (IH Hr), andb_true_r.
    unfold digit_point. now rewrite (decimal_ascii _ Hb). }
  unfold isdigit. specialize (Hall s Hd).
  destruct s as [| a r]; [congruence |].
  cbn [all_digits] in Hd. apply andb_true_iff in Hd as [Ha _].
  pose proof (digit_byte a Ha) as Hb.
  assert (Hlow : (byte a <? 128) = true) by (apply Z.ltb_lt; lia).
  rewrite (chars_ascii a r Hlow) in Hall |- *. exact Hall.
Qed.

(** [int] on a string returns a number or raises [ValueError]. *)
Lemma int_str_outcome (s : string) :
  (exists z, int (PStr s) = Ok z) \/ int (PStr s) = Raise ValueError.
Proof. cbn [int]. destruct (int_of_str s) as [z |]; eauto. Qed.

Lemma int_all_digits (s : string) :
  all_digits s = true -> s <> EmptyString ->
  exists z, int (PStr s) = Ok z /\ 0 <= z.
Proof.
  intros Hd Hne.
  destruct (parse_all_digits s Hd 0 false) as (z & Hz & Hle);
    [lia | now right |].
  exists z. cbn [int]. now rewrite (int_of_str_digits _ Hd), Hz.
Qed.

Lemma digits_of_all_digits (fuel : nat) : forall n acc,
  0 <= n -> all_digits acc = true -> all_digits (digits_of fuel n acc) = true.
Proof.
  induction fuel as [| f IH]; cbn [digits_of]; intros n acc Hn Hacc; [exact Hacc |].
  assert (Hd : all_digits (String (digit_char (n mod 10)) acc) = true).
  { cbn [all_digits]. rewrite Hacc, andb_true_r.
    apply digit_char_facts. apply Z.mod_pos_bound. lia. }
  destruct (n <? 10); [exact Hd |].
  apply IH; [apply Z.div_pos; lia | exact Hd].
Qed.

Lemma digits_of_nonempty (fuel : nat) : forall n acc,
  digits_of (S fuel) n acc <> EmptyString.
Proof.
  induction fuel as [| f IH]; intros n acc.
  - cbn [digits_of]. destruct (n <? 10); discriminate.
  - change (digits_of (S (S f)) n acc)
      with (let acc' := String (digit_char (n mod 10)) acc in
            if n <? 10 then acc' else digits_of (S f) (n / 10) acc').
    cbv zeta. destruct (n <? 10); [discriminate | apply IH].
Qed.

Lemma parse_digits_of (f : nat) : forall n acc,
  0 <= n < 2 ^ Z.of_nat (S f) ->
  parse_digits 0 false (digits_of (S f) n acc) = parse_digits n true acc.
Proof.
  assert (Hlast : forall n acc, 0 <= n < 10 ->
    parse_digits 0 false (String (digit_char (n mod 10)) acc)
    = parse_digits n true acc).
  { intros n acc Hn. rewrite Z.mod_small by lia.
    destruct (digit_char_facts _ Hn) as [Hd Hv]. cbn [parse_digits].
    rewrite (digit_not_underscore _ Hd), Hd, Hv. f_equal. }
  induction f as [| f IH]; intros n acc Hn.
  - change (2 ^ Z.of_nat 1) with 2 in Hn.
    cbn [digits_of]. replace (n <? 10) with true by (symmetry; apply Z.ltb_lt; lia).
    apply Hlast; lia.
  - change (digits_of (S (S f)) n acc)
      with (let acc' := String (digit_char (n mod 10)) acc in
            if n <? 10 then acc' else digits_of (S f) (n / 10) acc').
    cbv zeta. destruct (Z.ltb_spec n 10) as [Hlt | Hge].
    + apply Hlast; lia.
    + rewrite IH.
      * assert (Hm : 0 <= n mod 10 < 10) by (apply Z.mod_pos_bound; lia).
        destruct (digit_char_facts _ Hm) as [Hd Hv]. cbn [parse_digits].
        rewrite (digit_not_underscore _ Hd), Hd, Hv. f_equal.
        pose proof (Z.div_mod n 10). lia.
      * rewrite Nat2Z.inj_succ, Z.pow_succ_r in Hn by lia.
        split; [apply Z.div_pos; lia |].
        apply Z.div_lt_upper_bound; lia.
Qed.

Lemma str_of_nonneg_digits (n : Z) :
  0 <= n -> all_digits (str_of_nonneg n) = true /\ str_of_nonneg n <> EmptyString.
Proof.
  intros Hn; split; [now apply digits_of_all_digits | apply digits_of_nonempty].
Qed.

Lemma int_of_str_nonneg (n : Z) : 0 <= n -> int_of_str (str_of_nonneg n) = Some n.
Proof.
  intros Hn. destruct (str_of_nonneg_digits _ Hn) as [Hd _].
  rewrite (int_of_str_digits _ Hd). unfold str_of_nonneg.
  rewrite parse_digits_of; [reflexivity |].
  split; [exact Hn |].
  rewrite Nat2Z.inj_succ, Z2Nat.id by apply Z.log2_nonneg.
  destruct (Z.eq_dec n 0) as [-> | Hnz]; [reflexivity |].
  apply Z.log2_spec; lia.
Qed.

Lemma str_of_Z_text (z : Z) : ascii_text (str_of_Z z) = true.
Proof.
  unfold str_of_Z. destruct (Z.ltb_spec z 0) as [Hneg | Hpos].
  - cbn [ascii_text]. apply all_digits_text, str_of_nonneg_digits. lia.
  - now apply all_digits_text, str_of_nonneg_digits.
Qed.

(** [int(str(z)) == z]. *)
Lemma int_str (z : Z) : int (PStr (str_of_Z z)) = Ok z.
Proof.
  cbn [int]. unfold int_of_str. rewrite (ascii_form_text _ (str_of_Z_text z)).
  unfold str_of_Z. destruct (Z.ltb_spec z 0) as [Hneg | Hpos].
  - assert (Hn : 0 <= - z) by lia.
    destruct (str_of_nonneg_digits _ Hn) as [Hd Hne].
    pose proof (int_of_str_nonneg _ Hn) as Hp.
    rewrite (int_of_str_digits _ Hd) in Hp.
    unfold parse_int.
    assert (Hs : rstrip (lstrip (String "-" (str_of_nonneg (- z))))
                 = String "-" (str_of_nonneg (- z))).
    { change (lstrip (String "-" ?s)) with (String "-" s).
      simpl. rewrite (rstrip_digits _ Hd).
      destruct (str_of_nonneg (- z)); [congruence | reflexivity]. }
    rewrite Hs, Hp. simpl. f_equal. lia.
  - pose proof (int_of_str_nonneg _ Hpos) as Hp. unfold int_of_str in Hp.
    rewrite (ascii_form_text _ (all_digits_text _
               (proj1 (str_of_nonneg_digits _ Hpos)))) in Hp.
    now rewrite Hp.
Qed.

(** [isdigit] accepts what [str] makes of an int that is not negative. *)
Lemma isdigit_str (n : Z) : 0 <= n -> isdigit (str_of_Z n) = true.
Proof.
  intros Hn. unfold str_of_Z.
  replace (n <? 0) with false by (symmetry; apply Z.ltb_ge; lia).
  destruct (str_of_nonneg_digits _ Hn) as [Hd Hne].
  now apply isdigit_all_digits.
Qed.

Lemma str_of_Z_nonempty (z : Z) : str_of_Z z <> EmptyString.
Proof.
  unfold str_of_Z. destruct (z <? 0); [discriminate | apply digits_of_nonempty].
Qed.

Lemma str_of_Z_inj (x y : Z) : str_of_Z x = str_of_Z y -> x = y.
Proof.
  intros H. pose proof (int_str x) as Hx. rewrite H, int_str in Hx. congruence.
Qed.

End PyFacts.

(** ** Facts about the script *)

Module ScriptFacts.
Import Py Script Spec.

Local Open Scope list_scope.
Local Open Scope script_scope.

(** *** The monad *)

Lemma run_eta {A} (r : run A) : mkRun (result r) (clock r) (trace r) = r.
Proof. now destruct r. Qed.

Lemma bind_ok {A B} (c : M A) (k : A -> M B) (n : nat) (a : A) :
  result (c n) = Ok a ->
  bind c k n = mkRun (result (k a (clock (c n)))) (clock (k a (clock (c n))))
                     (trace (c n) ++ trace (k a (clock (c n)))).
Proof. intros H. unfold bind. now rewrite H. Qed.

Lemma bind_raise {A B} (c : M A) (k : A -> M B) (n : nat) (e : exn) :
  result (c n) = Raise e ->
  bind c k n = mkRun (Raise e) (clock (c n)) (trace (c n)).
Proof. intros H. unfold bind. now rewrite H. Qed.

Lemma bind_diverge {A B} (c : M A) (k : A -> M B) (n : nat) :
  result (c n) = Diverge ->
  bind c k n = mkRun Diverge (clock (c n)) (trace (c n)).
Proof. intros H. unfold bind. now rewrite H. Qed.

Lemma bind_ret {A B} (a : A) (k : A -> M B) (n : nat) :
  bind (ret a) k n = k a n.
Proof. unfold bind, ret. simpl. now destruct (k a n). Qed.

Lemma bind_silent {A B} (c : M A) (k : A -> M B) (n m : nat) (a : A) :
  c n = mkRun (Ok a) m [] -> bind c k n = k a m.
Proof. intros H. unfold bind. rewrite H. cbn. apply run_eta. Qed.

Lemma bind_lift_ok {A B} (a : A) (k : A -> M B) (n : nat) :
  bind (lift (Ok a)) k n = k a n.
Proof. apply bind_ret. Qed.

Lemma bind_lift_raise {A B} (e : exn) (k : A -> M B) (n : nat) :
  bind (lift (Raise e)) k n = mkRun (Raise e) n [].
Proof. reflexivity. Qed.

Lemma bind_lift_diverge {A B} (k : A -> M B) (n : nat) :
  bind (lift Diverge) k n = mkRun Diverge n [].
Proof. reflexivity. Qed.

Lemma bind_emit {B} (e : event) (k : unit -> M B) (n : nat) :
  bind (emit e) k n
  = mkRun (result (k tt n)) (clock (k tt n)) (e :: trace (k tt n)).
Proof. reflexivity. Qed.

(** The fields of [bind c k n], by the outcome of [c]. *)
Lemma result_bind {A B} (c : M A) (k : A -> M B) (n : nat) :
  result (bind c k n)
  = match result (c n) with
    | Ok a => result (k a (clock (c n)))
    | Raise e => Raise e
    | Diverge => Diverge
    end.
Proof. unfold bind. now destruct (result (c n)). Qed.

Lemma trace_bind {A B} (c : M A) (k : A -> M B) (n : nat) :
  trace (bind c k n)
  = match result (c n) with
    | Ok a => trace (c n) ++ trace (k a (clock (c n)))
    | _ => trace (c n)
    end.
Proof. unfold bind. now destruct (result (c n)). Qed.

Lemma clock_bind {A B} (c : M A) (k : A -> M B) (n : nat) :
  clock (bind c k n)
  = match result (c n) with
    | Ok a => clock (k a (clock (c n)))
    | _ => clock (c n)
    end.
Proof. unfold bind. now destruct (result (c n)). Qed.

(** *** Projections of a trace *)

Lemma requests_app (t u : list event) :
  requests (t ++ u) = requests t ++ requests u.
Proof. unfold requests. now rewrite flat_map_app. Qed.

Lemma printed_app (t u : list event) :
  printed (t ++ u) = printed t ++ printed u.
Proof. unfold printed. now rewrite flat_map_app. Qed.

Lemma stderr_text_app (t u : list event) :
  stderr_text (t ++ u) = stderr_text t ++ stderr_text u.
Proof. unfold stderr_text. now rewrite flat_map_app. Qed.

(** *** One lookup *)

Lemma get_revids_url_some (d : string) (revids : list string) :
  get_revids_url (Some d) revids = Ok (revinfo_request d revids).
Proof. reflexivity. Qed.

Lemma get_revinfo_none_domain remote (revids : list string) (n : nat) :
  get_revinfo remote revids None n = mkRun (Raise TypeError) n [].
Proof. reflexivity. Qed.

(** [get_revinfo] at a domain: one request, and by the answer [None] with a
    line on stderr, the pair unpacked, or the exception of the unpacking. *)
Lemma get_revinfo_run remote (d : string) (revids : list string) (n : nat) :
  let req := revinfo_request d revids in
  let res := remote n req in
  get_revinfo remote revids (Some d) n
  = match res with
    | NoResponse => mkRun (Raise RequestException) (S n) [EGet req res]
    | Response status_code content =>
        if status_code =? 200 then
          match unpack_revinfo (get_revinfo_from_json content) with
          | Ok p => mkRun (Ok (Some p)) (S n) [EGet req res]
          | Raise e => mkRun (Raise e) (S n) [EGet req res]
          | Diverge => mkRun Diverge (S n) [EGet req res]
          end
        else mkRun (Ok None) (S n) [EGet req res; EStderr (failed_message req)]
    end.
Proof.
  intros req res. unfold get_revinfo. rewrite get_revids_url_some, bind_lift_ok.
  fold req. unfold bind at 1. unfold sess_get. fold res.
  destruct res as [status_code content |]; cbn [result clock trace]; [| reflexivity].
  cbn [fst snd]. destruct (status_code =? 200); cbn [negb].
  - unfold bind, lift, ret. cbn [result clock trace].
    destruct (unpack_revinfo (get_revinfo_from_json content)); reflexivity.
  - reflexivity.
Qed.

(** The lookup and the unpacking of its result in [do_revrange], together:
    the [verdict] on the answer. *)
Lemma fetch_run remote (d : string) (batch : list string) (n : nat) :
  let req := revinfo_request d batch in
  let res := remote n req in
  bind (get_revinfo remote batch (Some d)) (fun r => lift (unpack_pair r)) n
  = mkRun (verdict res) (S n) (EGet req res :: complaint req res).
Proof.
  intros req res. unfold bind at 1. rewrite get_revinfo_run. fold req res.
  unfold verdict, complaint. destruct res as [status_code content |]; [| reflexivity].
  destruct (status_code =? 200); [| reflexivity].
  destruct (unpack_revinfo (get_revinfo_from_json content)); reflexivity.
Qed.

(** *** Printing makes no request and always ends *)

Lemma print_revids_run (revinfo : mapping) (revids : list pyval) (n : nat) :
  clock (print_revids revinfo revids n) = n
  /\ result (print_revids revinfo revids n) <> Diverge
  /\ exists lines, trace (print_revids revinfo revids n) = map EPrint lines.
Proof.
  induction revids as [| revid rest IH]; cbn [print_revids].
  - repeat split; [discriminate | now exists []].
  - destruct IH as (Hc & Hr & lines & Ht).
    destruct (assoc revid revinfo) as [v |].
    + rewrite bind_lift_ok, bind_emit. cbn [result clock trace].
      repeat split; [exact Hc | exact Hr |].
      exists ([revid; v] :: lines). cbn [map]. now rewrite Ht.
    + rewrite bind_lift_raise. cbn [result clock trace].
      repeat split; [discriminate | now exists []].
Qed.

Lemma display_revinfo_run (revinfo : mapping) (n : nat) :
  clock (display_revinfo revinfo n) = n
  /\ result (display_revinfo revinfo n) <> Diverge
  /\ exists lines, trace (display_revinfo revinfo n) = map EPrint lines.
Proof.
  unfold display_revinfo.
  assert (Hs : sorted (map fst revinfo) <> Diverge).
  { unfold sorted. destruct (map fst revinfo) as [| a [| b l]]; try discriminate.
    destruct (forallb is_num (a :: b :: l)); [discriminate |].
    destruct (forallb is_str (a :: b :: l)); discriminate. }
  destruct (sorted (map fst revinfo)) as [revids | e |]; [| | congruence].
  - rewrite bind_lift_ok. apply print_revids_run.
  - rewrite bind_lift_raise. cbn [result clock trace].
    repeat split; [discriminate | now exists []].
Qed.


Lemma bind_assoc {A B C} (c : M A) (f : A -> M B) (k : B -> M C) (n : nat) :
  bind c (fun a => bind (f a) k) n = bind (bind c f) k n.
Proof.
  unfold bind. destruct (result (c n)) as [a | e |]; cbn [result clock trace];
    [| reflexivity | reflexivity].
  destruct (result (f a (clock (c n)))); cbn [result clock trace];
    [now rewrite app_assoc | reflexivity | reflexivity].
Qed.

Lemma bind_ext {A B} (c : M A) (k k' : A -> M B) (n : nat) :
  (forall a m, k a m = k' a m) -> bind c k n = bind c k' n.
Proof.
  intros H. unfold bind. destruct (result (c n)); [now rewrite H | reflexivity ..].
Qed.

Lemma verdict_not_diverge (res : http_result) : verdict res <> Diverge.
Proof.
  destruct res as [status_code content |]; cbn [verdict]; [| discriminate].
  destruct (status_code =? 200); [| discriminate].
  destruct (get_revinfo_from_json content); discriminate.
Qed.

(** A verdict that lets the turn go on comes from an answer with status 200. *)
Lemma verdict_ok_status (res : http_result) (p : mapping * list string) :
  verdict res = Ok p ->
  exists content, res = Response 200 content
                  /\ unpack_revinfo (get_revinfo_from_json content) = Ok p.
Proof.
  destruct res as [status_code content |]; cbn [verdict]; [| discriminate].
  destruct (Z.eqb_spec status_code 200) as [-> | _]; [| discriminate].
  intros H. now exists content.
Qed.

(** *** One pass, batch by batch *)

Section PassFacts.
Variable remote : nat -> request -> http_result.

(** The first batch of a pass fails: the pass ends with its exception. *)
Lemma spec_pass_fails (d : string) (batch : list string)
  (rest : list (list string)) (redo : list string) (n : nat) (e : exn) :
  let req := revinfo_request d batch in
  let res := remote n req in
  verdict res = Raise e ->
  spec_pass remote (Some d) (batch :: rest) redo n
  = mkRun (Raise e) (S n) (EGet req res :: complaint req res).
Proof.
  intros req res Hv. cbn [spec_pass]. rewrite bind_assoc.
  unfold bind at 1. rewrite fetch_run. fold req res.
  cbn [result clock trace]. now rewrite Hv.
Qed.

(** The first batch of a pass is answered: its lines are printed, and the
    pass goes on with the batches that remain. *)
Lemma spec_pass_goes_on (d : string) (batch : list string)
  (rest : list (list string)) (redo : list string) (n : nat)
  (p : mapping * list string) :
  let req := revinfo_request d batch in
  let res := remote n req in
  verdict res = Ok p ->
  exists lines,
    trace (display_revinfo (fst p) (S n)) = map EPrint lines
    /\ spec_pass remote (Some d) (batch :: rest) redo n
       = match result (display_revinfo (fst p) (S n)) with
         | Ok _ =>
             match rest with
             | [] => mkRun (Ok (redo ++ snd p)) (S n)
                           (EGet req res :: map EPrint lines)
             | _ =>
                 let r := spec_pass remote (Some d) rest (redo ++ snd p) (S n) in
                 mkRun (result r) (clock r)
                   (EGet req res :: map EPrint lines ++ ESleep 5 :: trace r)
             end
         | Raise e => mkRun (Raise e) (S n) (EGet req res :: map EPrint lines)
         | Diverge => mkRun Diverge (S n) (EGet req res :: map EPrint lines)
         end.
Proof.
  intros req res Hv.
  destruct (display_revinfo_run (fst p) (S n)) as (Hc & _ & lines & Ht).
  exists lines; split; [exact Ht |].
  destruct (verdict_ok_status _ _ Hv) as (content & Hres & _).
  cbn [spec_pass]. rewrite bind_assoc.
  unfold bind at 1. rewrite fetch_run. fold req res.
  cbn [result clock trace]. rewrite Hv.
  assert (Hq : complaint req res = []) by (now rewrite Hres).
  rewrite Hq. cbn [app].
  rewrite result_bind, clock_bind, trace_bind, Hc, Ht.
  destruct (result (display_revinfo (fst p) (S n)));
    [| reflexivity | reflexivity].
  destruct rest as [| b rest']; [cbn; now rewrite app_nil_r |].
  cbv beta iota. unfold sleep. rewrite bind_emit. cbn [result clock trace].
  reflexivity.
Qed.


(** Every pass runs as [pass_run] says. *)
Lemma spec_pass_run (d : string) (bs : list (list string)) :
  forall redo n,
    pass_run remote d bs redo n (spec_pass remote (Some d) bs redo n).
Proof.
  induction bs as [| batch rest IH]; intros redo n; [constructor |].
  destruct (verdict (remote n (revinfo_request d batch))) as [p | e |] eqn:Hv.
  - destruct (spec_pass_goes_on d batch rest redo n p Hv) as (lines & Ht & ->).
    destruct (display_revinfo_run (fst p) (S n)) as (_ & Hr & _).
    destruct (result (display_revinfo (fst p) (S n))) as [[] | e |];
      [| now apply pass_print_fails with (p := p) | congruence].
    destruct rest as [| b rest'].
    + pose proof (pass_turn remote d batch [] redo n p lines _ Hv
                    (pass_over remote d _ _)) as H.
      cbn [result clock trace app] in H. now rewrite app_nil_r in H.
    + apply (pass_turn remote d batch (b :: rest') redo n p lines _ Hv (IH _ _)).
  - rewrite (spec_pass_fails d batch rest redo n e Hv). now constructor.
  - now destruct (verdict_not_diverge _ Hv).
Qed.

(** A pass always ends. *)
Lemma pass_run_ends d bs redo n r :
  pass_run remote d bs redo n r -> result r <> Diverge.
Proof. induction 1; cbn [result]; try discriminate; assumption. Qed.

(** The requests of a pass are those of its batches, in order, up to the
    batch at which it fails, and of all batches when it returns. *)
Lemma pass_run_requests d bs redo n r :
  pass_run remote d bs redo n r ->
  exists sent rest,
    bs = sent ++ rest
    /\ requests (trace r) = map (revinfo_request d) sent
    /\ (forall redo', result r = Ok redo' -> rest = []).
Proof.
  assert (Hp : forall lines, requests (map EPrint lines) = []).
  { induction lines; [reflexivity | assumption]. }
  induction 1 as [redo n | batch rest redo n e req res Hv
                  | batch rest redo n p lines e req res Hv
                  | batch rest redo n p lines r req res Hv Hrun IH];
    cbn [result trace].
  - exists [], []. repeat split; auto.
  - exists [batch], rest. repeat split; [| discriminate].
    cbn [requests flat_map]. fold (requests (complaint req res)).
    replace (requests (complaint req res)) with (@nil request); [reflexivity |].
    unfold complaint. destruct res as [s c |]; [destruct (s =? 200) |]; reflexivity.
  - exists [batch], rest. repeat split; [| discriminate].
    cbn [requests flat_map]. fold (requests (map EPrint lines)).
    now rewrite Hp.
  - destruct IH as (sent & todo & -> & Hreq & Hdone).
    exists (batch :: sent), todo. repeat split; [| exact Hdone].
    cbn [requests flat_map]. fold (requests (map EPrint lines ++
      match sent ++ todo with [] => [] | _ => [ESleep 5] end ++ trace r)).
    rewrite !requests_app, Hp, Hreq.
    now destruct (sent ++ todo).
Qed.

(** Every request of a pass is a batch request for one of its batches,
    answered by the remote service. *)
Lemma pass_run_gets d bs redo n r :
  pass_run remote d bs redo n r ->
  forall req res, In (EGet req res) (trace r) ->
    exists batch k, In batch bs /\ req = revinfo_request d batch
                    /\ res = remote k req.
Proof.
  assert (Hp : forall lines req res, ~ In (EGet req res) (map EPrint lines)).
  { intros lines req res H. apply in_map_iff in H as (x & Hx & _). discriminate. }
  assert (Hc : forall req0 res0 req res, ~ In (EGet req res) (complaint req0 res0)).
  { intros req0 res0 req res. unfold complaint.
    destruct res0 as [s c |]; [destruct (s =? 200) |]; cbn;
      intuition discriminate. }
  induction 1 as [redo n | batch rest redo n e req res Hv
                  | batch rest redo n p lines e req res Hv
                  | batch rest redo n p lines r req res Hv Hrun IH];
    cbn [trace]; intros req' res' Hin.
  - destruct Hin.
  - destruct Hin as [Heq | Hin]; [| now destruct (Hc _ _ _ _ Hin)].
    injection Heq as <- <-. exists batch, n. repeat split. now left.
  - destruct Hin as [Heq | Hin]; [| now destruct (Hp _ _ _ Hin)].
    injection Heq as <- <-. exists batch, n. repeat split. now left.
  - destruct Hin as [Heq | Hin].
    + injection Heq as <- <-. exists batch, n. repeat split. now left.
    + apply in_app_or in Hin as [Hin | Hin]; [now destruct (Hp _ _ _ Hin) |].
      apply in_app_or in Hin as [Hin | Hin].
      * destruct rest; [destruct Hin |]. destruct Hin as [Hin | []]. discriminate.
      * destruct (IH _ _ Hin) as (b & k & Hb & Hreq & Hres).
        exists b, k. repeat split; [now right | exact Hreq | exact Hres].
Qed.

(** An answer on which the verdict is an exception ends the pass with that
    exception. *)
Lemma pass_run_fatal d bs redo n r :
  pass_run remote d bs redo n r ->
  forall req res e, In (EGet req res) (trace r) -> verdict res = Raise e ->
    result r = Raise e.
Proof.
  assert (Hp : forall lines req res, ~ In (EGet req res) (map EPrint lines)).
  { intros lines req res H. apply in_map_iff in H as (x & Hx & _). discriminate. }
  assert (Hc : forall req0 res0 req res, ~ In (EGet req res) (complaint req0 res0)).
  { intros req0 res0 req res. unfold complaint.
    destruct res0 as [s c |]; [destruct (s =? 200) |]; cbn;
      intuition discriminate. }
  induction 1 as [redo n | batch rest redo n e req res Hv
                  | batch rest redo n p lines e req res Hv
                  | batch rest redo n p lines r req res Hv Hrun IH];
    cbn [trace result]; intros req' res' e' Hin Hbad.
  - destruct Hin.
  - destruct Hin as [Heq | Hin]; [| now destruct (Hc _ _ _ _ Hin)].
    injection Heq as <- <-. congruence.
  - destruct Hin as [Heq | Hin]; [| now destruct (Hp _ _ _ Hin)].
    injection Heq as <- <-. congruence.
  - destruct Hin as [Heq | Hin]; [injection Heq as <- <-; congruence |].
    apply in_app_or in Hin as [Hin | Hin]; [now destruct (Hp _ _ _ Hin) |].
    apply in_app_or in Hin as [Hin | Hin]; [| now apply (IH _ _ _ Hin)].
    destruct rest; [destruct Hin |]. destruct Hin as [Hin | []]. discriminate.
Qed.

(** The redo list a pass returns: what it started with, then ids that the
    answer to one of its batches listed as bad. *)
Lemma pass_run_redo d bs redo n r :
  pass_run remote d bs redo n r ->
  forall redo', result r = Ok redo' ->
    exists more, redo' = redo ++ more
      /\ forall s, In s more ->
           exists batch k p, In batch bs
             /\ verdict (remote k (revinfo_request d batch)) = Ok p
             /\ In s (snd p).
Proof.
  induction 1 as [redo n | batch rest redo n e req res Hv
                  | batch rest redo n p lines e req res Hv
                  | batch rest redo n p lines r req res Hv Hrun IH];
    cbn [result]; intros redo' Hres; try discriminate.
  - injection Hres as <-. exists []. split; [now rewrite app_nil_r | intros s []].
  - destruct (IH _ Hres) as (more & -> & Hmore).
    exists (snd p ++ more). split; [now rewrite app_assoc |].
    intros s Hs. apply in_app_or in Hs as [Hs | Hs].
    + exists batch, n, p. repeat split; [now left | exact Hv | exact Hs].
    + destruct (Hmore s Hs) as (b & k & q & Hb & Hq & Hin).
      exists b, k, q. repeat split; [now right | exact Hq | exact Hin].
Qed.


(** *** Batches *)

Lemma batches_upto_enough {A} (size : nat) : forall b1 b2 (l : list A),
  (List.length l <= b1)%nat -> (List.length l <= b2)%nat -> (0 < size)%nat ->
  batches_upto b1 size l = batches_upto b2 size l.
Proof.
  induction b1 as [| b1 IH]; intros b2 l H1 H2 Hs.
  - destruct l; [now destruct b2 | cbn in H1; lia].
  - destruct l as [| x l]; [now destruct b2 |].
    destruct b2 as [| b2]; [cbn in H2; lia |].
    cbn [batches_upto]. f_equal.
    assert (Hlen : (List.length (skipn size (x :: l)) < List.length (x :: l))%nat).
    { rewrite length_skipn. cbn [List.length]. lia. }
    apply IH; [cbn [List.length] in *; lia .. | exact Hs].
Qed.

(** The batches of a list that is not empty: its first ten elements, then
    the batches of the rest. *)
Lemma batches_cons {A} (l : list A) :
  l <> [] -> batches l = firstn 10 l :: batches (skipn 10 l).
Proof.
  intros Hl. unfold batches. destruct l as [| x l]; [congruence |].
  cbn [List.length batches_upto]. f_equal.
  apply batches_upto_enough; rewrite ?length_skipn; cbn [List.length]; lia.
Qed.

Lemma batches_nil {A} : batches (@nil A) = [].
Proof. reflexivity. Qed.

(** Induction on a list ten elements at a time. *)
Lemma by_tens {A} (P : list A -> Prop) :
  P [] -> (forall l, l <> [] -> P (skipn 10 l) -> P l) -> forall l, P l.
Proof.
  intros Hnil Hstep l.
  assert (H : forall k (l : list A), (List.length l <= k)%nat -> P l).
  { induction k as [| k IH]; intros l' Hk.
    - destruct l'; [exact Hnil | cbn in Hk; lia].
    - destruct l' as [| x l'']; [exact Hnil |].
      apply Hstep; [discriminate |]. apply IH.
      rewrite length_skipn. cbn [List.length] in *. lia. }
  now apply (H (List.length l)).
Qed.

(** The batches are consecutive pieces of the list, in order. *)
Lemma concat_batches {A} (l : list A) : List.concat (batches l) = l.
Proof.
  induction l as [| l Hl IH] using by_tens; [reflexivity |].
  rewrite (batches_cons l Hl). cbn [List.concat]. rewrite IH.
  apply firstn_skipn.
Qed.

(** Every batch has between one and ten elements. *)
Lemma batches_sizes {A} (l : list A) :
  Forall (fun b => (1 <= List.length b <= 10)%nat) (batches l).
Proof.
  induction l as [| l Hl IH] using by_tens; [constructor |].
  rewrite (batches_cons l Hl). constructor; [| exact IH].
  rewrite length_firstn. destruct l; [congruence | cbn [List.length]; lia].
Qed.

(** Every batch but the last has exactly ten elements. *)
Lemma batches_full {A} (l : list A) :
  forall (front : list (list A)) (b : list A) (back : list (list A)),
    batches l = front ++ b :: back -> back <> [] -> List.length b = 10%nat.
Proof.
  induction l as [| l Hl IH] using by_tens; intros front b back H Hback.
  - destruct front; discriminate.
  - rewrite (batches_cons l Hl) in H. destruct front as [| f front].
    + cbn [app] in H.
      assert (Hb : firstn 10 l = b) by congruence.
      assert (Hrest : batches (skipn 10 l) = back) by congruence.
      rewrite <- Hb, length_firstn.
      assert (Hs : List.length (skipn 10 l) <> 0%nat).
      { destruct (skipn 10 l); [| discriminate].
        rewrite batches_nil in Hrest. congruence. }
      rewrite length_skipn in Hs. lia.
    + cbn [app] in H.
      assert (Hrest : batches (skipn 10 l) = front ++ b :: back) by congruence.
      now apply (IH front b back).
Qed.

Lemma batches_map {A B} (f : A -> B) (l : list A) :
  batches (map f l) = map (map f) (batches l).
Proof.
  induction l as [| l Hl IH] using by_tens; [reflexivity |].
  rewrite (batches_cons l Hl), batches_cons.
  - rewrite firstn_map, skipn_map, IH. reflexivity.
  - destruct l; [congruence | discriminate].
Qed.

(** *** [do_revrange] is a pass over the batches of its list *)

Lemma revrange_loop_spec {A} `{Str A} (domain : option string) :
  forall (turns : nat) (revrange : list A) (redo : list string) (n : nat),
    revrange <> [] -> (List.length revrange < turns)%nat ->
    revrange_loop remote turns domain redo (map str (firstn 10 revrange))
      revrange n
    = spec_pass remote domain (batches (map str revrange)) redo n.
Proof.
  induction turns as [| turns IH]; intros revrange redo n Hne Hlen; [lia |].
  rewrite batches_cons by (destruct revrange; [congruence | discriminate]).
  cbn [revrange_loop spec_pass]. rewrite firstn_map.
  apply bind_ext; intros r m. apply bind_ext; intros p m'.
  apply bind_ext; intros [] m''.
  rewrite skipn_map.
  destruct (skipn 10 revrange) as [| x rest] eqn:Hs; [reflexivity |].
  assert (Hb : batches (map str (x :: rest)) <> []).
  { rewrite batches_cons by discriminate. discriminate. }
  destruct (batches (map str (x :: rest))) as [| b bs] eqn:Hbs; [congruence |].
  replace (map str (firstn 10 (x :: rest))) with (str x :: map str (firstn 9 rest))
    by reflexivity.
  cbv iota. apply bind_ext; intros [] m3.
  change (str x :: map str (firstn 9 rest)) with (map str (firstn 10 (x :: rest))).
  rewrite <- Hbs. apply IH; [discriminate |].
  rewrite <- Hs, length_skipn.
  assert (List.length (skipn 10 revrange) <> 0%nat) by (rewrite Hs; discriminate).
  rewrite length_skipn in *. lia.
Qed.

(** [do_revrange] makes one pass over the batches of the ids it is given. *)
Lemma do_revrange_spec {A} `{Str A} (revrange : list A)
  (domain : option string) (n : nat) :
  do_revrange remote revrange domain n
  = spec_pass remote domain (batches (map str revrange)) [] n.
Proof.
  unfold do_revrange. destruct revrange as [| x l]; [reflexivity |].
  replace (map str (firstn 10 (x :: l))) with (str x :: map str (firstn 9 l))
    by reflexivity.
  cbv iota.
  change (str x :: map str (firstn 9 l)) with (map str (firstn 10 (x :: l))).
  apply revrange_loop_spec; [discriminate | lia].
Qed.


(** *** The retry loop *)

Lemma retry_nil (passes : nat) (domain : option string) (n : nat) :
  retry remote passes [] domain n = mkRun (Ok tt) n [].
Proof. now destruct passes. Qed.


(** [next_ids] gives each id its successor, and raises [ValueError] when one
    of them is not a number. *)
Lemma next_ids_spec (redo : list string) :
  match next_ids redo with
  | Ok ids => Forall2 (fun rev id => successor rev = Some id) redo ids
  | Raise e => e = ValueError /\ exists rev, In rev redo /\ int_of_str rev = None
  | Diverge => False
  end.
Proof.
  induction redo as [| rev rest IH]; cbn [next_ids]; [constructor |].
  cbn [int]. unfold successor.
  destruct (int_of_str rev) as [z |] eqn:Hz; cbn [obind].
  - destruct (next_ids rest) as [ids | e |]; cbn [obind].
    + constructor; [now rewrite Hz | exact IH].
    + destruct IH as (-> & r & Hin & Hr). split; [reflexivity |].
      exists r. split; [now right | exact Hr].
    + exact IH.
  - split; [reflexivity |]. exists rev. split; [now left | exact Hz].
Qed.


(** The retry loop, pass by pass, at a domain that is a string. *)
Lemma retry_run (d : string) (passes : nat) (redo : list string) (n : nat) :
  redo <> [] ->
  retry remote (S passes) redo (Some d) n
  = match next_ids redo with
    | Ok ids =>
        let r := spec_pass remote (Some d) (batches ids) [] n in
        match result r with
        | Ok redo' =>
            let r' := retry remote passes redo' (Some d) (clock r) in
            mkRun (result r') (clock r') (trace r ++ trace r')
        | Raise e => mkRun (Raise e) (clock r) (trace r)
        | Diverge => mkRun Diverge (clock r) (trace r)
        end
    | Raise e => mkRun (Raise e) n []
    | Diverge => mkRun Diverge n []
    end.
Proof.
  intros Hne. destruct redo as [| rev rest]; [congruence |].
  cbn [retry]. destruct (next_ids (rev :: rest)) as [ids | e |];
    [| reflexivity | reflexivity].
  rewrite bind_lift_ok. unfold bind.
  rewrite do_revrange_spec. unfold str, Str_string. now rewrite map_id.
Qed.

(** In the retry loop too, an answer on which the verdict is an exception
    ends the run with it, and every request is a batch request. *)
Lemma retry_fatal (d : string) (passes : nat) :
  forall (redo : list string) (n : nat) req res,
    In (EGet req res) (trace (retry remote passes redo (Some d) n)) ->
    is_revinfo_request req = true
    /\ forall e, verdict res = Raise e ->
         result (retry remote passes redo (Some d) n) = Raise e.
Proof.
  induction passes as [| passes IH]; intros redo n req res.
  - destruct redo; intros [].
  - destruct redo as [| rev rest]; [intros [] |].
    rewrite retry_run by discriminate.
    destruct (next_ids (rev :: rest)) as [ids | e |]; [| intros [] | intros []].
    pose proof (spec_pass_run d (batches ids) [] n) as Hrun.
    cbv zeta.
    destruct (result (spec_pass remote (Some d) (batches ids) [] n))
      as [redo' | e |] eqn:Hres; cbn [trace result]; intros Hin.
    + apply in_app_or in Hin as [Hin | Hin].
      * destruct (pass_run_gets _ _ _ _ _ Hrun _ _ Hin) as (b & k & _ & -> & _).
        split; [reflexivity |]. intros e He.
        pose proof (pass_run_fatal _ _ _ _ _ Hrun _ _ _ Hin He). congruence.
      * apply (IH _ _ _ _ Hin).
    + destruct (pass_run_gets _ _ _ _ _ Hrun _ _ Hin) as (b & k & _ & -> & _).
      split; [reflexivity |]. intros e' He.
      pose proof (pass_run_fatal _ _ _ _ _ Hrun _ _ _ Hin He). congruence.
    + now destruct (pass_run_ends _ _ _ _ _ Hrun).
Qed.

(** More passes allowed do not change a run that ended. *)
Lemma retry_more (d : string) (passes : nat) :
  forall (redo : list string) (n : nat),
    result (retry remote passes redo (Some d) n) <> Diverge ->
    retry remote (S passes) redo (Some d) n = retry remote passes redo (Some d) n.
Proof.
  induction passes as [| passes IH]; intros redo n Hend.
  - destruct redo; [reflexivity | now destruct Hend].
  - destruct redo as [| rev rest]; [reflexivity |].
    rewrite (retry_run d (S passes)) by discriminate.
    rewrite (retry_run d passes) in Hend |- * by discriminate.
    destruct (next_ids (rev :: rest)) as [ids | e |]; [| reflexivity ..].
    cbv zeta in Hend |- *.
    destruct (result (spec_pass remote (Some d) (batches ids) [] n))
      as [redo' | e |]; [| reflexivity ..].
    cbn [result] in Hend. now rewrite IH.
Qed.

Lemma retry_enough (d : string) (passes more : nat) (redo : list string)
  (n : nat) :
  result (retry remote passes redo (Some d) n) <> Diverge ->
  retry remote (more + passes) redo (Some d) n
  = retry remote passes redo (Some d) n.
Proof.
  intros Hend. induction more as [| more IH]; [reflexivity |].
  cbn [Nat.add]. rewrite retry_more; [exact IH | now rewrite IH].
Qed.


(** *** The maximum-revision lookup *)

Lemma get_max_rev_run (d : string) (n : nat) :
  let req := maxrev_request d in
  let res := remote n req in
  get_max_rev remote (Some d) n
  = match res with
    | NoResponse => mkRun (Raise RequestException) (S n) [EGet req res]
    | Response status_code content =>
        if status_code =? 200
        then mkRun (Ok (get_revid_from_json content)) (S n) [EGet req res]
        else mkRun (Ok PNone) (S n) [EGet req res; EStderr (failed_message req)]
    end.
Proof.
  intros req res. unfold get_max_rev.
  change (get_maxrev_url (Some d)) with (Ok req). rewrite bind_lift_ok.
  unfold bind at 1. unfold sess_get. fold res.
  destruct res as [status_code content |]; cbn [result clock trace]; [| reflexivity].
  cbn [fst snd]. now destruct (status_code =? 200).
Qed.

End PassFacts.

(** *** The command line *)

Lemma usage_run {A} (message : string) (n : nat) :
  message <> EmptyString ->
  @usage A (Some message) n
  = mkRun (Raise (SystemExit 1)) n
      [EStderr (message ++ newline)%string; EStderr usage_message].
Proof.
  intros Hm. unfold usage.
  destruct (String.eqb_spec message ""); [congruence | reflexivity].
Qed.

Lemma usage_exits {A} (message : string) (n : nat) :
  message <> EmptyString -> usage_exit (@usage A (Some message) n) n.
Proof.
  intros Hm. rewrite (usage_run message n Hm).
  repeat split. now exists (message ++ newline)%string.
Qed.

Lemma usage_exit_bind {A B} (c : M A) (k : A -> M B) (n : nat) :
  usage_exit (c n) n -> usage_exit (bind c k n) n.
Proof.
  intros (Hr & Hc & m & Ht). unfold usage_exit.
  now rewrite result_bind, clock_bind, trace_bind, Hr, Hc, Ht; eauto.
Qed.

(** Decide an option name against the names the script knows: either it is
    one of them, and everything computes, or it is none of them. *)
Ltac name_cases opt :=
  repeat match goal with
         | |- context [String.eqb opt ?s] =>
             destruct (String.eqb_spec opt s) as [-> | ?]
         end.

(** The options loop: it ends in [usage] when an option is not a setting or
    a flag, and configures [a] otherwise. *)
Lemma set_opts_run (options : list (string * string)) :
  forall (a : args) (n : nat),
    (forallb recognized options = false /\ usage_exit (set_opts options a n) n)
    \/ (forallb recognized options = true
        /\ set_opts options a n = mkRun (Ok (configured options a)) n []).
Proof.
  induction options as [| [opt val] rest IH]; intros a n.
  - right. split; [reflexivity |]. now destruct a.
  - cbn [forallb set_opts]. unfold recognized at 1.
    unfold known_options, one_of. cbn [existsb fst].
    name_cases opt; cbn [orb andb negb String.eqb Ascii.eqb Bool.eqb];
      try (left; split; [reflexivity |]; apply usage_exits; discriminate);
      match goal with
      | |- context [set_opts rest ?a'] =>
          replace (configured ((_, val) :: rest) a) with (configured rest a');
          [apply IH |]
      end.
    all: unfold configured, given_domain, given_end, is_dryrun, is_verbose, one_of.
    all: cbn [last_given existsb fst one_of domain start_rev end_rev dryrun verbose].
    all: unfold one_of; cbn [existsb String.eqb Ascii.eqb Bool.eqb orb].
    all: repeat match goal with
                | |- context [last_given ?ns ?r] => destruct (last_given ns r)
                end.
    all: rewrite ?orb_true_r; reflexivity.
Qed.

Lemma usage_any_run {A} (message : option string) (n : nat) :
  result (@usage A message n) = Raise (SystemExit 1)
  /\ clock (@usage A message n) = n.
Proof.
  unfold usage. destruct message as [m |]; [destruct (String.eqb m "") |];
    now split.
Qed.

Lemma usage_no_request {A} (message : option string) (n : nat) :
  requests (trace (@usage A message n)) = [].
Proof.
  unfold usage. destruct message as [m |]; [destruct (String.eqb m "") |];
    reflexivity.
Qed.

Lemma bind_usage {A B} (message : option string) (k : A -> M B) (n : nat) :
  bind (@usage A message) k n = @usage B message n.
Proof.
  unfold usage. destruct message as [m |]; [destruct (String.eqb m "") |];
    reflexivity.
Qed.

Section OptsFacts.
Variable remote : nat -> request -> http_result.

(** [check_opts], check by check. *)
Lemma check_opts_run (a : args) (n : nat) :
  check_opts remote a n
  = if negb (domain_truthy (domain a)) then
      usage (Some "The argument 'domain' must be specified and may not be empty.") n
    else if negb (isdigit (start_rev a)) then
      usage (Some "The 'startrev' argument must be a number.") n
    else if truthy (end_rev a) then
      match isdigit_method (end_rev a) with
      | Ok true => mkRun (Ok a) n []
      | Ok false => usage (Some "The 'endrev' argument must be a number.") n
      | Raise e => mkRun (Raise e) n []
      | Diverge => mkRun Diverge n []
      end
    else
      bind (get_max_rev remote (domain a)) (fun revid => ret (with_end a revid)) n.
Proof.
  unfold check_opts, when.
  destruct (domain_truthy (domain a)); cbn [negb]; [| apply bind_usage].
  rewrite bind_ret.
  destruct (isdigit (start_rev a)); cbn [negb]; [| apply bind_usage].
  rewrite bind_ret.
  destruct (truthy (end_rev a)); cbn [negb].
  - destruct (isdigit_method (end_rev a)) as [[] | e |]; cbn [obind negb].
    + rewrite bind_lift_ok, bind_ret. reflexivity.
    + rewrite bind_lift_ok. apply bind_usage.
    + reflexivity.
    + reflexivity.
  - rewrite bind_lift_ok, bind_ret. reflexivity.
Qed.

Lemma settings_fields (options : list (string * string)) :
  domain (settings options) = given_domain options
  /\ start_rev (settings options) = given_start options
  /\ end_rev (settings options)
     = match given_end options with Some e => PStr e | None => PNone end.
Proof.
  unfold settings, configured, given_start. cbn [domain start_rev end_rev].
  repeat split. now destruct (given_domain options).
Qed.

(** [process_opts]: it ends in [usage], or the options are all recognized,
    nothing is left over, and [check_opts] runs on the configuration they
    make. *)
Lemma process_opts_run (argv : cmdline) (n : nat) :
  match argv with
  | GetoptError _ => usage_exit (process_opts remote argv n) n
  | Parsed options remainder =>
      if forallb recognized options
      then match remainder with
           | [] => process_opts remote argv n
                   = check_opts remote (settings options) n
           | _ => usage_exit (process_opts remote argv n) n
           end
      else usage_exit (process_opts remote argv n) n
  end.
Proof.
  destruct argv as [err | options remainder]; cbn [process_opts].
  - apply usage_exits. discriminate.
  - destruct (set_opts_run options get_default_opts n) as [[-> Hx] | [-> Hs]].
    + now apply usage_exit_bind.
    + rewrite (bind_silent _ _ _ _ _ Hs).
      destruct remainder as [| opt rest].
      * now rewrite bind_ret.
      * rewrite bind_usage. apply usage_exits. discriminate.
Qed.

(** A command line that is refused ends in [usage], whatever the service. *)
Lemma process_opts_refused (argv : cmdline) (n : nat) :
  refused argv = true -> usage_exit (process_opts remote argv n) n.
Proof.
  intros Href. pose proof (process_opts_run argv n) as H.
  destruct argv as [err | options remainder]; [exact H |].
  cbn [refused] in Href.
  destruct (forallb recognized options); [| exact H].
  destruct remainder as [| opt rest]; [| exact H].
  cbn [negb orb] in Href. rewrite H, check_opts_run.
  destruct (settings_fields options) as (-> & -> & ->).
  destruct (domain_truthy (given_domain options)); cbn [negb orb] in *;
    [| apply usage_exits; discriminate].
  destruct (isdigit (given_start options)); cbn [negb orb] in *;
    [| apply usage_exits; discriminate].
  destruct (given_end options) as [e |]; [| discriminate].
  cbn [truthy isdigit_method]. apply andb_true_iff in Href as [-> He].
  apply negb_true_iff in He. rewrite He.
  apply usage_exits. discriminate.
Qed.


(** *** The whole run *)

Lemma do_main_after_opts (passes : nat) (argv : cmdline) (n : nat) :
  do_main remote passes argv n
  = bind (process_opts remote argv) (after_opts remote passes) n.
Proof. reflexivity. Qed.

Lemma domain_truthy_some (o : option string) :
  domain_truthy o = true -> exists d, o = Some d /\ d <> EmptyString.
Proof.
  destruct o as [d |]; [| discriminate]. cbn. intros H. exists d. split; [reflexivity |].
  intros ->. discriminate.
Qed.

(** What [process_opts] leaves behind when it returns: a domain that is a
    string, a start revision made of digits, and at most one request, the
    maximum-revision lookup. *)
Lemma process_opts_returns (argv : cmdline) (n : nat) (a : args) :
  result (process_opts remote argv n) = Ok a ->
  exists options d,
    argv = Parsed options []
    /\ domain a = Some d /\ d <> EmptyString
    /\ given_domain options = Some d
    /\ start_rev a = given_start options
    /\ isdigit (start_rev a) = true
    /\ ((exists e, given_end options = Some e /\ e <> EmptyString
                   /\ isdigit e = true /\ end_rev a = PStr e
                   /\ process_opts remote argv n = mkRun (Ok a) n [])
        \/ ((given_end options = None \/ given_end options = Some EmptyString)
            /\ result (get_max_rev remote (Some d) n) = Ok (end_rev a)
            /\ clock (process_opts remote argv n) = S n
            /\ trace (process_opts remote argv n)
               = trace (get_max_rev remote (Some d) n))).
Proof.
  intros Hok. pose proof (process_opts_run argv n) as H.
  assert (Hexit : usage_exit (process_opts remote argv n) n -> False).
  { intros (Hr & _). congruence. }
  destruct argv as [err | options remainder]; [now destruct Hexit |].
  destruct (forallb recognized options); [| now destruct Hexit].
  destruct remainder as [| opt rest]; [| now destruct Hexit].
  rewrite H in Hok |- *. clear H Hexit. rewrite check_opts_run in Hok |- *.
  destruct (settings_fields options) as (Hd & Hs & He).
  destruct (domain_truthy (domain (settings options))) eqn:Hdom; cbn [negb] in *;
    [| now destruct (usage_any_run (A := args) (Some "The argument 'domain' must be specified and may not be empty.") n) as [E _]; congruence].
  destruct (isdigit (start_rev (settings options))) eqn:Hstart; cbn [negb] in *;
    [| now destruct (usage_any_run (A := args) (Some "The 'startrev' argument must be a number.") n) as [E _]; congruence].
  destruct (domain_truthy_some _ Hdom) as (d & Hsome & Hne).
  exists options, d.
  rewrite He in Hok |- *. destruct (given_end options) as [e |] eqn:Hend.
  - cbn [truthy isdigit_method] in Hok |- *.
    destruct (String.eqb_spec e "") as [-> | Hnz]; cbn [negb] in Hok |- *.
    + rewrite Hsome in Hok |- *.
      rewrite result_bind in Hok. rewrite clock_bind, trace_bind.
      pose proof (get_max_rev_run remote d n) as Hrun. cbv zeta in Hrun.
      destruct (result (get_max_rev remote (Some d) n)) as [revid | |] eqn:Hres;
        try discriminate.
      cbn [ret result clock trace] in Hok |- *. injection Hok as <-.
      cbn [with_end domain start_rev end_rev].
      rewrite app_nil_r. repeat split; try assumption; try congruence.
      right. repeat split; [now right |].
      rewrite Hrun. rewrite Hrun in Hres.
      destruct (remote n (maxrev_request d)) as [s c |]; [| discriminate].
      now destruct (s =? 200).
    + destruct (isdigit e) eqn:Hdig.
      * cbn [result] in Hok. injection Hok as <-.
        repeat split; try assumption; try congruence.
        left. exists e. repeat split; assumption.
      * destruct (usage_any_run (A := args) (Some "The 'endrev' argument must be a number.") n) as [E _]; congruence.
  - cbn [truthy negb] in Hok |- *. rewrite Hsome in Hok |- *.
    rewrite result_bind in Hok. rewrite clock_bind, trace_bind.
    pose proof (get_max_rev_run remote d n) as Hrun. cbv zeta in Hrun.
    destruct (result (get_max_rev remote (Some d) n)) as [revid | |] eqn:Hres;
      try discriminate.
    cbn [ret result clock trace] in Hok |- *. injection Hok as <-.
    cbn [with_end domain start_rev end_rev].
    rewrite app_nil_r. repeat split; try assumption; try congruence.
    right. repeat split; [now left |].
    rewrite Hrun. rewrite Hrun in Hres.
    destruct (remote n (maxrev_request d)) as [s c |]; [| discriminate].
    now destruct (s =? 200).
Qed.


(** The requests [process_opts] makes: none, or the maximum-revision lookup
    alone. *)
Lemma process_opts_requests (argv : cmdline) (n : nat) :
  requests (trace (process_opts remote argv n)) = []
  \/ exists d, requests (trace (process_opts remote argv n)) = [maxrev_request d].
Proof.
  pose proof (process_opts_run argv n) as H.
  assert (Hexit : usage_exit (process_opts remote argv n) n ->
                  requests (trace (process_opts remote argv n)) = []).
  { intros (_ & _ & m & ->). reflexivity. }
  destruct argv as [err | options remainder]; [left; now apply Hexit |].
  destruct (forallb recognized options); [| left; now apply Hexit].
  destruct remainder as [| opt rest]; [| left; now apply Hexit].
  rewrite H, check_opts_run. clear H Hexit.
  destruct (domain_truthy (domain (settings options))) eqn:Hdom; cbn [negb];
    [| left; apply usage_no_request].
  destruct (isdigit (start_rev (settings options))); cbn [negb];
    [| left; apply usage_no_request].
  destruct (domain_truthy_some _ Hdom) as (d & -> & _).
  destruct (truthy (end_rev (settings options))).
  - left. destruct (isdigit_method (end_rev (settings options))) as [[] | e |];
      first [reflexivity | apply usage_no_request].
  - right. exists d. rewrite trace_bind, get_max_rev_run.
    destruct (remote n (maxrev_request d)) as [s c |]; [| reflexivity].
    destruct (s =? 200); reflexivity.
Qed.

Lemma in_requests (t : list event) (req : request) (res : http_result) :
  In (EGet req res) t -> In req (requests t).
Proof.
  intros H. unfold requests. apply in_flat_map.
  exists (EGet req res). split; [exact H | now left].
Qed.

(** What [do_main] does after [process_opts], at a domain that is a string
    and a start revision [int] accepts. *)
Lemma after_opts_run (passes : nat) (a : args) (d : string) (start : Z)
  (n : nat) :
  domain a = Some d -> int (PStr (start_rev a)) = Ok start ->
  after_opts remote passes a n
  = let said := if verbose a then [EVerbose a] else [] in
    match int (end_rev a) with
    | Ok stop =>
        let ids := map str_of_Z (range start stop 10000000) in
        let r := spec_pass remote (Some d) (batches ids) [] n in
        match result r with
        | Ok redo =>
            let r' := retry remote passes redo (Some d) (clock r) in
            mkRun (result r') (clock r')
              (said ++ trace r
               ++ match redo with [] => [] | _ => [ESleep 5] end ++ trace r')
        | Raise e => mkRun (Raise e) (clock r) (said ++ trace r)
        | Diverge => mkRun Diverge (clock r) (said ++ trace r)
        end
    | Raise e => mkRun (Raise e) n said
    | Diverge => mkRun Diverge n said
    end.
Proof.
  intros Hd Hs. unfold after_opts, candidates. rewrite Hd, Hs. cbn [obind].
  assert (Hwhen : forall (k : unit -> M unit),
    bind (when (verbose a) (emit (EVerbose a))) k n
    = mkRun (result (k tt n)) (clock (k tt n))
        ((if verbose a then [EVerbose a] else []) ++ trace (k tt n))).
  { intros k. unfold when. destruct (verbose a); [apply bind_emit |].
    rewrite bind_ret. cbn [app]. now rewrite run_eta. }
  rewrite Hwhen. clear Hwhen.
  destruct (int (end_rev a)) as [stop | e |]; cbn [obind];
    [| rewrite bind_lift_raise; cbn; now rewrite app_nil_r
     | rewrite bind_lift_diverge; cbn; now rewrite app_nil_r].
  rewrite bind_lift_ok. cbv zeta.
  rewrite result_bind, clock_bind, trace_bind, do_revrange_spec.
  change (map str (range start stop 10000000))
    with (map str_of_Z (range start stop 10000000)).
  destruct (result (spec_pass remote (Some d)
              (batches (map str_of_Z (range start stop 10000000))) [] n))
    as [redo | e |]; [| reflexivity | reflexivity].
  destruct redo as [| rev rest]; unfold when.
  - rewrite bind_ret. reflexivity.
  - unfold sleep. rewrite bind_emit. reflexivity.
Qed.

(** A start revision [int] does not accept ends the run before any
    request. *)
Lemma after_opts_stops (passes : nat) (a : args) (e : exn) (n : nat) :
  int (PStr (start_rev a)) = Raise e ->
  after_opts remote passes a n
  = mkRun (Raise e) n (if verbose a then [EVerbose a] else []).
Proof.
  intros Hs. unfold after_opts, candidates, when. rewrite Hs. cbn [obind].
  destruct (verbose a).
  - rewrite bind_emit, bind_lift_raise. reflexivity.
  - rewrite bind_ret, bind_lift_raise. reflexivity.
Qed.

(** After [process_opts], every request is a batch request, and an answer on
    which the verdict is an exception ends the run with it. *)
Lemma after_opts_fatal (passes : nat) (a : args) (d : string) (n : nat)
  req res :
  domain a = Some d -> isdigit (start_rev a) = true ->
  In (EGet req res) (trace (after_opts remote passes a n)) ->
  is_revinfo_request req = true
  /\ forall e, verdict res = Raise e ->
       result (after_opts remote passes a n) = Raise e.
Proof.
  intros Hd Hdig.
  assert (Hsaid : ~ In (EGet req res) (if verbose a then [EVerbose a] else [])).
  { destruct (verbose a); cbn; intuition discriminate. }
  destruct (PyFacts.int_str_outcome (start_rev a)) as [(start & Hs) | Hs];
    [| rewrite (after_opts_stops passes a _ n Hs); cbn [trace];
       intros H; now destruct Hsaid].
  rewrite (after_opts_run passes a d start n Hd Hs). cbv zeta.
  destruct (int (end_rev a)) as [stop | e |]; cbn [trace result];
    [| intros H; now destruct Hsaid | intros H; now destruct Hsaid].
  set (ids := map str_of_Z (range start stop 10000000)).
  pose proof (spec_pass_run remote d (batches ids) [] n) as Hrun.
  assert (Hpass : In (EGet req res) (trace (spec_pass remote (Some d) (batches ids) [] n)) ->
    is_revinfo_request req = true
    /\ forall e, verdict res = Raise e ->
         result (spec_pass remote (Some d) (batches ids) [] n) = Raise e).
  { intros Hin.
    destruct (pass_run_gets _ _ _ _ _ _ Hrun _ _ Hin) as (b & k & _ & -> & _).
    split; [reflexivity |]. intros e He.
    apply (pass_run_fatal _ _ _ _ _ _ Hrun _ _ _ Hin He). }
  destruct (result (spec_pass remote (Some d) (batches ids) [] n))
    as [redo | e |] eqn:Hres; cbn [trace result]; intros Hin;
    apply in_app_or in Hin as [Hin | Hin]; try (now destruct Hsaid).
  - apply in_app_or in Hin as [Hin | Hin].
    + destruct (Hpass Hin) as [Hrev Hf]. split; [exact Hrev |].
      intros e He. specialize (Hf e He). discriminate.
    + apply in_app_or in Hin as [Hin | Hin].
      * destruct redo; [destruct Hin |]. destruct Hin as [Hin | []]. discriminate.
      * apply (retry_fatal remote d passes _ _ _ _ Hin).
  - destruct (Hpass Hin) as [Hrev Hf]. split; [exact Hrev |].
    intros e' He. specialize (Hf e' He). congruence.
  - now destruct (pass_run_ends _ _ _ _ _ _ Hrun).
Qed.

(** The same for the whole run: the answer to a batch request on which the
    verdict is an exception ends [do_main] with that exception. *)
Lemma do_main_fatal (passes : nat) (argv : cmdline) (n : nat) req res e :
  In (EGet req res) (trace (do_main remote passes argv n)) ->
  is_revinfo_request req = true ->
  verdict res = Raise e ->
  result (do_main remote passes argv n) = Raise e.
Proof.
  rewrite do_main_after_opts, trace_bind, result_bind.
  intros Hin Hrev Hbad.
  assert (Hopts : ~ In (EGet req res) (trace (process_opts remote argv n))).
  { intros H. apply in_requests in H.
    destruct (process_opts_requests argv n) as [E | (d & E)]; rewrite E in H.
    - destruct H.
    - destruct H as [<- | []]. discriminate. }
  destruct (result (process_opts remote argv n)) as [a | e' |] eqn:Hres;
    try (now destruct Hopts).
  apply in_app_or in Hin as [Hin | Hin]; [now destruct Hopts |].
  destruct (process_opts_returns argv n a Hres)
    as (options & d & _ & Hd & _ & _ & _ & Hdig & _).
  now apply (after_opts_fatal passes a d _ req res Hd Hdig Hin).
Qed.

End OptsFacts.

End ScriptFacts.

(** ** The properties *)

Module Claims.
Import Py Script Spec ScriptFacts.

Local Open Scope list_scope.

Lemma contains_dict (k : string) (q : list (string * pyval)) :
  contains k (PDict q)
  = Ok (match lookup k q with Some _ => true | None => false end).
Proof.
  cbn [contains]. f_equal. induction q as [| [k' v] q IH]; [reflexivity |].
  cbn [existsb lookup fst]. destruct (String.eqb k' k); [reflexivity | exact IH].
Qed.

(** What [get_revinfo_from_json] makes of an answer whose [query] is an
    object without [pages]: the bare empty dict, or [None] when [badrevids]
    is there and is no object. *)
Lemma no_pages_result (v : pyval) (q : list (string * pyval)) :
  item v "query" = Ok (PDict q) -> lookup "pages" q = None ->
  get_revinfo_from_json (Some v)
  = match lookup "badrevids" q with
    | Some (PDict _) | None => REmptyDict
    | Some _ => RNone
    end.
Proof.
  intros Hq Hp. unfold get_revinfo_from_json. cbn [json_loads obind].
  rewrite !Hq. cbn [obind]. rewrite !contains_dict, Hp. cbn [obind negb].
  unfold item at 1. cbn [getitem].
  destruct (lookup "badrevids" q) as [[| | | | |] |]; reflexivity.
Qed.

(** C1 (the code departs from the claim). For every answer with status 200
    whose [query] is an object without a [pages] section, the batch lookup
    does not return an empty mapping with the bad ids: [get_revinfo] raises,
    [ValueError] from unpacking the bare empty dict that
    [get_revinfo_from_json] returns, or [TypeError] when [badrevids] is no
    object; and the exception ends the whole run. *)
Theorem C1_no_pages_raises :
  forall (remote : nat -> request -> http_result) (d : string)
         (batch : list string) (n : nat) (v : pyval)
         (q : list (string * pyval)),
    remote n (revinfo_request d batch) = Response 200 (Some v) ->
    item v "query" = Ok (PDict q) ->
    lookup "pages" q = None ->
    let e := match lookup "badrevids" q with
             | Some (PDict _) | None => ValueError
             | Some _ => TypeError
             end in
    result (get_revinfo remote batch (Some d) n) = Raise e
    /\ forall passes argv,
         In (EGet (revinfo_request d batch) (Response 200 (Some v)))
            (trace (do_main remote passes argv 0%nat)) ->
         result (do_main remote passes argv 0%nat) = Raise e.
Proof.
  intros remote d batch n v q Hres Hq Hp e.
  assert (Hv : verdict (Response 200 (Some v)) = Raise e).
  { cbn [verdict]. change (200 =? 200) with true. cbv iota.
    rewrite (no_pages_result v q Hq Hp). subst e.
    destruct (lookup "badrevids" q) as [[| | | | |] |]; reflexivity. }
  split.
  - rewrite get_revinfo_run. cbv zeta. rewrite Hres.
    change (200 =? 200) with true. cbv iota.
    cbn [verdict] in Hv. change (200 =? 200) with true in Hv. cbv iota in Hv.
    now rewrite Hv.
  - intros passes argv Hin.
    now apply (do_main_fatal remote passes argv 0%nat _ _ e Hin).
Qed.

Lemma C1_witness :
  result (get_revinfo Samples.remote_only_bad ["5"] (Some Samples.wiki) 0%nat)
  = Raise ValueError.
Proof.
  exact (proj1 (C1_no_pages_raises Samples.remote_only_bad Samples.wiki ["5"] 0%nat
                  Samples.only_bad _ eq_refl eq_refl eq_refl)).
Defined.

(** C2 (the code departs from the claim). A body that is no JSON, or has
    not the expected shape, makes [get_revinfo_from_json] return [None]: the
    parse error is swallowed there. But [get_revinfo] unpacks that [None]
    into two names, which raises [TypeError], and the exception ends
    [do_revrange] and the whole run. *)
Theorem C2_parse_failure_raises :
  get_revinfo_from_json None = RNone
  /\ get_revinfo_from_json (Some (PList [])) = RNone
  /\ get_revinfo_from_json (Some (PDict [("error", PDict [])])) = RNone
  /\ forall (remote : nat -> request -> http_result) (d : string)
            (batch : list string) (n : nat) (content : body),
       remote n (revinfo_request d batch) = Response 200 content ->
       get_revinfo_from_json content = RNone ->
       result (get_revinfo remote batch (Some d) n) = Raise TypeError
       /\ (forall rest redo,
             result (spec_pass remote (Some d) (batch :: rest) redo n)
             = Raise TypeError)
       /\ forall passes argv,
            In (EGet (revinfo_request d batch) (Response 200 content))
               (trace (do_main remote passes argv 0%nat)) ->
            result (do_main remote passes argv 0%nat) = Raise TypeError.
Proof.
  repeat split; try reflexivity.
  - rewrite get_revinfo_run. cbv zeta. rewrite H.
    change (200 =? 200) with true. cbv iota. now rewrite H0.
  - intros rest redo. rewrite (spec_pass_fails remote d batch rest redo n TypeError);
      [reflexivity |].
    rewrite H. cbn [verdict]. change (200 =? 200) with true. cbv iota.
    now rewrite H0.
  - intros passes argv Hin.
    apply (do_main_fatal remote passes argv 0%nat _ _ TypeError Hin); [reflexivity |].
    cbn [verdict]. change (200 =? 200) with true. cbv iota. now rewrite H0.
Qed.

Lemma C2_witness :
  result (do_main Samples.remote_garbled 0 Samples.sample_argv 0%nat)
  = Raise TypeError.
Proof.
  refine (proj2 (proj2 (proj2 (proj2 (proj2 C2_parse_failure_raises))
            Samples.remote_garbled Samples.wiki ["1"; "10000001"; "20000001"]
            0%nat None eq_refl eq_refl)) 0%nat Samples.sample_argv _).
  vm_compute. left. reflexivity.
Defined.

(** C10. When the answer to a batch request has a status other than 200,
    [get_revinfo] returns [None]; [do_revrange] fails to unpack it, and the
    [TypeError] ends the pass and the whole run. *)
Theorem C10_bad_status_aborts :
  forall (remote : nat -> request -> http_result),
    (forall d batch n status_code content,
        remote n (revinfo_request d batch) = Response status_code content ->
        status_code <> 200 ->
        get_revinfo remote batch (Some d) n
        = mkRun (Ok None) (S n)
            [EGet (revinfo_request d batch) (Response status_code content);
             EStderr (failed_message (revinfo_request d batch))])
    /\ (forall (revrange : list Z) d n req status_code content,
          In (EGet req (Response status_code content))
             (trace (do_revrange remote revrange (Some d) n)) ->
          status_code <> 200 ->
          result (do_revrange remote revrange (Some d) n) = Raise TypeError)
    /\ (forall (revrange : list string) d n req status_code content,
          In (EGet req (Response status_code content))
             (trace (do_revrange remote revrange (Some d) n)) ->
          status_code <> 200 ->
          result (do_revrange remote revrange (Some d) n) = Raise TypeError)
    /\ (forall passes argv req status_code content,
          In (EGet req (Response status_code content))
             (trace (do_main remote passes argv 0%nat)) ->
          is_revinfo_request req = true ->
          status_code <> 200 ->
          result (do_main remote passes argv 0%nat) = Raise TypeError).
Proof.
  intros remote.
  assert (Hv : forall status_code content, status_code <> 200 ->
            verdict (Response status_code content) = Raise TypeError).
  { intros s c Hs. cbn [verdict]. now destruct (Z.eqb_spec s 200). }
  repeat split.
  - intros d batch n s c Hres Hs. rewrite get_revinfo_run. cbv zeta.
    rewrite Hres. now destruct (Z.eqb_spec s 200).
  - intros revrange d n req s c Hin Hs. rewrite do_revrange_spec in Hin |- *.
    apply (pass_run_fatal remote _ _ _ _ _ (spec_pass_run remote d _ _ _) _ _ _ Hin).
    now apply Hv.
  - intros revrange d n req s c Hin Hs. rewrite do_revrange_spec in Hin |- *.
    apply (pass_run_fatal remote _ _ _ _ _ (spec_pass_run remote d _ _ _) _ _ _ Hin).
    now apply Hv.
  - intros passes argv req s c Hin Hrev Hs.
    apply (do_main_fatal remote passes argv 0%nat _ _ TypeError Hin Hrev).
    now apply Hv.
Qed.

Lemma C10_witness :
  result (do_main Samples.remote_down 0 Samples.sample_argv 0%nat) = Raise TypeError.
Proof.
  refine (proj2 (proj2 (proj2 (C10_bad_status_aborts Samples.remote_down)))
            0%nat Samples.sample_argv
            (revinfo_request Samples.wiki ["1"; "10000001"; "20000001"])
            500 None _ eq_refl _).
  - vm_compute. left. reflexivity.
  - discriminate.
Defined.


(** *** The candidate ids *)

Lemma range_in (start stop step x : Z) :
  0 < step ->
  In x (range start stop step)
  <-> exists k, 0 <= k /\ x = start + k * step /\ x < stop.
Proof.
  intros Hstep. unfold range, range_len. rewrite in_map_iff. split.
  - intros (i & <- & Hi). apply in_seq in Hi. exists (Z.of_nat i).
    destruct (Z.ltb_spec start stop) as [Hlt | Hge]; [| cbn in Hi; lia].
    repeat split; [lia |].
    assert (Hle : Z.of_nat i <= (stop - start - 1) / step) by lia.
    pose proof (Z.mul_div_le (stop - start - 1) step Hstep).
    nia.
  - intros (k & Hk & -> & Hlt). exists (Z.to_nat k).
    split; [now rewrite Z2Nat.id |]. apply in_seq.
    destruct (Z.ltb_spec start stop) as [Hs | Hs]; [| nia].
    assert (Hle : k <= (stop - start - 1) / step)
      by (apply Z.div_le_lower_bound; nia).
    lia.
Qed.

Lemma range_ascending (start stop step : Z) :
  0 < step -> StronglySorted Z.lt (range start stop step).
Proof.
  intros Hstep. unfold range. generalize (range_len start stop step) as len.
  generalize 0%nat as i. intros i len. revert i.
  induction len as [| len IH]; intros i; cbn [seq map]; constructor; [apply IH |].
  apply Forall_forall. intros x Hx. apply in_map_iff in Hx as (j & <- & Hj).
  apply in_seq in Hj. nia.
Qed.

(** C4. The candidate ids [do_main] builds are [start], [start + 10000000],
    ... as long as they are below the end, in ascending order; and
    [do_revrange] looks them up batch by batch, the batches being the
    consecutive pieces of at most ten ids, all full but the last. From 1 to
    25000000 the ids are 1, 10000001 and 20000001, sent as one batch. *)
Theorem C4_candidates_in_batches :
  (forall d start stop dry verb,
      candidates (mkArgs d (str_of_Z start) (PStr (str_of_Z stop)) dry verb)
      = Ok (range start stop 10000000))
  /\ (forall start stop x,
        In x (range start stop 10000000)
        <-> exists k, 0 <= k /\ x = start + k * 10000000 /\ x < stop)
  /\ (forall start stop, StronglySorted Z.lt (range start stop 10000000))
  /\ (forall remote (revrange : list Z) domain n,
        do_revrange remote revrange domain n
        = spec_pass remote domain (batches (map str_of_Z revrange)) [] n)
  /\ (forall l : list string,
        List.concat (batches l) = l
        /\ Forall (fun b => (1 <= List.length b <= 10)%nat) (batches l)
        /\ forall front b back,
             batches l = front ++ b :: back -> back <> [] ->
             List.length b = 10%nat)
  /\ (forall remote (revrange : list Z) d n,
        exists sent rest,
          batches (map str_of_Z revrange) = sent ++ rest
          /\ requests (trace (do_revrange remote revrange (Some d) n))
             = map (revinfo_request d) sent
          /\ forall redo,
               result (do_revrange remote revrange (Some d) n) = Ok redo ->
               rest = [])
  /\ range 1 25000000 10000000 = [1; 10000001; 20000001]
  /\ batches (map str_of_Z [1; 10000001; 20000001])
     = [["1"; "10000001"; "20000001"]]
  /\ requests (trace (do_main Samples.remote_up 0 Samples.sample_argv 0%nat))
     = [revinfo_request Samples.wiki ["1"; "10000001"; "20000001"]]
  /\ List.length (range 1 100000001 10000000) = 10%nat
  /\ List.length (batches (map str_of_Z (range 1 100000001 10000000))) = 1%nat.
Proof.
  split; [| split; [| split; [| split; [| split; [| split]]]]].
  - intros d start stop dry verb. unfold candidates. cbn [start_rev end_rev].
    now rewrite !PyFacts.int_str.
  - intros start stop x. apply range_in. lia.
  - intros start stop. apply range_ascending. lia.
  - intros remote revrange domain n. apply do_revrange_spec.
  - intros l. split; [apply concat_batches |]. split; [apply batches_sizes |].
    apply batches_full.
  - intros remote revrange d n. rewrite do_revrange_spec.
    apply (pass_run_requests remote d _ [] n _ (spec_pass_run remote d _ _ _)).
  - repeat split; vm_compute; reflexivity.
Qed.

Lemma C4_witness :
  List.length (firstn 10 Samples.eleven) = 10%nat.
Proof.
  refine (proj2 (proj2 (proj1 (proj2 (proj2 (proj2 (proj2
            C4_candidates_in_batches)))) Samples.eleven))
            [] (firstn 10 Samples.eleven) [["11"]] eq_refl _).
  discriminate.
Defined.

(** *** Command lines that are refused *)

(** The options loop and the checks of a command line with an empty end
    revision: the end is resolved like one that was not given. *)
Lemma empty_end_lookup (remote : nat -> request -> http_result)
  (options : list (string * string)) (d : string) (n : nat) :
  forallb recognized options = true ->
  given_domain options = Some d -> d <> EmptyString ->
  isdigit (given_start options) = true ->
  given_end options = None \/ given_end options = Some EmptyString ->
  process_opts remote (Parsed options []) n
  = bind (get_max_rev remote (Some d))
         (fun revid => ret (with_end (settings options) revid)) n.
Proof.
  intros Hrec Hd Hne Hstart Hend.
  pose proof (process_opts_run remote (Parsed options []) n) as Hrun.
  cbv beta iota in Hrun. rewrite Hrec in Hrun. rewrite Hrun, check_opts_run.
  destruct (settings_fields options) as (Hsd & Hss & Hse).
  rewrite Hsd, Hss, Hse, Hd, Hstart.
  assert (Htruthy : domain_truthy (Some d) = true).
  { cbn. now destruct (String.eqb_spec d ""). }
  rewrite Htruthy. cbn [negb].
  assert (Hfalsy : truthy (match given_end options with
                           | Some e => PStr e | None => PNone end) = false).
  { now destruct Hend as [-> | ->]. }
  now rewrite Hfalsy.
Qed.

(** C5 (the code departs from the claim). An empty end revision is no
    number, and the claim has the script refuse it; [check_opts] takes it as
    not given instead (the truth value of the string guards the test): the
    first thing the run does is to ask the service for the maximum revision,
    and the end is what the answer gives. *)
Theorem C5_empty_end_asks_service :
  forall (remote : nat -> request -> http_result) (passes : nat)
         (options : list (string * string)) (d : string),
    forallb recognized options = true ->
    given_domain options = Some d -> d <> EmptyString ->
    isdigit (given_start options) = true ->
    given_end options = Some EmptyString ->
    let argv := Parsed options [] in
    let r := do_main remote passes argv 0%nat in
    stated_refused argv = true
    /\ process_opts remote argv 0%nat
       = bind (get_max_rev remote (Some d))
              (fun revid => ret (with_end (settings options) revid)) 0%nat
    /\ (exists rest,
          trace r
          = EGet (maxrev_request d) (remote 0%nat (maxrev_request d)) :: rest)
    /\ ~ usage_exit r 0%nat.
Proof.
  intros remote passes options d Hrec Hd Hne Hstart Hend argv r.
  pose proof (empty_end_lookup remote options d 0%nat Hrec Hd Hne Hstart
                (or_intror Hend)) as Hopts.
  assert (Hhead : exists rest,
            trace r
            = EGet (maxrev_request d) (remote 0%nat (maxrev_request d)) :: rest).
  { subst r argv. rewrite do_main_after_opts, trace_bind, Hopts.
    rewrite trace_bind, result_bind, clock_bind.
    pose proof (get_max_rev_run remote d 0%nat) as Hg. cbv zeta in Hg.
    rewrite Hg.
    destruct (remote 0%nat (maxrev_request d)) as [s c |];
      [destruct (s =? 200) |]; cbn [result trace clock ret app]; eauto. }
  repeat split; [| exact Hopts | exact Hhead |].
  - subst argv. cbn [stated_refused]. rewrite Hrec, Hd, Hstart, Hend.
    assert (Htruthy : domain_truthy (Some d) = true).
    { cbn. now destruct (String.eqb_spec d ""). }
    now rewrite Htruthy.
  - intros (_ & _ & m & Ht). destruct Hhead as (rest & Hr).
    rewrite Hr in Ht. discriminate.
Qed.

Lemma C5_witness :
  exists rest,
    trace (do_main Samples.remote_up 0 Samples.empty_end_argv 0%nat)
    = EGet (maxrev_request Samples.wiki)
        (Samples.remote_up 0%nat (maxrev_request Samples.wiki)) :: rest.
Proof.
  refine (proj1 (proj2 (proj2
            (C5_empty_end_asks_service Samples.remote_up 0%nat
               [("--domain", Samples.wiki); ("--endrev", "")] Samples.wiki
               eq_refl eq_refl _ eq_refl eq_refl)))).
  discriminate.
Defined.

(** The whole of that run, against a service that answers: the script runs
    on to the end as if no end revision had been given. *)
Lemma empty_end_sample_run :
  stated_refused Samples.empty_end_argv = true
  /\ result (do_main Samples.remote_up 0 Samples.empty_end_argv 0%nat) = Ok tt
  /\ requests (trace (do_main Samples.remote_up 0 Samples.empty_end_argv 0%nat))
     = [maxrev_request Samples.wiki;
        revinfo_request Samples.wiki ["1"; "10000001"; "20000001"]].
Proof. repeat split; vm_compute; reflexivity. Qed.

(** *** An end revision that cannot be resolved *)

(** C6 (the code departs from the claim). When no end revision is given
    and the maximum-revision lookup returns [None], [check_opts] stores that
    [None], and [do_main] raises [TypeError] at [int(None)]: the usage text is
    not written, and the only request made is the lookup. (A start revision
    made of digits that [int] does not read, which [check_opts] lets
    through, makes it [ValueError], one call earlier on the same line.) *)
Theorem C6_unresolved_end_raises :
  forall (remote : nat -> request -> http_result) (passes : nat)
         (options : list (string * string)) (d : string),
    forallb recognized options = true ->
    given_domain options = Some d -> d <> EmptyString ->
    isdigit (given_start options) = true ->
    given_end options = None \/ given_end options = Some EmptyString ->
    result (get_max_rev remote (Some d) 0%nat) = Ok PNone ->
    let r := do_main remote passes (Parsed options []) 0%nat in
    result r = Raise (match int_of_str (given_start options) with
                      | Some _ => TypeError
                      | None => ValueError
                      end)
    /\ ~ In (EStderr usage_message) (trace r)
    /\ requests (trace r) = [maxrev_request d].
Proof.
  intros remote passes options d Hrec Hd Hne Hstart Hend Hmax r. subst r.
  rewrite do_main_after_opts.
  rewrite result_bind, trace_bind,
    (empty_end_lookup remote options d 0%nat Hrec Hd Hne Hstart Hend).
  destruct (settings_fields options) as (Hsd & Hss & Hse).
  rewrite result_bind, trace_bind, clock_bind, Hmax.
  cbn [ret result clock trace].
  pose proof (get_max_rev_run remote d 0%nat) as Hg. cbv zeta in Hg.
  assert (Hrun : after_opts remote passes (with_end (settings options) PNone)
                   (clock (get_max_rev remote (Some d) 0%nat))
                 = mkRun (Raise (match int_of_str (given_start options) with
                                 | Some _ => TypeError
                                 | None => ValueError
                                 end))
                     (clock (get_max_rev remote (Some d) 0%nat))
                     (if verbose (settings options)
                      then [EVerbose (with_end (settings options) PNone)]
                      else [])).
  { destruct (int_of_str (given_start options)) as [start |] eqn:Hint.
    - rewrite (after_opts_run remote passes _ d start);
        [reflexivity | cbn [with_end domain]; congruence |].
      cbn [with_end start_rev int]. now rewrite Hss, Hint.
    - rewrite (after_opts_stops remote passes
                 (with_end (settings options) PNone) ValueError);
        [reflexivity |].
      cbn [with_end start_rev int]. now rewrite Hss, Hint. }
  rewrite Hrun. cbn [result trace]. rewrite app_nil_r.
  rewrite Hg in Hmax |- *.
  destruct (remote 0%nat (maxrev_request d)) as [s c |]; [| discriminate].
  destruct (s =? 200); destruct (verbose (settings options)); cbn [trace app];
    (split; [reflexivity | split; [cbn; intuition discriminate | reflexivity]]).
Qed.

Lemma C6_witness :
  result (do_main Samples.remote_down 0
            (Parsed [("--domain", Samples.wiki)] []) 0%nat)
  = Raise TypeError.
Proof.
  refine (proj1 (C6_unresolved_end_raises Samples.remote_down 0%nat
                   [("--domain", Samples.wiki)] Samples.wiki
                   eq_refl eq_refl _ eq_refl (or_introl eq_refl) eq_refl)).
  discriminate.
Defined.


(** *** The dry-run flag *)

Lemma forget_run_inv (r1 r2 : run args) :
  forget_run r1 = forget_run r2 ->
  clock r1 = clock r2 /\ trace r1 = trace r2
  /\ match result r1, result r2 with
     | Ok a1, Ok a2 => forget a1 = forget a2
     | Raise e1, Raise e2 => e1 = e2
     | Diverge, Diverge => True
     | _, _ => False
     end.
Proof.
  intros H. split; [exact (f_equal clock H) |]. split; [exact (f_equal trace H) |].
  apply (f_equal result) in H. unfold forget_run in H. cbn [result] in H.
  destruct (result r1), (result r2); try discriminate; try exact I; congruence.
Qed.

Lemma forget_run_bind (c1 c2 : M args) (k : args -> M args) (n : nat) :
  forget_run (c1 n) = forget_run (c2 n) ->
  (forall a m, forget_run (k a m) = forget_run (k (forget a) m)) ->
  forget_run (bind c1 k n) = forget_run (bind c2 k n).
Proof.
  intros H Hk. destruct (forget_run_inv _ _ H) as (Hclock & Htrace & Hres).
  unfold bind. rewrite <- Hclock, <- Htrace.
  destruct (result (c1 n)) as [a1 | e1 |], (result (c2 n)) as [a2 | e2 |];
    try (now destruct Hres).
  pose proof (Hk a1 (clock (c1 n))) as K1.
  pose proof (Hk a2 (clock (c1 n))) as K2.
  rewrite Hres, <- K2 in K1.
  destruct (forget_run_inv _ _ K1) as (Hc & Ht & Hr).
  unfold forget_run. cbn [result clock trace]. rewrite Hc, Ht.
  destruct (result (k a1 (clock (c1 n)))), (result (k a2 (clock (c1 n))));
    try (now destruct Hr); now rewrite Hr.
Qed.

(** The options loop reads the dry-run options only to set the flag. *)
Lemma set_opts_forget (options : list (string * string)) :
  forall (a : args) (n : nat),
    forget_run (set_opts options a n)
    = forget_run (set_opts (filter (fun o => negb (is_dryrun o)) options)
                    (forget a) n).
Proof.
  induction options as [| [opt val] rest IH]; intros a n; [reflexivity |].
  cbn [set_opts filter]. unfold is_dryrun at 1. unfold one_of.
  cbn [existsb fst].
  name_cases opt; cbn [orb andb negb String.eqb Ascii.eqb Bool.eqb set_opts];
    unfold one_of; cbn [existsb orb String.eqb Ascii.eqb Bool.eqb];
    try match goal with
        | |- forget_run (set_opts rest ?a' n) = _ => exact (IH a' n)
        end.
  all: repeat match goal with
              | H : ?o <> ?s |- context [String.eqb ?o ?s] =>
                  rewrite (proj2 (String.eqb_neq o s) H)
              end.
  all: cbn [orb]; reflexivity.
Qed.

Section Forget.
Variable remote : nat -> request -> http_result.

Lemma check_opts_forget (a : args) (n : nat) :
  forget_run (check_opts remote a n)
  = forget_run (check_opts remote (forget a) n).
Proof.
  rewrite !check_opts_run. cbn [forget domain start_rev end_rev].
  destruct (domain_truthy (domain a)); cbn [negb]; [| reflexivity].
  destruct (isdigit (start_rev a)); cbn [negb]; [| reflexivity].
  destruct (truthy (end_rev a)).
  - destruct (isdigit_method (end_rev a)) as [[] | e |]; reflexivity.
  - unfold forget_run, bind.
    destruct (result (get_max_rev remote (domain a) n)); reflexivity.
Qed.

Lemma process_opts_forget (o1 o2 : list (string * string))
  (remainder : list string) (n : nat) :
  filter (fun o => negb (is_dryrun o)) o1
  = filter (fun o => negb (is_dryrun o)) o2 ->
  forget_run (process_opts remote (Parsed o1 remainder) n)
  = forget_run (process_opts remote (Parsed o2 remainder) n).
Proof.
  intros Hsame. cbn [process_opts]. apply forget_run_bind.
  - rewrite (set_opts_forget o1), (set_opts_forget o2). now rewrite Hsame.
  - intros a m. destruct remainder as [| opt rest].
    + rewrite !bind_ret. apply check_opts_forget.
    + now rewrite !bind_usage.
Qed.

Lemma requests_hide (t : list event) : requests (map hide t) = requests t.
Proof.
  induction t as [| e t IH]; [reflexivity |].
  unfold requests in *. cbn [map flat_map]. rewrite IH. now destruct e.
Qed.

Lemma printed_hide (t : list event) : printed (map hide t) = printed t.
Proof.
  induction t as [| e t IH]; [reflexivity |].
  unfold printed in *. cbn [map flat_map]. rewrite IH. now destruct e.
Qed.

(** After [process_opts], the flag shows only where the configuration is
    printed. *)
Lemma after_opts_forget (passes : nat) (a : args) (n : nat) :
  result (after_opts remote passes a n)
  = result (after_opts remote passes (forget a) n)
  /\ clock (after_opts remote passes a n)
     = clock (after_opts remote passes (forget a) n)
  /\ map hide (trace (after_opts remote passes a n))
     = map hide (trace (after_opts remote passes (forget a) n)).
Proof.
  unfold after_opts, when. cbn [forget verbose domain].
  change (candidates (forget a)) with (candidates a).
  destruct (verbose a).
  - rewrite !bind_emit. cbn [result clock trace map hide]. repeat split.
  - rewrite !bind_ret. repeat split.
Qed.

End Forget.

(** C9. Two runs whose command lines differ only in dry-run options, against
    the same service, end the same way, make the same requests and print the
    same lines: their traces are equal once the flag is blanked where the
    configuration is printed. *)
Theorem C9_dryrun_has_no_effect :
  forall (remote : nat -> request -> http_result) (passes : nat)
         (o1 o2 : list (string * string)) (remainder : list string),
    filter (fun o => negb (is_dryrun o)) o1
    = filter (fun o => negb (is_dryrun o)) o2 ->
    let r1 := do_main remote passes (Parsed o1 remainder) 0%nat in
    let r2 := do_main remote passes (Parsed o2 remainder) 0%nat in
    result r1 = result r2
    /\ map hide (trace r1) = map hide (trace r2)
    /\ requests (trace r1) = requests (trace r2)
    /\ printed (trace r1) = printed (trace r2)
    /\ stderr_text (trace r1) = stderr_text (trace r2).
Proof.
  intros remote passes o1 o2 remainder Hsame r1 r2.
  assert (H : result r1 = result r2 /\ map hide (trace r1) = map hide (trace r2)).
  { subst r1 r2. rewrite !do_main_after_opts, !result_bind, !trace_bind.
    pose proof (process_opts_forget remote o1 o2 remainder 0%nat Hsame) as Hp.
    destruct (forget_run_inv _ _ Hp) as (Hclock & Htrace & Ha).
    rewrite <- Hclock, <- Htrace.
    destruct (result (process_opts remote (Parsed o1 remainder) 0%nat)) as [a1 | e1 |],
             (result (process_opts remote (Parsed o2 remainder) 0%nat)) as [a2 | e2 |];
      try (now destruct Ha).
    destruct (after_opts_forget remote passes a1
                (clock (process_opts remote (Parsed o1 remainder) 0%nat)))
      as (R1 & _ & T1).
    destruct (after_opts_forget remote passes a2
                (clock (process_opts remote (Parsed o1 remainder) 0%nat)))
      as (R2 & _ & T2).
    rewrite !map_app, R1, R2, T1, T2, Ha. now split. }
  destruct H as [Hres Htrace]. repeat split; [exact Hres | exact Htrace | | |].
  - now rewrite <- (requests_hide (trace r1)), Htrace, requests_hide.
  - now rewrite <- (printed_hide (trace r1)), Htrace, printed_hide.
  - assert (Hs : forall t, stderr_text (map hide t) = stderr_text t).
    { induction t as [| e t IH]; [reflexivity |].
      unfold stderr_text in *. cbn [map flat_map]. rewrite IH. now destruct e. }
    now rewrite <- (Hs (trace r1)), Htrace, Hs.
Qed.

Lemma C9_witness :
  printed (trace (do_main Samples.remote_up 0 Samples.sample_argv 0%nat))
  = printed (trace (do_main Samples.remote_up 0 Samples.dryrun_argv 0%nat)).
Proof.
  exact (proj1 (proj2 (proj2 (proj2
           (C9_dryrun_has_no_effect Samples.remote_up 0%nat _ _ [] eq_refl))))).
Defined.


(** *** The retry loop *)

Lemma next_ids_str (zs : list Z) :
  next_ids (map str_of_Z zs) = Ok (map str_of_Z (map (fun z => z + 1) zs)).
Proof.
  induction zs as [| z zs IH]; [reflexivity |].
  cbn [map next_ids]. now rewrite PyFacts.int_str, IH.
Qed.

Lemma next_ids_written (redo ids : list string) :
  next_ids redo = Ok ids -> exists zs, ids = map str_of_Z zs.
Proof.
  intros H. pose proof (next_ids_spec redo) as Hs. rewrite H in Hs.
  clear H. induction Hs as [| rev id redo ids Hsucc _ (zs & ->)]; [now exists [] |].
  unfold successor in Hsucc. destruct (int_of_str rev) as [z |]; [| discriminate].
  injection Hsucc as <-. now exists (z + 1 :: zs).
Qed.




(** *** Termination of the retry loop *)

Lemma written_list {P : Z -> Prop} (l : list string) :
  (forall s, In s l -> exists z, s = str_of_Z z /\ P z) ->
  exists zs, l = map str_of_Z zs /\ Forall P zs.
Proof.
  induction l as [| s l IH]; intros H; [now exists [] |].
  destruct (H s (or_introl eq_refl)) as (z & -> & Hz).
  destruct IH as (zs & -> & Hzs); [intros s' Hs'; apply H; now right |].
  exists (z :: zs). split; [reflexivity | now constructor].
Qed.

Lemma in_batches {A} (l b : list A) (x : A) :
  In b (batches l) -> In x b -> In x l.
Proof.
  intros Hb Hx. rewrite <- (concat_batches l). apply in_concat. now exists b.
Qed.

Section Recovery.
Variable remote : nat -> request -> http_result.
Variable bad : Z -> bool.
Variable d : string.

(** The service lists as bad only ids it was asked for and that are bad. *)
Hypothesis lists_bad_ids :
  forall (n : nat) (ids : list Z) (p : mapping * list string) (s : string),
    verdict (remote n (revinfo_request d (map str_of_Z ids))) = Ok p ->
    In s (snd p) ->
    exists z, In z ids /\ s = str_of_Z z /\ bad z = true.

(** The redo list of a pass over written ids: written ids of the pass that
    are bad. *)
Lemma pass_redo_bad (zs : list Z) (n : nat) (redo' : list string) :
  result (spec_pass remote (Some d) (batches (map str_of_Z zs)) [] n) = Ok redo' ->
  exists zs', redo' = map str_of_Z zs'
              /\ Forall (fun z => In z zs /\ bad z = true) zs'.
Proof.
  intros Hres.
  destruct (pass_run_redo remote d _ _ _ _ (spec_pass_run remote d _ _ _) _ Hres)
    as (more & -> & Hmore).
  cbn [app]. apply written_list. intros s Hs.
  destruct (Hmore s Hs) as (batch & k & p & Hb & Hv & Hin).
  rewrite batches_map in Hb. apply in_map_iff in Hb as (b & <- & Hb).
  destruct (lists_bad_ids k b p s Hv Hin) as (z & Hz & -> & Hbad).
  exists z. repeat split; [| exact Hbad]. now apply (in_batches zs b).
Qed.

(** When every id asked for is at most [N] steps from an id that is not
    bad, [S N] passes are enough. *)
Lemma retry_bounded (N : nat) :
  forall (zs : list Z) (redo : list string) (n : nat),
    next_ids redo = Ok (map str_of_Z zs) ->
    (forall z, In z zs ->
       exists k, (k <= N)%nat /\ bad (z + Z.of_nat k) = false) ->
    result (retry remote (S N) redo (Some d) n) <> Diverge.
Proof.
  induction N as [| N IH]; intros zs redo n Hids Hnear;
    (destruct redo as [| rev rest]; [discriminate |]);
    rewrite retry_run by discriminate; rewrite Hids; cbv zeta;
    pose proof (spec_pass_run remote d (batches (map str_of_Z zs)) [] n) as Hrun;
    pose proof (pass_run_ends remote _ _ _ _ _ Hrun) as Hends;
    pose proof (pass_redo_bad zs n) as Hredo;
    (destruct (result (spec_pass remote (Some d) (batches (map str_of_Z zs)) [] n))
      as [redo' | e |]; [| discriminate | congruence]);
    destruct (Hredo redo' eq_refl) as (zs' & -> & Hbad); cbn [result].
  - destruct zs' as [| z zs']; [discriminate |].
    apply Forall_inv in Hbad as [Hz Hb].
    destruct (Hnear z Hz) as (k & Hk & Hgood).
    replace k with 0%nat in Hgood by lia. rewrite Z.add_0_r in Hgood. congruence.
  - destruct zs' as [| z zs']; [discriminate |].
    apply (IH (map (fun z => z + 1) (z :: zs'))); [apply next_ids_str |].
    intros z1 Hz1. apply in_map_iff in Hz1 as (z0 & <- & Hz0).
    rewrite Forall_forall in Hbad. destruct (Hbad z0 Hz0) as [Hin Hb].
    destruct (Hnear z0 Hin) as (k & Hk & Hgood).
    destruct k as [| k]; [rewrite Z.add_0_r in Hgood; congruence |].
    exists k. split; [lia |]. rewrite <- Hgood. f_equal. lia.
Qed.

(** From every id, some number of steps leads to an id that is not bad. *)
Hypothesis ids_recover : forall z, exists k, bad (z + Z.of_nat k) = false.

Lemma near_good (zs : list Z) :
  exists N, forall z, In z zs ->
    exists k, (k <= N)%nat /\ bad (z + Z.of_nat k) = false.
Proof.
  induction zs as [| z zs (N & HN)]; [exists 0%nat; intros z []|].
  destruct (ids_recover z) as (k & Hk).
  exists (Nat.max k N). intros z' [<- | Hz'].
  - exists k. split; [lia | exact Hk].
  - destruct (HN z' Hz') as (k' & Hk' & Hg). exists k'. split; [lia | exact Hg].
Qed.

Lemma retry_ends (redo : list string) (n : nat) :
  exists passes,
    result (retry remote passes redo (Some d) n) <> Diverge
    /\ forall more, retry remote (more + passes) redo (Some d) n
                    = retry remote passes redo (Some d) n.
Proof.
  assert (Hmore : forall passes,
    result (retry remote passes redo (Some d) n) <> Diverge ->
    result (retry remote passes redo (Some d) n) <> Diverge
    /\ forall more, retry remote (more + passes) redo (Some d) n
                    = retry remote passes redo (Some d) n).
  { intros passes H. split; [exact H |]. intros more. now apply retry_enough. }
  destruct redo as [| rev rest].
  - exists 0%nat. apply Hmore. discriminate.
  - destruct (next_ids (rev :: rest)) as [ids | e |] eqn:Hids.
    + destruct (next_ids_written _ _ Hids) as (zs & ->).
      destruct (near_good zs) as (N & HN).
      exists (S N). apply Hmore. now apply (retry_bounded N zs).
    + exists 1%nat. apply Hmore. rewrite retry_run by discriminate.
      rewrite Hids. discriminate.
    + pose proof (next_ids_spec (rev :: rest)) as H. now rewrite Hids in H.
Qed.

End Recovery.

(** The service that lists an id as bad in every answer keeps the loop
    going. *)
Lemma ever_bad_goes_on (passes : nat) :
  forall n : nat,
    result (retry Samples.remote_ever_bad passes
              [str_of_Z (5 + Z.of_nat n)] (Some Samples.wiki) n) = Diverge.
Proof.
  induction passes as [| passes IH]; intros n; [reflexivity |].
  rewrite retry_run by discriminate.
  change [str_of_Z (5 + Z.of_nat n)] with (map str_of_Z [5 + Z.of_nat n]).
  rewrite next_ids_str. cbn [map]. cbv zeta.
  replace (5 + Z.of_nat n + 1) with (6 + Z.of_nat n) by lia.
  assert (Hpass : spec_pass Samples.remote_ever_bad (Some Samples.wiki)
                    (batches [str_of_Z (6 + Z.of_nat n)]) [] n
                  = mkRun (Ok [str_of_Z (6 + Z.of_nat n)]) (S n)
                      [EGet (revinfo_request Samples.wiki [str_of_Z (6 + Z.of_nat n)])
                            (Response 200 (Some (Samples.ever_bad n)))]).
  { reflexivity. }
  rewrite Hpass. cbn [result clock trace].
  replace (6 + Z.of_nat n) with (5 + Z.of_nat (S n)) by lia.
  apply IH.
Qed.

(** The service for which 6 alone is bad lists only bad ids it was asked
    for. *)
Lemma six_bad_lists_bad_ids (n : nat) (ids : list Z)
  (p : mapping * list string) (s : string) :
  verdict (Samples.remote_six_bad n
             (revinfo_request Samples.wiki (map str_of_Z ids))) = Ok p ->
  In s (snd p) ->
  exists z, In z ids /\ s = str_of_Z z /\ Samples.is_six z = true.
Proof.
  unfold Samples.remote_six_bad. cbn [params revinfo_request lookup String.eqb
    Ascii.eqb Bool.eqb].
  destruct (String.eqb_spec (String.concat "|" (map str_of_Z ids)) "6") as [E | _].
  - intros Hv Hs. vm_compute in Hv. injection Hv as <-.
    destruct Hs as [<- | []]. exists 6. repeat split.
    destruct ids as [| z [| z' ids]]; cbn [map String.concat] in E.
    + discriminate.
    + apply (PyFacts.str_of_Z_inj z 6) in E. subst. now left.
    + pose proof (PyFacts.str_of_Z_nonempty z) as Hz.
      destruct (str_of_Z z) as [| c [| c' t]]; [congruence | discriminate ..].
  - intros Hv Hs. vm_compute in Hv. injection Hv as <-. destruct Hs.
Qed.

(** [process_opts] always ends. *)
Lemma process_opts_ends (remote : nat -> request -> http_result)
  (argv : cmdline) (n : nat) :
  result (process_opts remote argv n) <> Diverge.
Proof.
  pose proof (process_opts_run remote argv n) as H.
  assert (Hexit : usage_exit (process_opts remote argv n) n ->
                  result (process_opts remote argv n) <> Diverge).
  { intros (Hr & _). congruence. }
  destruct argv as [err | options remainder]; [now apply Hexit |].
  destruct (forallb recognized options); [| now apply Hexit].
  destruct remainder as [| opt rest]; [| now apply Hexit].
  rewrite H, check_opts_run. clear H Hexit.
  assert (Husage : forall m, result (@usage args m n) <> Diverge).
  { intros m. rewrite (proj1 (usage_any_run m n)). discriminate. }
  destruct (domain_truthy (domain (settings options))) eqn:Hdom; cbn [negb];
    [| apply Husage].
  destruct (isdigit (start_rev (settings options))); cbn [negb]; [| apply Husage].
  destruct (domain_truthy_some _ Hdom) as (d & -> & _).
  destruct (truthy (end_rev (settings options))).
  - destruct (isdigit_method (end_rev (settings options))) as [[] | e |] eqn:E;
      try apply Husage; try discriminate.
    unfold isdigit_method in E.
    destruct (end_rev (settings options)); discriminate E.
  - rewrite result_bind, get_max_rev_run.
    destruct (remote n (maxrev_request d)) as [s c |]; [| discriminate].
    destruct (s =? 200); cbn [result ret]; discriminate.
Qed.

Section WholeRun.
Variable remote : nat -> request -> http_result.
Variable bad : Z -> bool.

Hypothesis lists_bad_ids :
  forall (d : string) (n : nat) (ids : list Z) (p : mapping * list string)
         (s : string),
    verdict (remote n (revinfo_request d (map str_of_Z ids))) = Ok p ->
    In s (snd p) ->
    exists z, In z ids /\ s = str_of_Z z /\ bad z = true.

Hypothesis ids_recover : forall z, exists k, bad (z + Z.of_nat k) = false.

Lemma after_opts_ends (a : args) (d : string) (n : nat) :
  domain a = Some d -> isdigit (start_rev a) = true ->
  exists passes,
    result (after_opts remote passes a n) <> Diverge
    /\ forall more, after_opts remote (more + passes) a n
                    = after_opts remote passes a n.
Proof.
  intros Hd Hdig.
  destruct (PyFacts.int_str_outcome (start_rev a)) as [(start & Hs) | Hs];
    [| exists 0%nat; split;
       [rewrite (after_opts_stops remote 0%nat a _ n Hs); discriminate
       | intros more; now rewrite !(after_opts_stops remote _ a _ n Hs)]].
  destruct (int (end_rev a)) as [stop | e |] eqn:Hend.
  - set (ids := map str_of_Z (range start stop 10000000)).
    pose proof (pass_run_ends remote d _ _ _ _
                  (spec_pass_run remote d (batches ids) [] n)) as Hpass.
    destruct (result (spec_pass remote (Some d) (batches ids) [] n))
      as [redo | e |] eqn:Hres; [| | congruence].
    + destruct (retry_ends remote bad d (lists_bad_ids d) ids_recover redo
                  (clock (spec_pass remote (Some d) (batches ids) [] n)))
        as (passes & Hends & Hmore).
      exists passes. split.
      * rewrite (after_opts_run remote passes a d start n Hd Hs), Hend.
        cbv zeta. fold ids. now rewrite Hres.
      * intros more.
        rewrite !(after_opts_run remote _ a d start n Hd Hs), Hend.
        cbv zeta. fold ids. now rewrite Hres, Hmore.
    + exists 0%nat. split.
      * rewrite (after_opts_run remote 0%nat a d start n Hd Hs), Hend.
        cbv zeta. fold ids. now rewrite Hres.
      * intros more.
        rewrite !(after_opts_run remote _ a d start n Hd Hs), Hend.
        cbv zeta. fold ids. now rewrite Hres.
  - exists 0%nat. split.
    + now rewrite (after_opts_run remote 0%nat a d start n Hd Hs), Hend.
    + intros more. now rewrite !(after_opts_run remote _ a d start n Hd Hs), Hend.
  - destruct (end_rev a) as [| b | z | s | l | q]; try discriminate.
    cbn [int] in Hend. now destruct (int_of_str s).
Qed.

Lemma do_main_ends (argv : cmdline) :
  exists passes,
    result (do_main remote passes argv 0%nat) <> Diverge
    /\ forall more, do_main remote (more + passes) argv 0%nat
                    = do_main remote passes argv 0%nat.
Proof.
  pose proof (process_opts_ends remote argv 0%nat) as Hopts.
  destruct (result (process_opts remote argv 0%nat)) as [a | e |] eqn:Hres;
    [| | congruence].
  - destruct (process_opts_returns remote argv 0%nat a Hres)
      as (options & d & _ & Hd & _ & _ & _ & Hdig & _).
    destruct (after_opts_ends a d (clock (process_opts remote argv 0%nat)) Hd Hdig)
      as (passes & Hends & Hmore).
    exists passes. split.
    + now rewrite do_main_after_opts, result_bind, Hres.
    + intros more. rewrite !do_main_after_opts. unfold bind.
      now rewrite Hres, Hmore.
  - exists 0%nat. split.
    + rewrite do_main_after_opts, result_bind, Hres. discriminate.
    + intros more. rewrite !do_main_after_opts. unfold bind. now rewrite Hres.
Qed.

End WholeRun.

(** C8. When the service lists as bad only bad ids it was asked for, and
    from every id some number of steps leads to an id that is not bad, the
    retry loop ends (with a result or with an exception), from any redo
    list: some number of passes is enough, and more passes change nothing;
    and so does the whole of [do_main]. Without it the loop need not end:
    for the service whose every answer lists the id asked for as bad, no
    number of passes is enough. *)
Theorem C8_retry_ends_when_ids_recover :
  (forall (remote : nat -> request -> http_result) (bad : Z -> bool)
          (d : string),
      (forall n ids p s,
          verdict (remote n (revinfo_request d (map str_of_Z ids))) = Ok p ->
          In s (snd p) ->
          exists z, In z ids /\ s = str_of_Z z /\ bad z = true) ->
      (forall z, exists k, bad (z + Z.of_nat k) = false) ->
      forall (redo : list string) (n : nat),
      exists passes,
        result (retry remote passes redo (Some d) n) <> Diverge
        /\ forall more, retry remote (more + passes) redo (Some d) n
                        = retry remote passes redo (Some d) n)
  /\ (forall (remote : nat -> request -> http_result) (bad : Z -> bool),
        (forall d n ids p s,
            verdict (remote n (revinfo_request d (map str_of_Z ids))) = Ok p ->
            In s (snd p) ->
            exists z, In z ids /\ s = str_of_Z z /\ bad z = true) ->
        (forall z, exists k, bad (z + Z.of_nat k) = false) ->
        forall argv : cmdline,
        exists passes,
          result (do_main remote passes argv 0%nat) <> Diverge
          /\ forall more, do_main remote (more + passes) argv 0%nat
                          = do_main remote passes argv 0%nat)
  /\ (forall passes,
        result (retry Samples.remote_ever_bad passes ["5"]
                  (Some Samples.wiki) 0%nat) = Diverge).
Proof.
  split; [| split].
  - intros remote bad d Hlists Hrecover redo n.
    now apply (retry_ends remote bad d).
  - intros remote bad Hlists Hrecover argv.
    now apply (do_main_ends remote bad).
  - intros passes. apply (ever_bad_goes_on passes 0%nat).
Qed.

Lemma C8_witness :
  exists passes,
    result (retry Samples.remote_six_bad passes ["5"] (Some Samples.wiki) 0%nat)
    <> Diverge.
Proof.
  destruct (proj1 C8_retry_ends_when_ids_recover Samples.remote_six_bad
              Samples.is_six Samples.wiki six_bad_lists_bad_ids) with
    (redo := ["5"]) (n := 0%nat) as (passes & H & _).
  - intros z. unfold Samples.is_six.
    destruct (Z.eqb_spec z 6) as [-> | Hz].
    + now exists 1%nat.
    + exists 0%nat. rewrite Z.add_0_r. now apply Z.eqb_neq.
  - now exists passes.
Defined.


(** *** Printing in the order of the ids *)

Lemma insert_perm {A} (leb : A -> A -> bool) (x : A) (l : list A) :
  Permutation (insert leb x l) (x :: l).
Proof.
  induction l as [| y l IH]; cbn [insert]; [reflexivity |].
  destruct (leb y x); [| reflexivity].
  rewrite IH. apply perm_swap.
Qed.

Lemma isort_perm {A} (leb : A -> A -> bool) (l : list A) :
  Permutation (isort leb l) l.
Proof.
  unfold isort.
  assert (H : forall acc, Permutation (fold_left (fun acc x => insert leb x acc) l acc)
                            (acc ++ l)).
  { induction l as [| x l IH]; intros acc; cbn [fold_left].
    - now rewrite app_nil_r.
    - rewrite IH, insert_perm. apply Permutation_middle. }
  apply (H []).
Qed.

Lemma insert_sorted (x : Z) (l : list Z) :
  StronglySorted Z.le l -> StronglySorted Z.le (insert Z.leb x l).
Proof.
  induction 1 as [| y l Hs IH Hy]; cbn [insert]; [repeat constructor |].
  destruct (Z.leb_spec y x) as [Hle | Hgt].
  - constructor; [exact IH |].
    rewrite (insert_perm Z.leb x l). now constructor.
  - constructor; [now constructor |].
    constructor; [lia |]. revert Hy. apply Forall_impl. lia.
Qed.

Lemma isort_sorted (l : list Z) : StronglySorted Z.le (isort Z.leb l).
Proof.
  unfold isort.
  assert (H : forall acc, StronglySorted Z.le acc ->
            StronglySorted Z.le (fold_left (fun acc x => insert Z.leb x acc) l acc)).
  { induction l as [| x l IH]; intros acc Hacc; cbn [fold_left]; [exact Hacc |].
    apply IH. now apply insert_sorted. }
  apply H. constructor.
Qed.

Lemma sorted_strict (l : list Z) :
  StronglySorted Z.le l -> NoDup l -> StronglySorted Z.lt l.
Proof.
  induction 1 as [| x l Hs IH Hx]; intros Hnd; constructor.
  - apply IH. now inversion Hnd.
  - inversion Hnd as [| ? ? Hnotin _]; subst.
    rewrite Forall_forall in Hx |- *. intros y Hy.
    specialize (Hx y Hy). assert (x <> y) by (intros ->; contradiction). lia.
Qed.

(** On ints, [sorted] is the insertion sort by [<=]. *)
Lemma sorted_ints (zs : list Z) :
  sorted (map PInt zs) = Ok (map PInt (isort Z.leb zs)).
Proof.
  assert (Hins : forall x l, insert num_leb (PInt x) (map PInt l)
                             = map PInt (insert Z.leb x l)).
  { intros x l. induction l as [| y l IH]; [reflexivity |].
    cbn [map insert]. change (num_leb (PInt y) (PInt x)) with (y <=? x).
    destruct (y <=? x); [cbn [map]; now rewrite IH | reflexivity]. }
  assert (Hsort : forall l acc,
            fold_left (fun acc x => insert num_leb x acc) (map PInt l) (map PInt acc)
            = map PInt (fold_left (fun acc x => insert Z.leb x acc) l acc)).
  { induction l as [| x l IH]; intros acc; [reflexivity |].
    cbn [map fold_left]. now rewrite Hins, IH. }
  destruct zs as [| a [| b zs]]; [reflexivity | reflexivity |].
  unfold sorted. cbn [map].
  replace (forallb is_num (PInt a :: PInt b :: map PInt zs)) with true.
  - unfold isort. f_equal. apply (Hsort (a :: b :: zs) []).
  - symmetry. cbn [forallb is_num key_num andb].
    induction zs as [| z zs IH]; [reflexivity | exact IH].
Qed.

(** In a mapping with distinct int keys, a key leads to its entry. *)
Lemma assoc_int_keyed (entries : list (Z * pyval)) (z : Z) (v : pyval) :
  NoDup (map fst entries) -> In (z, v) entries ->
  assoc (PInt z) (int_keyed entries) = Some v.
Proof.
  induction entries as [| [z' v'] entries IH]; intros Hnd Hin; [destruct Hin |].
  cbn [int_keyed map assoc fst snd]. change (key_eqb (PInt z') (PInt z)) with (z' =? z).
  inversion Hnd as [| ? ? Hnotin Hnd']; subst.
  destruct Hin as [Heq | Hin].
  - injection Heq as -> ->. now rewrite Z.eqb_refl.
  - destruct (Z.eqb_spec z' z) as [-> | _].
    + destruct Hnotin. apply in_map_iff. now exists (z, v).
    + now apply IH.
Qed.

Lemma print_int_keyed (entries : list (Z * pyval)) (shown : list (Z * pyval))
  (n : nat) :
  NoDup (map fst entries) -> incl shown entries ->
  print_revids (int_keyed entries) (map PInt (map fst shown)) n
  = mkRun (Ok tt) n (map print_entry shown).
Proof.
  intros Hnd. induction shown as [| [z v] shown IH]; intros Hincl; [reflexivity |].
  cbn [map fst print_revids].
  rewrite (assoc_int_keyed entries z v Hnd) by (apply Hincl; now left).
  rewrite bind_lift_ok, bind_emit, IH by (intros e He; apply Hincl; now right).
  reflexivity.
Qed.

(** The dict [get_revinfo_from_json] builds has keys that are apart. *)
Lemma store_keys_in (k v : pyval) (m : mapping) (x : pyval) :
  In x (map fst (store k v m)) -> In x (map fst m) \/ x = k.
Proof.
  induction m as [| [k' v'] m IH]; cbn [store map fst].
  - intros [<- | []]. now right.
  - destruct (key_eqb k' k); cbn [map fst]; [now left |].
    intros [<- | Hin]; [left; now left |].
    destruct (IH Hin) as [H | H]; [left; now right | now right].
Qed.

Lemma store_apart (k v : pyval) (m : mapping) :
  apart (map fst m) -> apart (map fst (store k v m)).
Proof.
  unfold apart. induction m as [| [k' v'] m IH]; cbn [store map fst]; intros H.
  - repeat constructor.
  - inversion H as [| ? ? Hk' Hm]; subst.
    destruct (key_eqb k' k) eqn:Hkk; cbn [map fst]; [now constructor |].
    constructor; [| now apply IH].
    apply Forall_forall. intros x Hx.
    destruct (store_keys_in k v m x Hx) as [Hin | ->]; [| exact Hkk].
    rewrite Forall_forall in Hk'. now apply Hk'.
Qed.

Lemma record_revisions_apart (revisions : list pyval) :
  forall m m', record_revisions revisions m = Ok m' ->
    apart (map fst m) -> apart (map fst m').
Proof.
  induction revisions as [| revision rest IH]; intros m m'; cbn [record_revisions].
  - now intros [= <-].
  - destruct (item revision "timestamp") as [ts | |]; cbn [obind]; try discriminate.
    destruct (item revision "revid") as [revid | |]; cbn [obind]; try discriminate.
    unfold setitem. destruct (hashable revid); cbn [obind]; try discriminate.
    intros Hrec Hm. apply (IH _ _ Hrec). now apply store_apart.
Qed.

Lemma record_pages_apart (revinfo : pyval) (pages : list pyval) :
  forall m m', record_pages revinfo pages m = Ok m' ->
    apart (map fst m) -> apart (map fst m').
Proof.
  induction pages as [| page rest IH]; intros m m'; cbn [record_pages].
  - now intros [= <-].
  - destruct (item revinfo "query") as [query | |]; cbn [obind]; try discriminate.
    destruct (item query "pages") as [all_pages | |]; cbn [obind]; try discriminate.
    destruct (getitem all_pages page) as [this_page | |]; cbn [obind]; try discriminate.
    destruct (item this_page "revisions") as [revisions | |]; cbn [obind]; try discriminate.
    destruct (iter revisions) as [revs | |]; cbn [obind]; try discriminate.
    destruct (record_revisions revs m) as [m1 | |] eqn:Hrevs; cbn [obind]; try discriminate.
    intros Hrec Hm. apply (IH _ _ Hrec). now apply (record_revisions_apart revs m).
Qed.

Lemma parsed_apart (content : body) (m : mapping) (badrevs : list string) :
  get_revinfo_from_json content = RPair m badrevs -> apart (map fst m).
Proof.
  unfold get_revinfo_from_json.
  destruct (json_loads content) as [revinfo | e |]; cbn [obind try_except];
    [| destruct (is_Exception e); discriminate | discriminate].
  destruct (item revinfo "query") as [query | e |]; cbn [obind try_except];
    [| destruct (is_Exception e); discriminate | discriminate].
  destruct (contains "badrevids" query) as [has_bad | e |]; cbn [obind try_except];
    [| destruct (is_Exception e); discriminate | discriminate].
  destruct (if has_bad then _ else _) as [bad | e |]; cbn [obind try_except];
    [| destruct (is_Exception e); discriminate | discriminate].
  destruct (contains "pages" query) as [has_pages | e |]; cbn [obind try_except];
    [| destruct (is_Exception e); discriminate | discriminate].
  destruct has_pages; cbn [negb]; [| discriminate].
  destruct (item query "pages") as [pages | e |]; cbn [obind try_except];
    [| destruct (is_Exception e); discriminate | discriminate].
  destruct (iter pages) as [ps | e |]; cbn [obind try_except];
    [| destruct (is_Exception e); discriminate | discriminate].
  destruct (record_pages revinfo ps []) as [m' | e |] eqn:Hrec;
    cbn [obind try_except];
    [| destruct (is_Exception e); discriminate | discriminate].
  intros [= <- _]. apply (record_pages_apart revinfo ps [] m' Hrec). constructor.
Qed.

Lemma apart_ints (zs : list Z) : apart (map PInt zs) -> NoDup zs.
Proof.
  unfold apart. induction zs as [| z zs IH]; cbn [map]; intros H; constructor;
    inversion H as [| ? ? Hz Hzs]; subst.
  - intros Hin. rewrite Forall_forall in Hz.
    specialize (Hz (PInt z) (in_map PInt zs z Hin)).
    cbn in Hz. now rewrite Z.eqb_refl in Hz.
  - now apply IH.
Qed.

(** C7. When the batch lookup returns a mapping whose revision ids are
    ints, [display_revinfo] prints each of its entries once, the revision id
    and then the timestamp, in the strictly ascending order of the ids,
    whatever their order in the answer; an entry whose timestamp is a string
    makes the line of the id in decimal, a space, and the timestamp. *)
Theorem C7_prints_in_id_order :
  forall (content : body) (entries : list (Z * pyval))
         (badrevs : list string) (n : nat),
    get_revinfo_from_json content = RPair (int_keyed entries) badrevs ->
    exists shown,
      display_revinfo (int_keyed entries) n
      = mkRun (Ok tt) n (map print_entry shown)
      /\ Permutation shown entries
      /\ StronglySorted Z.lt (map fst shown)
      /\ forall z timestamp,
           In (z, PStr timestamp) shown ->
           printed_line [PInt z; PStr timestamp]
           = Some (str_of_Z z ++ " " ++ timestamp)%string.
Proof.
  intros content entries badrevs n Hparsed.
  assert (Hnd : NoDup (map fst entries)).
  { apply apart_ints. apply parsed_apart in Hparsed.
    unfold int_keyed in Hparsed. rewrite map_map in Hparsed. cbn [fst] in Hparsed.
    now rewrite map_map. }
  set (value := fun z => match assoc (PInt z) (int_keyed entries) with
                         | Some v => v
                         | None => PNone
                         end).
  assert (Hvalue : forall e, In e entries -> (fst e, value (fst e)) = e).
  { intros [z v] Hin. cbn [fst]. unfold value.
    now rewrite (assoc_int_keyed entries z v Hnd Hin). }
  set (ids := isort Z.leb (map fst entries)).
  assert (Hperm : Permutation ids (map fst entries)) by apply isort_perm.
  exists (map (fun z => (z, value z)) ids).
  assert (Hfst : map fst (map (fun z => (z, value z)) ids) = ids).
  { rewrite map_map. cbn [fst]. apply map_id. }
  assert (Hshown : Permutation (map (fun z => (z, value z)) ids) entries).
  { rewrite (Permutation_map (fun z => (z, value z)) Hperm), map_map.
    rewrite (map_ext_in _ (fun e => e)) by exact Hvalue. now rewrite map_id. }
  repeat split.
  - unfold display_revinfo. unfold int_keyed at 1. rewrite map_map. cbn [fst].
    rewrite <- (map_map fst PInt), sorted_ints, bind_lift_ok. fold ids.
    rewrite <- Hfst at 1. apply print_int_keyed; [exact Hnd |].
    intros e He. now apply (Permutation_in _ Hshown).
  - exact Hshown.
  - rewrite Hfst. apply sorted_strict; [apply isort_sorted |].
    apply (Permutation_NoDup (Permutation_sym Hperm) Hnd).
Qed.

Lemma C7_witness :
  exists shown,
    display_revinfo (int_keyed Samples.three_entries) 0%nat
    = mkRun (Ok tt) 0%nat (map print_entry shown)
    /\ StronglySorted Z.lt (map fst shown).
Proof.
  destruct (C7_prints_in_id_order (Some Samples.three_revisions)
              Samples.three_entries [] 0%nat eq_refl)
    as (shown & Hrun & _ & Hsorted & _).
  now exists shown.
Defined.

End Claims.

(** ** Further properties of the script *)

Module Extras.
Import Py Script Spec Shapes ScriptFacts.

Local Open Scope list_scope.

(** *** Passes: pauses and the redo list *)

Lemma sleeps_app (t u : list event) : sleeps (t ++ u) = sleeps t ++ sleeps u.
Proof. unfold sleeps. now rewrite flat_map_app. Qed.

Lemma listed_bad_app (t u : list event) :
  listed_bad (t ++ u) = listed_bad t ++ listed_bad u.
Proof. unfold listed_bad. now rewrite flat_map_app. Qed.

Lemma quiet_prints (lines : list (list pyval)) :
  sleeps (map EPrint lines) = [] /\ listed_bad (map EPrint lines) = []
  /\ requests (map EPrint lines) = [].
Proof. induction lines as [| l lines IH]; [now repeat split | exact IH]. Qed.

Lemma quiet_complaint (req : request) (res : http_result) :
  sleeps (complaint req res) = [] /\ listed_bad (complaint req res) = []
  /\ requests (complaint req res) = [].
Proof.
  unfold complaint. destruct res as [s c |]; [destruct (s =? 200) |];
    now repeat split.
Qed.

Section Passes.
Variable remote : nat -> request -> http_result.

Lemma pass_run_paced d bs redo n r :
  pass_run remote d bs redo n r ->
  sleeps (trace r) = repeat 5 (List.length (requests (trace r)) - 1)
  /\ (bs <> [] -> requests (trace r) <> []).
Proof.
  induction 1 as [redo n | batch rest redo n e req res Hv
                  | batch rest redo n p lines e req res Hv
                  | batch rest redo n p lines r req res Hv Hrun [IH Hne]];
    cbn [trace].
  - split; [reflexivity | congruence].
  - change (EGet req res :: complaint req res)
      with ([EGet req res] ++ complaint req res).
    rewrite sleeps_app, requests_app.
    destruct (quiet_complaint req res) as (-> & _ & ->).
    split; [reflexivity | discriminate].
  - change (EGet req res :: map EPrint lines)
      with ([EGet req res] ++ map EPrint lines).
    rewrite sleeps_app, requests_app.
    destruct (quiet_prints lines) as (-> & _ & ->).
    split; [reflexivity | discriminate].
  - change (EGet req res :: ?t) with ([EGet req res] ++ t).
    rewrite !sleeps_app, !requests_app.
    destruct (quiet_prints lines) as (-> & _ & ->).
    split; [| discriminate].
    cbn [app sleeps requests flat_map List.length].
    destruct rest as [| b rest']; cbn [app sleeps requests flat_map].
    + inversion Hrun; subst. reflexivity.
    + fold (sleeps (trace r)). rewrite IH.
      assert (Hpos : requests (trace r) <> []) by (apply Hne; discriminate).
      destruct (requests (trace r)) as [| q qs]; [congruence |].
      cbn [List.length Nat.sub repeat]. now rewrite Nat.sub_0_r.
Qed.

Lemma pass_run_listed d bs redo n r :
  pass_run remote d bs redo n r ->
  forall redo', result r = Ok redo' -> redo' = redo ++ listed_bad (trace r).
Proof.
  induction 1 as [redo n | batch rest redo n e req res Hv
                  | batch rest redo n p lines e req res Hv
                  | batch rest redo n p lines r req res Hv Hrun IH];
    cbn [result trace]; intros redo' Hres; try discriminate.
  - injection Hres as <-. now rewrite app_nil_r.
  - rewrite (IH _ Hres).
    change (EGet req res :: ?t) with ([EGet req res] ++ t).
    rewrite !listed_bad_app.
    destruct (quiet_prints lines) as (_ & -> & _).
    assert (Hs : listed_bad (match rest with [] => [] | _ => [ESleep 5] end) = [])
      by (now destruct rest).
    rewrite Hs. cbn [app listed_bad flat_map]. rewrite Hv, app_nil_r.
    now rewrite app_assoc.
Qed.

End Passes.

(** X1. Within one call of [do_revrange] the script pauses for 5 seconds
    between two requests and nowhere else: whether the pass returns or
    fails, its trace holds one pause of 5 fewer than it holds requests. *)
Theorem X1_pass_pauses_between_requests :
  forall (remote : nat -> request -> http_result) (revrange : list Z)
         (d : string) (n : nat),
    let r := do_revrange remote revrange (Some d) n in
    sleeps (trace r) = repeat 5 (List.length (requests (trace r)) - 1).
Proof.
  intros remote revrange d n r. subst r. rewrite do_revrange_spec.
  apply (pass_run_paced remote d _ _ _ _ (spec_pass_run remote d _ _ _)).
Qed.

(** X2. The redo list [do_revrange] returns holds exactly the bad ids the
    answers to its requests listed, in the order of the requests. *)
Theorem X2_redo_is_what_answers_listed :
  forall (remote : nat -> request -> http_result) (revrange : list Z)
         (d : string) (n : nat) (redo : list string),
    result (do_revrange remote revrange (Some d) n) = Ok redo ->
    redo = listed_bad (trace (do_revrange remote revrange (Some d) n)).
Proof.
  intros remote revrange d n redo. rewrite do_revrange_spec. intros Hres.
  apply (pass_run_listed remote d _ [] _ _ (spec_pass_run remote d _ _ _) _ Hres).
Qed.

Lemma X2_witness :
  ["6"] = listed_bad (trace (do_revrange Samples.remote_six_bad [6] (Some Samples.wiki) 0%nat)).
Proof.
  exact (X2_redo_is_what_answers_listed Samples.remote_six_bad [6] Samples.wiki
           0%nat ["6"] eq_refl).
Defined.

(** *** The retry loop on an id that is no number *)

(** X3. When the redo list holds an id that [int] does not accept, the
    retry loop raises [ValueError] before it makes any request. *)
Theorem X3_retry_raises_on_non_number :
  forall (remote : nat -> request -> http_result) (passes : nat)
         (redo : list string) (domain : option string) (n : nat) (rev : string),
    In rev redo -> int_of_str rev = None ->
    retry remote (S passes) redo domain n = mkRun (Raise ValueError) n [].
Proof.
  intros remote passes redo domain n rev Hin Hnone.
  destruct redo as [| first rest]; [destruct Hin |].
  cbn [retry]. pose proof (next_ids_spec (first :: rest)) as Hspec.
  destruct (next_ids (first :: rest)) as [ids | e |].
  - exfalso. clear - Hspec Hin Hnone.
    induction Hspec as [| r id redo ids Hsucc _ IH]; [destruct Hin |].
    destruct Hin as [-> | Hin]; [| now apply IH].
    unfold successor in Hsucc. now rewrite Hnone in Hsucc.
  - destruct Hspec as [-> _]. reflexivity.
  - destruct Hspec.
Qed.

Lemma X3_witness :
  retry Samples.remote_up 1 ["7"; "7a"] (Some Samples.wiki) 0%nat
  = mkRun (Raise ValueError) 0%nat [].
Proof.
  apply (X3_retry_raises_on_non_number Samples.remote_up 0%nat ["7"; "7a"]
           (Some Samples.wiki) 0%nat "7a").
  - right. left. reflexivity.
  - reflexivity.
Defined.


(** *** What ends a run: no answer, a line on stderr *)

Lemma in_stderr_text (t : list event) (text : string) :
  In text (stderr_text t) -> In (EStderr text) t.
Proof.
  unfold stderr_text. intros H. apply in_flat_map in H as (e & He & Hte).
  destruct e; cbn in Hte; try contradiction.
  destruct Hte as [-> | []]. exact He.
Qed.

Section Endings.
Variable remote : nat -> request -> http_result.

Lemma no_stderr_in_prints (lines : list (list pyval)) (text : string) :
  ~ In (EStderr text) (map EPrint lines).
Proof. intros H. apply in_map_iff in H as (x & Hx & _). discriminate. Qed.

(** A pass that writes to stderr ends with [TypeError]. *)
Lemma pass_run_stderr d bs redo n r :
  pass_run remote d bs redo n r ->
  forall text, In (EStderr text) (trace r) -> result r = Raise TypeError.
Proof.
  induction 1 as [redo n | batch rest redo n e req res Hv
                  | batch rest redo n p lines e req res Hv
                  | batch rest redo n p lines r req res Hv Hrun IH];
    cbn [trace result]; intros text Hin.
  - destruct Hin.
  - destruct Hin as [Hin | Hin]; [discriminate |].
    unfold complaint in Hin. destruct res as [s c |]; [| destruct Hin].
    cbn [verdict] in Hv. destruct (s =? 200); [destruct Hin | congruence].
  - destruct Hin as [Hin | Hin]; [discriminate |].
    now destruct (no_stderr_in_prints lines text).
  - destruct Hin as [Hin | Hin]; [discriminate |].
    apply in_app_or in Hin as [Hin | Hin];
      [now destruct (no_stderr_in_prints lines text) |].
    apply in_app_or in Hin as [Hin | Hin]; [| now apply (IH text)].
    destruct rest; [destruct Hin |]. destruct Hin as [Hin | []]. discriminate.
Qed.

Lemma retry_stderr (d : string) (passes : nat) :
  forall (redo : list string) (n : nat) (text : string),
    In (EStderr text) (trace (retry remote passes redo (Some d) n)) ->
    result (retry remote passes redo (Some d) n) = Raise TypeError.
Proof.
  induction passes as [| passes IH]; intros redo n text.
  - destruct redo; intros [].
  - destruct redo as [| rev rest]; [intros [] |].
    rewrite retry_run by discriminate.
    destruct (next_ids (rev :: rest)) as [ids | e |]; [| intros [] | intros []].
    pose proof (spec_pass_run remote d (batches ids) [] n) as Hrun.
    cbv zeta.
    destruct (result (spec_pass remote (Some d) (batches ids) [] n))
      as [redo' | e |] eqn:Hres; cbn [trace result]; intros Hin.
    + apply in_app_or in Hin as [Hin | Hin]; [| now apply (IH _ _ text)].
      pose proof (pass_run_stderr _ _ _ _ _ Hrun _ Hin). congruence.
    + pose proof (pass_run_stderr _ _ _ _ _ Hrun _ Hin). congruence.
    + now destruct (pass_run_ends _ _ _ _ _ _ Hrun).
Qed.

Lemma after_opts_stderr (passes : nat) (a : args) (d : string) (n : nat)
  (text : string) :
  domain a = Some d -> isdigit (start_rev a) = true ->
  In (EStderr text) (trace (after_opts remote passes a n)) ->
  result (after_opts remote passes a n) = Raise TypeError.
Proof.
  intros Hd Hdig.
  assert (Hsaid : ~ In (EStderr text) (if verbose a then [EVerbose a] else [])).
  { destruct (verbose a); cbn; intuition discriminate. }
  destruct (PyFacts.int_str_outcome (start_rev a)) as [(start & Hs) | Hs];
    [| rewrite (after_opts_stops remote passes a _ n Hs); cbn [trace];
       intros H; now destruct Hsaid].
  rewrite (after_opts_run remote passes a d start n Hd Hs). cbv zeta.
  destruct (int (end_rev a)) as [stop | e |]; cbn [trace result];
    [| intros H; now destruct Hsaid | intros H; now destruct Hsaid].
  set (ids := map str_of_Z (range start stop 10000000)).
  pose proof (spec_pass_run remote d (batches ids) [] n) as Hrun.
  destruct (result (spec_pass remote (Some d) (batches ids) [] n))
    as [redo | e |] eqn:Hres; cbn [trace result]; intros Hin;
    apply in_app_or in Hin as [Hin | Hin]; try (now destruct Hsaid).
  - apply in_app_or in Hin as [Hin | Hin].
    + pose proof (pass_run_stderr _ _ _ _ _ Hrun _ Hin). congruence.
    + apply in_app_or in Hin as [Hin | Hin]; [| now apply (retry_stderr d passes _ _ text)].
      destruct redo; [destruct Hin |]. destruct Hin as [Hin | []]. discriminate.
  - pose proof (pass_run_stderr _ _ _ _ _ Hrun _ Hin). congruence.
  - now destruct (pass_run_ends _ _ _ _ _ _ Hrun).
Qed.

(** What [process_opts] can have done when its trace is not empty. *)
Lemma process_opts_trace (argv : cmdline) (n : nat) :
  usage_exit (process_opts remote argv n) n
  \/ process_opts remote argv n
     = mkRun (result (process_opts remote argv n)) n []
  \/ exists d,
       (remote n (maxrev_request d) = NoResponse
        /\ process_opts remote argv n
           = mkRun (Raise RequestException) (S n)
               [EGet (maxrev_request d) NoResponse])
       \/ (exists c a, remote n (maxrev_request d) = Response 200 c
                       /\ process_opts remote argv n
                          = mkRun (Ok a) (S n)
                              [EGet (maxrev_request d) (Response 200 c)])
       \/ (exists s c a, remote n (maxrev_request d) = Response s c
                         /\ s <> 200 /\ end_rev a = PNone
                         /\ process_opts remote argv n
                            = mkRun (Ok a) (S n)
                                [EGet (maxrev_request d) (Response s c);
                                 EStderr (failed_message (maxrev_request d))]).
Proof.
  pose proof (process_opts_run remote argv n) as H.
  destruct argv as [err | options remainder]; [now left |].
  destruct (forallb recognized options); [| now left].
  destruct remainder as [| opt rest]; [| now left].
  rewrite H, check_opts_run. clear H.
  destruct (domain_truthy (domain (settings options))) eqn:Hdom; cbn [negb];
    [| left; apply usage_exits; discriminate].
  destruct (isdigit (start_rev (settings options))); cbn [negb];
    [| left; apply usage_exits; discriminate].
  destruct (domain_truthy_some _ Hdom) as (d & Hd & _). rewrite Hd.
  destruct (truthy (end_rev (settings options))).
  - destruct (isdigit_method (end_rev (settings options))) as [[] | e |];
      [right; now left | left; apply usage_exits; discriminate
       | right; now left | right; now left].
  - right. right. exists d. unfold bind. rewrite get_max_rev_run.
    destruct (remote n (maxrev_request d)) as [s c |]; [| now left].
    right. destruct (Z.eqb_spec s 200) as [-> | Hs]; cbn [result clock trace ret app].
    + left. now exists c, (with_end (settings options) (get_revid_from_json c)).
    + right. exists s, c, (with_end (settings options) PNone). now repeat split.
Qed.

(** No answer to a request ends the run with the exception of [requests]. *)
Lemma do_main_no_response (passes : nat) (argv : cmdline) (n : nat) req :
  In (EGet req NoResponse) (trace (do_main remote passes argv n)) ->
  result (do_main remote passes argv n) = Raise RequestException.
Proof.
  intros Hin.
  destruct (is_revinfo_request req) eqn:Hrev;
    [now apply (do_main_fatal remote passes argv n req NoResponse) |].
  rewrite do_main_after_opts, trace_bind, result_bind in *.
  destruct (process_opts_trace argv n)
    as [(Hr & _ & m & Ht) | [Hq | (d & [[_ Hp] | [(c & a & _ & Hp)
                                                 | (s & c & a & _ & _ & _ & Hp)]])]].
  - rewrite Hr, Ht in Hin. cbn in Hin. intuition discriminate.
  - rewrite Hq in Hin |- *. cbn [result trace clock] in *.
    destruct (result (process_opts remote argv n)) as [a | e |] eqn:Hres;
      try (now destruct Hin).
    cbn [app] in Hin.
    destruct (process_opts_returns remote argv n a)
      as (options & d & _ & Hd & _ & _ & _ & Hdig & _).
    { exact Hres. }
    destruct (after_opts_fatal remote passes a d n req NoResponse Hd Hdig Hin)
      as [Hreq _]. congruence.
  - now rewrite Hp.
  - rewrite Hp in Hin |- *. cbn [result trace clock] in *.
    destruct Hin as [Hin | Hin]; [discriminate |].
    destruct (process_opts_returns remote argv n a)
      as (options & d' & _ & Hd & _ & _ & _ & Hdig & _); [now rewrite Hp |].
    destruct (after_opts_fatal remote passes a d' _ req NoResponse Hd Hdig Hin)
      as [Hreq _]. congruence.
  - rewrite Hp in Hin |- *. cbn [result trace clock] in *.
    destruct Hin as [Hin | [Hin | Hin]]; try discriminate.
    destruct (process_opts_returns remote argv n a)
      as (options & d' & _ & Hd & _ & _ & _ & Hdig & _); [now rewrite Hp |].
    destruct (after_opts_fatal remote passes a d' _ req NoResponse Hd Hdig Hin)
      as [Hreq _]. congruence.
Qed.

(** A line on stderr comes with an abnormal end. *)
Lemma do_main_stderr (passes : nat) (argv : cmdline) (n : nat) (text : string) :
  In (EStderr text) (trace (do_main remote passes argv n)) ->
  result (do_main remote passes argv n) = Raise (SystemExit 1)
  \/ result (do_main remote passes argv n) = Raise TypeError
  \/ (result (do_main remote passes argv n) = Raise ValueError
      /\ exists options,
           argv = Parsed options []
           /\ isdigit (given_start options) = true
           /\ int_of_str (given_start options) = None).
Proof.
  rewrite do_main_after_opts, trace_bind, result_bind. intros Hin.
  destruct (process_opts_trace argv n)
    as [(Hr & _ & m & Ht) | [Hq | (d & [[_ Hp] | [(c & a & _ & Hp)
                                                 | (s & c & a & _ & _ & Hend & Hp)]])]].
  - left. now rewrite Hr.
  - rewrite Hq in Hin |- *. cbn [result trace clock] in *.
    destruct (result (process_opts remote argv n)) as [a | e |] eqn:Hres;
      try (now destruct Hin).
    cbn [app] in Hin.
    destruct (process_opts_returns remote argv n a)
      as (options & d & _ & Hd & _ & _ & _ & Hdig & _).
    { exact Hres. }
    right. left. now apply (after_opts_stderr passes a d n text).
  - rewrite Hp in Hin. cbn in Hin. intuition discriminate.
  - rewrite Hp in Hin |- *. cbn [result trace clock] in *.
    destruct Hin as [Hin | Hin]; [discriminate |].
    destruct (process_opts_returns remote argv n a)
      as (options & d' & _ & Hd & _ & _ & _ & Hdig & _); [now rewrite Hp |].
    right. left. now apply (after_opts_stderr passes a d' _ text).
  - rewrite Hp. cbn [result trace clock]. right.
    destruct (process_opts_returns remote argv n a)
      as (options & d' & Hargv & Hd & _ & _ & Hgiven & Hdig & _);
      [now rewrite Hp |].
    destruct (int_of_str (start_rev a)) as [start |] eqn:Hs.
    + left. rewrite (after_opts_run remote passes a d' start _ Hd), Hend;
        [reflexivity |]. cbn [int]. now rewrite Hs.
    + right. rewrite (after_opts_stops remote passes a ValueError);
        [| cbn [int]; now rewrite Hs].
      split; [reflexivity |]. exists options.
      rewrite <- Hgiven. now repeat split.
Qed.

End Endings.

(** X4. When no answer arrives for a request (connection failure, timeout),
    nothing catches the exception of [requests]: the run ends with it, and
    nothing was written to stderr. *)
Theorem X4_no_answer_ends_run :
  forall (remote : nat -> request -> http_result) (passes : nat)
         (argv : cmdline) (req : request),
    In (EGet req NoResponse) (trace (do_main remote passes argv 0%nat)) ->
    result (do_main remote passes argv 0%nat) = Raise RequestException
    /\ stderr_text (trace (do_main remote passes argv 0%nat)) = [].
Proof.
  intros remote passes argv req Hin.
  pose proof (do_main_no_response remote passes argv 0%nat req Hin) as Hres.
  split; [exact Hres |].
  destruct (stderr_text (trace (do_main remote passes argv 0%nat)))
    as [| text rest] eqn:Ht; [reflexivity |].
  assert (Hin' : In (EStderr text) (trace (do_main remote passes argv 0%nat))).
  { apply in_stderr_text. rewrite Ht. now left. }
  destruct (do_main_stderr remote passes argv 0%nat text Hin')
    as [H | [H | [H _]]]; congruence.
Qed.

Lemma X4_witness :
  result (do_main remote_silent 0 Samples.sample_argv 0%nat)
  = Raise RequestException.
Proof.
  refine (proj1 (X4_no_answer_ends_run remote_silent 0%nat Samples.sample_argv
                   (revinfo_request Samples.wiki ["1"; "10000001"; "20000001"]) _)).
  vm_compute. left. reflexivity.
Defined.

(** X5. Whenever the script writes to stderr, the run ends abnormally: with
    exit status 1 after the usage text; or, after the line about a request
    that failed, with [TypeError], or with [ValueError] when the start
    revision is made of digits that [int] does not read. *)
Theorem X5_stderr_means_abnormal_end :
  forall (remote : nat -> request -> http_result) (passes : nat)
         (argv : cmdline) (text : string),
    In text (stderr_text (trace (do_main remote passes argv 0%nat))) ->
    result (do_main remote passes argv 0%nat) = Raise (SystemExit 1)
    \/ result (do_main remote passes argv 0%nat) = Raise TypeError
    \/ (result (do_main remote passes argv 0%nat) = Raise ValueError
        /\ exists options,
             argv = Parsed options []
             /\ isdigit (given_start options) = true
             /\ int_of_str (given_start options) = None).
Proof.
  intros remote passes argv text H.
  apply (do_main_stderr remote passes argv 0%nat text).
  now apply in_stderr_text.
Qed.

Lemma X5_witness :
  result (do_main Samples.remote_down 0 superscript_argv 0%nat)
  = Raise ValueError.
Proof.
  destruct (X5_stderr_means_abnormal_end Samples.remote_down 0%nat
              superscript_argv (failed_message (maxrev_request Samples.wiki)))
    as [H | [H | [H _]]].
  - vm_compute. left. reflexivity.
  - vm_compute in H. discriminate H.
  - vm_compute in H. discriminate H.
  - exact H.
Defined.


(** *** The command line that is accepted *)

Lemma last_given_last (names : list string) (options : list (string * string))
  (opt val : string) :
  one_of opt names = true ->
  last_given names (options ++ [(opt, val)]) = Some val.
Proof.
  intros Hopt. induction options as [| [o v] rest IH].
  - cbn [app last_given]. now rewrite Hopt.
  - cbn [app last_given]. now rewrite IH.
Qed.

Lemma truthy_domain (d : string) :
  d <> EmptyString -> domain_truthy (Some d) = true.
Proof. intros Hd. cbn. now destruct (String.eqb_spec d ""). Qed.

Lemma isdigit_nonempty (s : string) : isdigit s = true -> s <> EmptyString.
Proof. now destruct s. Qed.

Lemma accepted_run (remote : nat -> request -> http_result)
  (options : list (string * string)) (d e : string) (n : nat) :
  forallb recognized options = true ->
  given_domain options = Some d -> d <> EmptyString ->
  isdigit (given_start options) = true ->
  given_end options = Some e -> isdigit e = true ->
  process_opts remote (Parsed options []) n
  = mkRun (Ok (settings options)) n []
  /\ domain (settings options) = Some d
  /\ start_rev (settings options) = given_start options
  /\ end_rev (settings options) = PStr e.
Proof.
  intros Hrec Hd Hne Hstart Hend He.
  destruct (settings_fields options) as (Hsd & Hss & Hse).
  rewrite Hd in Hsd. rewrite Hend in Hse.
  repeat split; try assumption.
  pose proof (process_opts_run remote (Parsed options []) n) as Hrun.
  cbv beta iota in Hrun. rewrite Hrec in Hrun.
  rewrite Hrun, check_opts_run, Hsd, Hss, Hse, (truthy_domain d Hne), Hstart.
  cbn [negb truthy isdigit_method].
  destruct (String.eqb_spec e "") as [-> | _]; [discriminate |].
  cbn [negb]. now rewrite He.
Qed.

(** X6. A command line with recognized options only, nothing left over, a
    domain that is not empty, and start and end revisions that are numbers
    is accepted without a request and without output: [process_opts]
    returns the configuration in which each setting has the last value
    given for it (and the start revision is 1 when none was given). *)
Theorem X6_accepted_command_line :
  (forall (remote : nat -> request -> http_result)
          (options : list (string * string)) (d e : string) (n : nat),
      forallb recognized options = true ->
      given_domain options = Some d -> d <> EmptyString ->
      isdigit (given_start options) = true ->
      given_end options = Some e -> isdigit e = true ->
      process_opts remote (Parsed options []) n
      = mkRun (Ok (settings options)) n []
      /\ domain (settings options) = Some d
      /\ start_rev (settings options) = given_start options
      /\ end_rev (settings options) = PStr e)
  /\ (forall options val,
        given_domain (options ++ [("--domain", val)]) = Some val
        /\ given_start (options ++ [("--startrev", val)]) = val
        /\ given_end (options ++ [("--endrev", val)]) = Some val)
  /\ (forall options,
        last_given ["-s"; "--startrev"] options = None ->
        given_start options = "1"%string).
Proof.
  split; [| split].
  - intros remote options d e n. apply accepted_run.
  - intros options val. unfold given_domain, given_start, given_end.
    now rewrite !last_given_last.
  - intros options Hnone. unfold given_start. now rewrite Hnone.
Qed.

Lemma X6_witness :
  process_opts Samples.remote_down Samples.sample_argv 0%nat
  = mkRun (Ok (settings [("--domain", Samples.wiki); ("--startrev", "1");
                         ("--endrev", "25000000")])) 0%nat [].
Proof.
  refine (proj1 (proj1 X6_accepted_command_line Samples.remote_down
                   [("--domain", Samples.wiki); ("--startrev", "1");
                    ("--endrev", "25000000")]
                   Samples.wiki "25000000" 0%nat
                   eq_refl eq_refl _ eq_refl eq_refl eq_refl)).
  discriminate.
Defined.

(** X7. When no end revision is given, or an empty one, and the service
    answers the maximum-revision lookup with status 200, [process_opts]
    makes that one request and takes whatever [get_revid_from_json] reads in
    the answer as the end revision; when that is an int, the candidate ids
    run from the start revision, which is not negative, up to it (and
    building them raises [ValueError] when the start revision is made of
    digits that [int] does not read). *)
Theorem X7_end_taken_from_service :
  forall (remote : nat -> request -> http_result)
         (options : list (string * string)) (d : string) (content : body)
         (n : nat),
    forallb recognized options = true ->
    given_domain options = Some d -> d <> EmptyString ->
    isdigit (given_start options) = true ->
    given_end options = None \/ given_end options = Some EmptyString ->
    remote n (maxrev_request d) = Response 200 content ->
    process_opts remote (Parsed options []) n
    = mkRun (Ok (with_end (settings options) (get_revid_from_json content)))
        (S n) [EGet (maxrev_request d) (Response 200 content)]
    /\ forall r, get_revid_from_json content = PInt r ->
         candidates (with_end (settings options) (PInt r))
         = match int_of_str (given_start options) with
           | Some start => Ok (range start r 10000000)
           | None => Raise ValueError
           end
         /\ forall start,
              int_of_str (given_start options) = Some start -> 0 <= start.
Proof.
  intros remote options d content n Hrec Hd Hne Hstart Hend Hres.
  destruct (settings_fields options) as (Hsd & Hss & Hse).
  rewrite Hd in Hsd. split.
  - pose proof (process_opts_run remote (Parsed options []) n) as Hrun.
    cbv beta iota in Hrun. rewrite Hrec in Hrun.
    rewrite Hrun, check_opts_run, Hsd, Hss, Hse, (truthy_domain d Hne), Hstart.
    cbn [negb].
    assert (Hfalsy : truthy (match given_end options with
                             | Some e => PStr e | None => PNone end) = false)
      by (now destruct Hend as [-> | ->]).
    rewrite Hfalsy. unfold bind. rewrite get_max_rev_run, Hres.
    reflexivity.
  - intros r _. split.
    + unfold candidates. cbn [with_end start_rev end_rev int]. rewrite Hss.
      now destruct (int_of_str (given_start options)).
    + intros start Hint. apply (PyFacts.int_isdigit _ start Hstart).
      cbn [int]. now rewrite Hint.
Qed.

Lemma X7_witness :
  process_opts Samples.remote_up no_end_argv 0%nat
  = mkRun (Ok (with_end (settings [("-d", "de.wikipedia.org"); ("-d", Samples.wiki)])
                 (PInt 25000000)))
      1%nat [EGet (maxrev_request Samples.wiki)
                  (Response 200 (Some Samples.newest_revision))].
Proof.
  refine (proj1 (X7_end_taken_from_service Samples.remote_up
                   [("-d", "de.wikipedia.org"); ("-d", Samples.wiki)] Samples.wiki
                   (Some Samples.newest_revision) 0%nat
                   eq_refl eq_refl _ eq_refl (or_introl eq_refl) eq_refl)).
  discriminate.
Defined.

(** X8. When the end revision is not above the start revision there is
    nothing to sample: the run makes no request, prints no revision, and
    ends normally. *)
Theorem X8_empty_range_does_nothing :
  forall (remote : nat -> request -> http_result) (passes : nat)
         (options : list (string * string)) (d e : string) (start stop : Z),
    forallb recognized options = true ->
    given_domain options = Some d -> d <> EmptyString ->
    isdigit (given_start options) = true ->
    given_end options = Some e -> isdigit e = true ->
    int (PStr (given_start options)) = Ok start ->
    int (PStr e) = Ok stop ->
    stop <= start ->
    do_main remote passes (Parsed options []) 0%nat
    = mkRun (Ok tt) 0%nat
        (if verbose (settings options) then [EVerbose (settings options)] else []).
Proof.
  intros remote passes options d e start stop Hrec Hd Hne Hstart Hend He
         Hs He' Hle.
  destruct (accepted_run remote options d e 0%nat Hrec Hd Hne Hstart Hend He)
    as (Hrun & Hsd & Hss & Hse).
  rewrite do_main_after_opts, (bind_silent _ _ _ _ _ Hrun).
  rewrite (after_opts_run remote passes _ d start 0%nat Hsd);
    [| now rewrite Hss].
  rewrite Hse, He'. cbv zeta.
  assert (Hempty : range start stop 10000000 = []).
  { unfold range, range_len.
    now replace (start <? stop) with false by (symmetry; apply Z.ltb_ge; lia). }
  rewrite Hempty. cbn [map]. rewrite batches_nil. cbn [spec_pass ret result clock trace].
  rewrite retry_nil. cbn [result clock trace app]. now rewrite app_nil_r.
Qed.

Lemma X8_witness :
  do_main Samples.remote_up 3 empty_range_argv 0%nat = mkRun (Ok tt) 0%nat [].
Proof.
  refine (X8_empty_range_does_nothing Samples.remote_up 3%nat
            [("--domain", Samples.wiki); ("--startrev", "500"); ("--endrev", "500")]
            Samples.wiki
            "500" 500 500 eq_refl eq_refl _ eq_refl eq_refl eq_refl eq_refl
            eq_refl _).
  - discriminate.
  - lia.
Defined.


(** *** Reading the maximum revision *)

Lemma collect_revisions_all (entries : list pyval) (revss : list (list pyval)) :
  Forall2 entry_of entries revss ->
  forall acc, collect_revisions entries acc = Ok (acc ++ List.concat revss).
Proof.
  induction 1 as [| entry revs entries revss Hentry _ IH]; intros acc.
  - cbn. now rewrite app_nil_r.
  - cbn [collect_revisions List.concat]. unfold entry_of in Hentry.
    rewrite Hentry. cbn [obind iter]. now rewrite IH, app_assoc.
Qed.

(** X9. [get_revid_from_json] goes through the entries of [allrevisions],
    puts their revisions together, and returns the [revid] of the revision
    when there is exactly one in all; with none, or with more than one,
    however they are spread over the entries, and when the one revision has
    no [revid], it returns [None]. *)
Theorem X9_revid_of_the_one_revision :
  forall (v q : pyval) (entries : list pyval) (revss : list (list pyval)),
    item v "query" = Ok q ->
    item q "allrevisions" = Ok (PList entries) ->
    Forall2 entry_of entries revss ->
    get_revid_from_json (Some v)
    = match List.concat revss with
      | [first] => match item first "revid" with
                   | Ok revid => revid
                   | _ => PNone
                   end
      | _ => PNone
      end.
Proof.
  intros v q entries revss Hq Hall Hentries.
  unfold get_revid_from_json. cbn [json_loads obind]. rewrite Hq. cbn [obind].
  rewrite Hall. cbn [obind iter].
  rewrite (collect_revisions_all entries revss Hentries []). cbn [obind app].
  destruct (List.concat revss) as [| first [| second rest]]; [reflexivity | | reflexivity].
  destruct (item first "revid") as [revid | e |]; cbn [try_except];
    [reflexivity | now destruct (is_Exception e) | reflexivity].
Qed.

Lemma X9_witness :
  get_revid_from_json (Some Samples.newest_revision) = PInt 25000000.
Proof.
  refine (X9_revid_of_the_one_revision Samples.newest_revision _ _
            [[PDict [("revid", PInt 25000000); ("parentid", PInt 24999990)]]]
            eq_refl eq_refl _).
  repeat constructor.
Defined.

(** *** The ids of a request *)

Lemma no_bar_digits (s : string) : all_digits s = true -> no_bar s = true.
Proof.
  induction s as [| c r IH]; [reflexivity |]. cbn [all_digits no_bar].
  intros H. apply andb_true_iff in H as [Hc Hr]. rewrite (IH Hr), andb_true_r.
  apply negb_true_iff, Ascii.eqb_neq. intros ->. discriminate Hc.
Qed.

Lemma no_bar_str (z : Z) : no_bar (str_of_Z z) = true.
Proof.
  unfold str_of_Z. destruct (Z.ltb_spec z 0).
  - cbn [no_bar]. change (negb (Ascii.eqb "-" "|")) with true. cbn [andb].
    apply no_bar_digits, PyFacts.str_of_nonneg_digits. lia.
  - apply no_bar_digits, PyFacts.str_of_nonneg_digits. lia.
Qed.

Lemma bar_splits (a : string) : forall (b u v : string),
  no_bar a = true -> no_bar b = true ->
  (a ++ String "|" u)%string = (b ++ String "|" v)%string -> a = b /\ u = v.
Proof.
  induction a as [| c a IH]; intros [| c' b] u v Ha Hb H; cbn in H.
  - injection H as ->. now split.
  - injection H as <- _. discriminate Hb.
  - injection H as -> _. discriminate Ha.
  - injection H as -> H. cbn [no_bar] in Ha, Hb.
    apply andb_true_iff in Ha as [_ Ha]. apply andb_true_iff in Hb as [_ Hb].
    destruct (IH b u v Ha Hb H) as [-> ->]. now split.
Qed.

Lemma no_bar_whole (b : string) : forall (a v : string),
  no_bar a = true -> a <> (b ++ String "|" v)%string.
Proof.
  induction b as [| c b IH]; intros a v Ha H; subst a.
  - discriminate Ha.
  - cbn [String.append no_bar] in Ha. apply andb_true_iff in Ha as [_ Ha].
    now apply (IH _ v Ha).
Qed.

Lemma join_cons2 (x y : string) (l : list string) :
  String.concat "|" (x :: y :: l)
  = (x ++ String "|" (String.concat "|" (y :: l)))%string.
Proof. reflexivity. Qed.

(** X13. The [revids] parameter of a request tells the batch: two lists of
    ids written in decimal that make the same parameter, and so the same
    request, are the same list. *)
Theorem X13_request_tells_the_batch :
  forall (xs ys : list Z),
    (String.concat "|" (map str_of_Z xs) = String.concat "|" (map str_of_Z ys)
     -> xs = ys)
    /\ (forall d, get_revids_url (Some d) (map str_of_Z xs)
                  = get_revids_url (Some d) (map str_of_Z ys) -> xs = ys).
Proof.
  assert (Hjoin : forall xs ys : list Z,
    String.concat "|" (map str_of_Z xs) = String.concat "|" (map str_of_Z ys)
    -> xs = ys).
  { induction xs as [| x xs IH]; intros ys H.
    - destruct ys as [| y [| y' ys]]; [reflexivity | |].
      + cbn in H. now destruct (PyFacts.str_of_Z_nonempty y).
      + cbn [map] in H. rewrite join_cons2 in H.
        change (String.concat "|" []) with EmptyString in H.
        pose proof (PyFacts.str_of_Z_nonempty y).
        destruct (str_of_Z y); [congruence | discriminate].
    - destruct ys as [| y ys].
      + destruct xs as [| x' xs].
        * cbn in H. now destruct (PyFacts.str_of_Z_nonempty x).
        * cbn [map] in H. rewrite join_cons2 in H.
          change (String.concat "|" []) with EmptyString in H.
          pose proof (PyFacts.str_of_Z_nonempty x).
          destruct (str_of_Z x); [congruence | discriminate].
      + destruct xs as [| x' xs], ys as [| y' ys]; cbn [map] in H.
        * cbn in H. now rewrite (PyFacts.str_of_Z_inj x y H).
        * rewrite join_cons2 in H.
          change (String.concat "|" [str_of_Z x]) with (str_of_Z x) in H.
          now destruct (no_bar_whole _ _ _ (no_bar_str x) H).
        * rewrite join_cons2 in H. symmetry in H.
          change (String.concat "|" [str_of_Z y]) with (str_of_Z y) in H.
          now destruct (no_bar_whole _ _ _ (no_bar_str y) H).
        * rewrite !join_cons2 in H.
          destruct (bar_splits _ _ _ _ (no_bar_str x) (no_bar_str y) H) as [Hx Hrest].
          apply PyFacts.str_of_Z_inj in Hx. subst y. f_equal.
          apply IH. exact Hrest. }
  intros xs ys. split; [apply Hjoin |].
  intros d H. rewrite !get_revids_url_some in H. apply Hjoin.
  unfold revinfo_request in H. congruence.
Qed.

Lemma X13_witness : [6; 10] = [6; 10].
Proof.
  exact (proj1 (X13_request_tells_the_batch [6; 10] [6; 10]) eq_refl).
Defined.


(** *** Reading the revisions of an answer *)

Lemma has_key (k : string) (q : list (string * pyval)) :
  contains k (PDict q)
  = Ok (match lookup k q with Some _ => true | None => false end).
Proof.
  cbn [contains]. f_equal. induction q as [| [k' v] q IH]; [reflexivity |].
  cbn [existsb lookup fst]. destruct (String.eqb k' k); [reflexivity | exact IH].
Qed.

Lemma item_dict (fields : list (string * pyval)) (k : string) (v : pyval) :
  lookup k fields = Some v -> item (PDict fields) k = Ok v.
Proof. intros H. unfold item. cbn [getitem]. now rewrite H. Qed.

Lemma lookup_distinct (ps : list (string * pyval)) (k : string) (p : pyval) :
  NoDup (map fst ps) -> In (k, p) ps -> lookup k ps = Some p.
Proof.
  induction ps as [| [k' p'] ps IH]; intros Hnd Hin; [destruct Hin |].
  cbn [lookup]. inversion Hnd as [| ? ? Hnotin Hnd']; subst.
  destruct Hin as [Heq | Hin].
  - injection Heq as -> ->. now rewrite String.eqb_refl.
  - destruct (String.eqb_spec k' k) as [-> | _]; [| now apply IH].
    destruct Hnotin. apply in_map_iff. now exists (k, p).
Qed.

(** A key that is new goes to the end of the dict. *)
Lemma store_fresh (z : Z) (v : pyval) (acc : list (Z * pyval)) :
  ~ In z (map fst acc) ->
  store (PInt z) v (int_keyed acc) = int_keyed (acc ++ [(z, v)]).
Proof.
  induction acc as [| [z' v'] acc IH]; intros Hnew; [reflexivity |].
  cbn [int_keyed map store fst snd app].
  change (key_eqb (PInt z') (PInt z)) with (z' =? z).
  destruct (Z.eqb_spec z' z) as [-> | _]; [destruct Hnew; now left |].
  f_equal. apply IH. intros Hin. apply Hnew. now right.
Qed.

Lemma record_revisions_entries (revisions : list pyval)
  (entries : list (Z * pyval)) :
  Forall2 revision_of revisions entries ->
  forall acc, NoDup (map fst (acc ++ entries)) ->
    record_revisions revisions (int_keyed acc)
    = Ok (int_keyed (acc ++ entries)).
Proof.
  induction 1 as [| rev [z ts] revisions entries (fields & -> & Hid & Hts) _ IH];
    intros acc Hnd.
  - now rewrite app_nil_r.
  - cbn [record_revisions fst snd] in *.
    rewrite (item_dict fields "timestamp" ts Hts), (item_dict fields "revid" _ Hid).
    cbn [obind setitem hashable]. rewrite store_fresh.
    + change (acc ++ (z, ts) :: entries) with (acc ++ [(z, ts)] ++ entries).
      rewrite app_assoc. apply IH. now rewrite <- app_assoc.
    + rewrite map_app in Hnd. cbn [map fst] in Hnd.
      now apply NoDup_remove_2 in Hnd; intros Hin; apply Hnd, in_or_app; left.
Qed.

Section Pages.
Variables (v : pyval) (q ps : list (string * pyval)).
Hypothesis query_is : item v "query" = Ok (PDict q).
Hypothesis pages_are : lookup "pages" q = Some (PDict ps).

Lemma record_pages_entries (sub : list (string * pyval))
  (ess : list (list (Z * pyval))) :
  Forall2 (fun kp es => page_of (snd kp) es) sub ess ->
  (forall kp, In kp sub -> lookup (fst kp) ps = Some (snd kp)) ->
  forall acc, NoDup (map fst (acc ++ List.concat ess)) ->
    record_pages v (map (fun kp => PStr (fst kp)) sub) (int_keyed acc)
    = Ok (int_keyed (acc ++ List.concat ess)).
Proof.
  induction 1 as [| [k p] es sub ess (fields & revs & Hp & Hrevs & Hes) _ IH];
    intros Hsub acc Hnd.
  - cbn. now rewrite app_nil_r.
  - cbn [map record_pages fst snd List.concat] in *.
    rewrite query_is. cbn [obind].
    rewrite (item_dict q "pages" _ pages_are). cbn [obind getitem].
    pose proof (Hsub (k, p) (or_introl eq_refl)) as Hk. cbn [fst snd] in Hk.
    rewrite Hk. cbn [obind]. subst p.
    rewrite (item_dict fields "revisions" _ Hrevs). cbn [obind iter].
    rewrite app_assoc in Hnd.
    rewrite (record_revisions_entries revs es Hes acc).
    + cbn [obind]. rewrite IH; [now rewrite app_assoc | | exact Hnd].
      intros kp Hin. apply Hsub. now right.
    + rewrite map_app in Hnd. now apply NoDup_app_remove_r in Hnd.
Qed.

(** A page that cannot be read makes the loop over the pages fail. *)
Lemma record_revisions_fails (revisions : list pyval) (rev : pyval) :
  In rev revisions ->
  (forall t, item rev "timestamp" <> Ok t)
  \/ (forall k, item rev "revid" <> Ok k)
  \/ (exists k, item rev "revid" = Ok k /\ hashable k = false) ->
  forall m r, record_revisions revisions m <> Ok r.
Proof.
  intros Hin Hbad. induction revisions as [| first rest IH]; [destruct Hin |].
  intros m r. cbn [record_revisions].
  destruct (item first "timestamp") as [ts | |] eqn:Hts; cbn [obind];
    try discriminate.
  destruct (item first "revid") as [revid | |] eqn:Hid; cbn [obind];
    try discriminate.
  unfold setitem. destruct (hashable revid) eqn:Hh; cbn [obind]; try discriminate.
  destruct Hin as [-> | Hin]; [| now apply IH].
  destruct Hbad as [Ht | [Hk | (k & Hk & Hu)]].
  - now destruct (Ht ts).
  - now destruct (Hk revid).
  - congruence.
Qed.

Lemma record_pages_fails (keys : list string) (k : string) (p : pyval) :
  In k keys -> lookup k ps = Some p -> unreadable p ->
  forall m r, record_pages v (map PStr keys) m <> Ok r.
Proof.
  intros Hin Hp Hbad. induction keys as [| first rest IH]; [destruct Hin |].
  intros m r. cbn [map record_pages]. rewrite query_is. cbn [obind].
  rewrite (item_dict q "pages" _ pages_are). cbn [obind getitem].
  destruct (lookup first ps) as [page |] eqn:Hpage; cbn [obind]; try discriminate.
  destruct (item page "revisions") as [revisions | |] eqn:Hrevs; cbn [obind];
    try discriminate.
  destruct (iter revisions) as [revs | |] eqn:Hiter; cbn [obind]; try discriminate.
  destruct (record_revisions revs m) as [m' | |] eqn:Hrec; cbn [obind];
    try discriminate.
  destruct Hin as [-> | Hin]; [| now apply IH].
  assert (page = p) by congruence. subst page.
  destruct (Hbad revs) as (rev & Hrev & Hwhy).
  { rewrite Hrevs. exact Hiter. }
  now destruct (record_revisions_fails revs rev Hrev Hwhy m m').
Qed.

End Pages.

(** X10. An answer whose pages each hold a list of revisions with an int
    [revid] and a [timestamp], no revision id occurring twice, is read in
    full: [get_revinfo_from_json] returns the mapping with one entry per
    revision, in the order of the pages and of their revisions, and the
    ids under [badrevids] (none when the section is absent) in their
    order. *)
Theorem X10_answer_read_in_full :
  forall (v : pyval) (q ps : list (string * pyval))
         (ess : list (list (Z * pyval))),
    item v "query" = Ok (PDict q) ->
    lookup "pages" q = Some (PDict ps) ->
    NoDup (map fst ps) ->
    Forall2 (fun kp es => page_of (snd kp) es) ps ess ->
    NoDup (map fst (List.concat ess)) ->
    (lookup "badrevids" q = None
     \/ exists b, lookup "badrevids" q = Some (PDict b)) ->
    get_revinfo_from_json (Some v)
    = RPair (int_keyed (List.concat ess))
        (match lookup "badrevids" q with
         | Some (PDict b) => map fst b
         | _ => []
         end).
Proof.
  intros v q ps ess Hq Hp Hkeys Hpages Hids Hbad.
  unfold get_revinfo_from_json. cbn [json_loads obind].
  rewrite !Hq. cbn [obind]. rewrite !has_key, Hp. cbn [obind negb].
  rewrite (item_dict q "pages" _ Hp). cbn [obind iter].
  change (@nil (pyval * pyval)) with (int_keyed []).
  rewrite (record_pages_entries v q ps Hq Hp ps ess Hpages); [| | exact Hids].
  - cbn [app obind].
    destruct Hbad as [-> | (b & Hb)]; [reflexivity |].
    rewrite Hb, (item_dict q "badrevids" _ Hb). reflexivity.
  - intros [k p] Hin. now apply lookup_distinct.
Qed.

Lemma X10_witness :
  get_revinfo_from_json (Some Samples.three_revisions)
  = RPair (int_keyed Samples.three_entries) [].
Proof.
  refine (X10_answer_read_in_full Samples.three_revisions _ _
            [[(20000001, PStr "2005-08-01T03:15:00Z"); (1, PStr "2001-01-15T19:27:13Z")];
             [(10000001, PStr "2005-01-31T10:02:44Z")]]
            eq_refl eq_refl _ _ _ (or_introl eq_refl)).
  - repeat constructor; cbn; intuition discriminate.
  - repeat constructor; eexists; eexists; repeat split; repeat constructor;
      eexists; repeat split.
  - repeat constructor; cbn; intuition discriminate.
Defined.

(** X11. One page that cannot be read loses the whole batch: when a page of
    the answer has no list of revisions, or a revision without timestamp or
    usable revision id, [get_revinfo_from_json] returns [None], whatever the
    other pages hold and whatever ids the answer lists as bad. *)
Theorem X11_unreadable_page_loses_batch :
  forall (v : pyval) (q ps : list (string * pyval)) (k : string) (p : pyval),
    item v "query" = Ok (PDict q) ->
    lookup "pages" q = Some (PDict ps) ->
    In k (map fst ps) -> lookup k ps = Some p ->
    unreadable p ->
    get_revinfo_from_json (Some v) = RNone.
Proof.
  intros v q ps k p Hq Hp Hin Hk Hbad.
  unfold get_revinfo_from_json. cbn [json_loads obind].
  rewrite !Hq. cbn [obind]. rewrite !has_key, Hp. cbn [obind negb].
  rewrite (item_dict q "pages" _ Hp). cbn [obind iter].
  rewrite <- (map_map fst PStr).
  pose proof (record_pages_fails v q ps Hq Hp (map fst ps) k p Hin Hk Hbad []) as Hfail.
  match goal with
  | |- match try_except (obind ?B _) _ with _ => _ end = _ =>
      destruct B as [bad | e |]
  end; cbn [obind try_except];
    [| now destruct (is_Exception e) | reflexivity].
  destruct (record_pages v (map PStr (map fst ps)) []) as [m | e' |] eqn:Hrec;
    cbn [obind try_except];
    [now destruct (Hfail m) | now destruct (is_Exception e') | reflexivity].
Qed.

Lemma X11_witness : get_revinfo_from_json (Some with_missing_page) = RNone.
Proof.
  refine (X11_unreadable_page_loses_batch with_missing_page _ _ "13" missing_page
            eq_refl eq_refl _ eq_refl _).
  - right. left. reflexivity.
  - intros revisions H. discriminate H.
Defined.


(** *** Printing any mapping *)

Lemma key_eqb_same (k : pyval) : hashable k = true -> key_eqb k k = true.
Proof.
  destruct k as [| b | z | s | l | d]; cbn; intros H; try discriminate.
  - reflexivity.
  - now destruct b.
  - apply Z.eqb_refl.
  - apply String.eqb_refl.
Qed.

Lemma assoc_of_key (m : mapping) (k : pyval) :
  hashable k = true -> In k (map fst m) -> assoc k m <> None.
Proof.
  intros Hk. induction m as [| [k' v'] m IH]; intros Hin; [destruct Hin |].
  cbn [assoc]. destruct (key_eqb k' k) eqn:Heq; [discriminate |].
  destruct Hin as [Hsame | Hin]; [| now apply IH].
  cbn [fst] in Hsame. subst k'. now rewrite (key_eqb_same k Hk) in Heq.
Qed.

Lemma print_keys (m : mapping) (keys : list pyval) (n : nat) :
  Forall (fun k => assoc k m <> None) keys ->
  print_revids m keys n
  = mkRun (Ok tt) n
      (map (fun k => EPrint [k; match assoc k m with
                                | Some v => v
                                | None => PNone
                                end]) keys).
Proof.
  induction 1 as [| k keys Hk _ IH]; [reflexivity |].
  cbn [print_revids map]. destruct (assoc k m) as [v |]; [| congruence].
  now rewrite bind_lift_ok, bind_emit, IH.
Qed.

Lemma sorted_outcome (keys : list pyval) :
  (exists sorted_keys, sorted keys = Ok sorted_keys
                       /\ Permutation sorted_keys keys)
  \/ (sorted keys = Raise TypeError
      /\ (2 <= List.length keys)%nat
      /\ forallb is_num keys = false /\ forallb is_str keys = false).
Proof.
  unfold sorted. destruct keys as [| a [| b keys]].
  - left. now exists [].
  - left. now exists [a].
  - destruct (forallb is_num (a :: b :: keys)) eqn:Hnum.
    + left. eexists. split; [reflexivity | apply Claims.isort_perm].
    + destruct (forallb is_str (a :: b :: keys)) eqn:Hstr.
      * left. eexists. split; [reflexivity | apply Claims.isort_perm].
      * right. repeat split. cbn [List.length]. lia.
Qed.

(** X12. Whatever the keys of the mapping (hashable, as the keys of a dict
    are), [display_revinfo] either prints exactly one line per entry, the
    key and the value found under it, the keys being those of the mapping in
    another order; or it raises [TypeError] having printed nothing, which
    happens only when there are at least two keys and they are neither all
    numbers nor all strings. It makes no request and writes nothing else. *)
Theorem X12_prints_every_entry_or_nothing :
  forall (m : mapping) (n : nat),
    Forall (fun kv => hashable (fst kv) = true) m ->
    (exists keys,
        Permutation keys (map fst m)
        /\ Forall (fun k => assoc k m <> None) keys
        /\ display_revinfo m n
           = mkRun (Ok tt) n
               (map (fun k => EPrint [k; match assoc k m with
                                         | Some v => v
                                         | None => PNone
                                         end]) keys))
    \/ (display_revinfo m n = mkRun (Raise TypeError) n []
        /\ (2 <= List.length m)%nat
        /\ forallb is_num (map fst m) = false
        /\ forallb is_str (map fst m) = false).
Proof.
  intros m n Hhash. unfold display_revinfo.
  destruct (sorted_outcome (map fst m))
    as [(keys & Hsorted & Hperm) | (Hsorted & Hlen & Hnum & Hstr)];
    rewrite Hsorted.
  - left. exists keys.
    assert (Hfound : Forall (fun k => assoc k m <> None) keys).
    { apply Forall_forall. intros k Hk.
      assert (Hin : In k (map fst m)) by now apply (Permutation_in _ Hperm).
      apply assoc_of_key; [| exact Hin].
      apply in_map_iff in Hin as (kv & <- & Hkv).
      rewrite Forall_forall in Hhash. now apply Hhash. }
    repeat split; [exact Hperm | exact Hfound |].
    rewrite bind_lift_ok. now apply print_keys.
  - right. rewrite length_map in Hlen. now repeat split.
Qed.

Lemma X12_witness :
  display_revinfo mixed_keys 0%nat = mkRun (Raise TypeError) 0%nat [].
Proof.
  destruct (X12_prints_every_entry_or_nothing mixed_keys 0%nat)
    as [(keys & _ & _ & Hrun) | (Hrun & _)].
  - repeat constructor.
  - rewrite Hrun. vm_compute in Hrun. discriminate Hrun.
  - exact Hrun.
Defined.


(** *** A service that knows every id *)

Lemma display_ints_returns (entries : list (Z * pyval)) (n : nat) :
  result (display_revinfo (int_keyed entries) n) = Ok tt.
Proof.
  unfold display_revinfo.
  assert (Hkeys : map fst (int_keyed entries) = map PInt (map fst entries)).
  { unfold int_keyed. now rewrite !map_map. }
  rewrite Hkeys, Claims.sorted_ints, bind_lift_ok, print_keys; [reflexivity |].
  apply Forall_forall. intros k Hk. apply assoc_of_key.
  - apply in_map_iff in Hk as (z & <- & _). reflexivity.
  - rewrite Hkeys. eapply Permutation_in; [| exact Hk].
    apply Permutation_map, Claims.isort_perm.
Qed.

Section KnownIds.
Variable remote : nat -> request -> http_result.
Variable d : string.

(** Every batch request is answered with revisions under int ids and
    without bad ids. *)
Hypothesis all_known :
  forall (n : nat) (batch : list string),
    exists entries,
      verdict (remote n (revinfo_request d batch)) = Ok (int_keyed entries, []).

Lemma known_pass (bs : list (list string)) :
  forall (redo : list string) (n : nat),
    result (spec_pass remote (Some d) bs redo n) = Ok redo
    /\ requests (trace (spec_pass remote (Some d) bs redo n))
       = map (revinfo_request d) bs.
Proof.
  induction bs as [| batch rest IH]; intros redo n; [now split |].
  destruct (all_known n batch) as (entries & Hv).
  destruct (spec_pass_goes_on remote d batch rest redo n _ Hv)
    as (lines & Ht & ->).
  cbn [fst snd]. rewrite display_ints_returns, app_nil_r.
  assert (Hp : requests (map EPrint lines) = []) by apply quiet_prints.
  destruct rest as [| b rest'].
  - cbn [result trace map]. split; [reflexivity |].
    change (EGet ?q ?a :: ?t) with ([EGet q a] ++ t).
    now rewrite requests_app, Hp.
  - destruct (IH redo (S n)) as [Hr Hq]. cbv zeta. cbn [result trace].
    split; [exact Hr |].
    change (EGet ?q ?a :: ?t) with ([EGet q a] ++ t).
    rewrite !requests_app, Hp.
    change (ESleep 5 :: ?t) with ([ESleep 5] ++ t).
    rewrite requests_app, Hq. reflexivity.
Qed.

End KnownIds.

(** X15. When the service answers every batch request with revisions under
    int ids and lists no id as bad, a run on an accepted command line makes
    exactly one request per batch of ten candidate ids, in order, never
    retries, and ends normally. *)
Theorem X15_known_ids_one_pass :
  forall (remote : nat -> request -> http_result) (passes : nat)
         (options : list (string * string)) (d e : string) (start stop : Z),
    forallb recognized options = true ->
    given_domain options = Some d -> d <> EmptyString ->
    isdigit (given_start options) = true ->
    given_end options = Some e -> isdigit e = true ->
    int (PStr (given_start options)) = Ok start ->
    int (PStr e) = Ok stop ->
    (forall n batch,
        exists entries,
          verdict (remote n (revinfo_request d batch))
          = Ok (int_keyed entries, [])) ->
    let r := do_main remote passes (Parsed options []) 0%nat in
    result r = Ok tt
    /\ requests (trace r)
       = map (revinfo_request d)
           (batches (map str_of_Z (range start stop 10000000))).
Proof.
  intros remote passes options d e start stop Hrec Hd Hne Hstart Hend He
         Hs He' Hknown r. subst r.
  destruct (accepted_run remote options d e 0%nat Hrec Hd Hne Hstart Hend He)
    as (Hrun & Hsd & Hss & Hse).
  rewrite do_main_after_opts, (bind_silent _ _ _ _ _ Hrun).
  rewrite (after_opts_run remote passes _ d start 0%nat Hsd);
    [| now rewrite Hss].
  rewrite Hse, He'. cbv zeta.
  destruct (known_pass remote d Hknown
              (batches (map str_of_Z (range start stop 10000000))) [] 0%nat)
    as [Hr Hq].
  rewrite Hr, retry_nil. cbn [result trace clock app].
  split; [reflexivity |].
  rewrite app_nil_r, requests_app, Hq.
  now destruct (verbose (settings options)).
Qed.

Lemma X15_witness :
  result (do_main Samples.remote_up 0 Samples.sample_argv 0%nat) = Ok tt.
Proof.
  refine (proj1 (X15_known_ids_one_pass Samples.remote_up 0%nat
                   [("--domain", Samples.wiki); ("--startrev", "1");
                    ("--endrev", "25000000")]
                   Samples.wiki "25000000" 1 25000000
                   eq_refl eq_refl _ eq_refl eq_refl eq_refl eq_refl eq_refl _)).
  - discriminate.
  - intros n batch. exists Samples.three_entries. reflexivity.
Defined.


(** *** The verbose flag *)

Lemma quiet_run_inv (r1 r2 : run args) :
  quiet_run r1 = quiet_run r2 ->
  clock r1 = clock r2 /\ trace r1 = trace r2
  /\ match result r1, result r2 with
     | Ok a1, Ok a2 => quiet a1 = quiet a2
     | Raise e1, Raise e2 => e1 = e2
     | Diverge, Diverge => True
     | _, _ => False
     end.
Proof.
  intros H. split; [exact (f_equal clock H) |]. split; [exact (f_equal trace H) |].
  apply (f_equal result) in H. unfold quiet_run in H. cbn [result] in H.
  destruct (result r1), (result r2); try discriminate; try exact I; congruence.
Qed.

Lemma quiet_run_bind (c1 c2 : M args) (k : args -> M args) (n : nat) :
  quiet_run (c1 n) = quiet_run (c2 n) ->
  (forall a m, quiet_run (k a m) = quiet_run (k (quiet a) m)) ->
  quiet_run (bind c1 k n) = quiet_run (bind c2 k n).
Proof.
  intros H Hk. destruct (quiet_run_inv _ _ H) as (Hclock & Htrace & Hres).
  unfold bind. rewrite <- Hclock, <- Htrace.
  destruct (result (c1 n)) as [a1 | e1 |], (result (c2 n)) as [a2 | e2 |];
    try (now destruct Hres).
  pose proof (Hk a1 (clock (c1 n))) as K1.
  pose proof (Hk a2 (clock (c1 n))) as K2.
  rewrite Hres, <- K2 in K1.
  destruct (quiet_run_inv _ _ K1) as (Hc & Ht & Hr).
  unfold quiet_run. cbn [result clock trace]. rewrite Hc, Ht.
  destruct (result (k a1 (clock (c1 n)))), (result (k a2 (clock (c1 n))));
    try (now destruct Hr); now rewrite Hr.
Qed.

(** The options loop reads the verbose options only to set the flag. *)
Lemma set_opts_quiet (options : list (string * string)) :
  forall (a : args) (n : nat),
    quiet_run (set_opts options a n)
    = quiet_run (set_opts (filter (fun o => negb (is_verbose o)) options)
                   (quiet a) n).
Proof.
  induction options as [| [opt val] rest IH]; intros a n; [reflexivity |].
  cbn [set_opts filter]. unfold is_verbose at 1. unfold one_of.
  cbn [existsb fst].
  name_cases opt; cbn [orb andb negb String.eqb Ascii.eqb Bool.eqb set_opts];
    unfold one_of; cbn [existsb orb String.eqb Ascii.eqb Bool.eqb];
    try match goal with
        | |- quiet_run (set_opts rest ?a' n) = _ => exact (IH a' n)
        end.
  all: repeat match goal with
              | H : ?o <> ?s |- context [String.eqb ?o ?s] =>
                  rewrite (proj2 (String.eqb_neq o s) H)
              end.
  all: cbn [orb]; reflexivity.
Qed.

Section Quiet.
Variable remote : nat -> request -> http_result.

Lemma check_opts_quiet (a : args) (n : nat) :
  quiet_run (check_opts remote a n)
  = quiet_run (check_opts remote (quiet a) n).
Proof.
  rewrite !check_opts_run. cbn [quiet domain start_rev end_rev].
  destruct (domain_truthy (domain a)); cbn [negb]; [| reflexivity].
  destruct (isdigit (start_rev a)); cbn [negb]; [| reflexivity].
  destruct (truthy (end_rev a)).
  - destruct (isdigit_method (end_rev a)) as [[] | e |]; reflexivity.
  - unfold quiet_run, bind.
    destruct (result (get_max_rev remote (domain a) n)); reflexivity.
Qed.

Lemma process_opts_quiet (o1 o2 : list (string * string))
  (remainder : list string) (n : nat) :
  filter (fun o => negb (is_verbose o)) o1
  = filter (fun o => negb (is_verbose o)) o2 ->
  quiet_run (process_opts remote (Parsed o1 remainder) n)
  = quiet_run (process_opts remote (Parsed o2 remainder) n).
Proof.
  intros Hsame. cbn [process_opts]. apply quiet_run_bind.
  - rewrite (set_opts_quiet o1), (set_opts_quiet o2). now rewrite Hsame.
  - intros a m. destruct remainder as [| opt rest].
    + rewrite !bind_ret. apply check_opts_quiet.
    + now rewrite !bind_usage.
Qed.

(** After [process_opts], the flag decides only whether the configuration
    is printed. *)
Lemma after_opts_quiet (passes : nat) (a : args) (n : nat) :
  result (after_opts remote passes a n)
  = result (after_opts remote passes (quiet a) n)
  /\ unsaid (trace (after_opts remote passes a n))
     = unsaid (trace (after_opts remote passes (quiet a) n)).
Proof.
  unfold after_opts, when. cbn [quiet verbose domain].
  change (candidates (quiet a)) with (candidates a).
  destruct (verbose a).
  - rewrite bind_emit, bind_ret. cbn [result trace unsaid filter]. now split.
  - now split.
Qed.

End Quiet.

Lemma unsaid_app (s t : list event) : unsaid (s ++ t) = unsaid s ++ unsaid t.
Proof. apply filter_app. Qed.

Lemma requests_unsaid (t : list event) : requests (unsaid t) = requests t.
Proof.
  induction t as [| e t IH]; [reflexivity |].
  unfold requests, unsaid in *. destruct e; cbn [filter flat_map app];
    now rewrite IH.
Qed.

Lemma printed_unsaid (t : list event) : printed (unsaid t) = printed t.
Proof.
  induction t as [| e t IH]; [reflexivity |].
  unfold printed, unsaid in *. destruct e; cbn [filter flat_map app];
    now rewrite IH.
Qed.

Lemma stderr_unsaid (t : list event) : stderr_text (unsaid t) = stderr_text t.
Proof.
  induction t as [| e t IH]; [reflexivity |].
  unfold stderr_text, unsaid in *. destruct e; cbn [filter flat_map app];
    now rewrite IH.
Qed.

(** X14. Two runs whose command lines differ only in verbose options,
    against the same service, end the same way and have the same trace apart
    from the printing of the configuration: the same requests, the same
    revision lines, the same text on stderr. *)
Theorem X14_verbose_only_prints_settings :
  forall (remote : nat -> request -> http_result) (passes : nat)
         (o1 o2 : list (string * string)) (remainder : list string),
    filter (fun o => negb (is_verbose o)) o1
    = filter (fun o => negb (is_verbose o)) o2 ->
    let r1 := do_main remote passes (Parsed o1 remainder) 0%nat in
    let r2 := do_main remote passes (Parsed o2 remainder) 0%nat in
    result r1 = result r2
    /\ unsaid (trace r1) = unsaid (trace r2)
    /\ requests (trace r1) = requests (trace r2)
    /\ printed (trace r1) = printed (trace r2)
    /\ stderr_text (trace r1) = stderr_text (trace r2).
Proof.
  intros remote passes o1 o2 remainder Hsame r1 r2.
  assert (H : result r1 = result r2 /\ unsaid (trace r1) = unsaid (trace r2)).
  { subst r1 r2. rewrite !do_main_after_opts, !result_bind, !trace_bind.
    pose proof (process_opts_quiet remote o1 o2 remainder 0%nat Hsame) as Hp.
    destruct (quiet_run_inv _ _ Hp) as (Hclock & Htrace & Ha).
    rewrite <- Hclock, <- Htrace.
    destruct (result (process_opts remote (Parsed o1 remainder) 0%nat)) as [a1 | e1 |],
             (result (process_opts remote (Parsed o2 remainder) 0%nat)) as [a2 | e2 |];
      try (now destruct Ha).
    destruct (after_opts_quiet remote passes a1
                (clock (process_opts remote (Parsed o1 remainder) 0%nat)))
      as (R1 & T1).
    destruct (after_opts_quiet remote passes a2
                (clock (process_opts remote (Parsed o1 remainder) 0%nat)))
      as (R2 & T2).
    rewrite !unsaid_app, R1, R2, T1, T2, Ha. now split. }
  destruct H as [Hres Htrace]. repeat split; [exact Hres | exact Htrace | | |].
  - now rewrite <- (requests_unsaid (trace r1)), Htrace, requests_unsaid.
  - now rewrite <- (printed_unsaid (trace r1)), Htrace, printed_unsaid.
  - now rewrite <- (stderr_unsaid (trace r1)), Htrace, stderr_unsaid.
Qed.

Lemma X14_witness :
  requests (trace (do_main Samples.remote_up 0 Samples.sample_argv 0%nat))
  = requests (trace (do_main Samples.remote_up 0 verbose_argv 0%nat)).
Proof.
  exact (proj1 (proj2 (proj2
           (X14_verbose_only_prints_settings Samples.remote_up 0%nat
              _ _ [] eq_refl)))).
Defined.


(** *** Command lines that are refused, and digits that are no number *)

(** X16. A command line on which [gnu_getopt] raises, or with an argument
    left over, an option that is no setting or flag, a missing or empty
    domain, a start revision that [isdigit] does not accept, or an end
    revision that is neither empty nor accepted by [isdigit], makes the
    script write a message and the usage text to stderr and exit with
    status 1, without a request and without output. *)
Theorem X16_refused_command_line_exits :
  forall (remote : nat -> request -> http_result) (passes : nat)
         (argv : cmdline),
    refused argv = true ->
    let r := do_main remote passes argv 0%nat in
    result r = Raise (SystemExit 1)
    /\ (exists message, trace r = [EStderr message; EStderr usage_message])
    /\ requests (trace r) = []
    /\ printed (trace r) = [].
Proof.
  intros remote passes argv Href r.
  assert (H : usage_exit r 0%nat).
  { subst r. rewrite do_main_after_opts. apply usage_exit_bind.
    now apply process_opts_refused. }
  destruct H as (Hres & _ & m & Ht). rewrite Ht.
  repeat split; [exact Hres | now exists m].
Qed.

Lemma X16_witness :
  result (do_main Samples.remote_up 0 Samples.bad_start_argv 0%nat)
  = Raise (SystemExit 1).
Proof.
  exact (proj1 (X16_refused_command_line_exits Samples.remote_up 0%nat
                  Samples.bad_start_argv eq_refl)).
Defined.

(** X17. [check_opts] tests the start revision with [isdigit], and [do_main]
    reads it with [int]: a start revision made of digits that [int] does not
    read (a superscript two, say) is accepted, and the run then ends with
    [ValueError] before any request, with nothing on stderr. *)
Theorem X17_digits_that_are_no_number :
  forall (remote : nat -> request -> http_result) (passes : nat)
         (options : list (string * string)) (d e : string),
    forallb recognized options = true ->
    given_domain options = Some d -> d <> EmptyString ->
    isdigit (given_start options) = true ->
    given_end options = Some e -> isdigit e = true ->
    int_of_str (given_start options) = None ->
    do_main remote passes (Parsed options []) 0%nat
    = mkRun (Raise ValueError) 0%nat
        (if verbose (settings options) then [EVerbose (settings options)]
         else []).
Proof.
  intros remote passes options d e Hrec Hd Hne Hstart Hend He Hint.
  destruct (accepted_run remote options d e 0%nat Hrec Hd Hne Hstart Hend He)
    as (Hrun & _ & Hss & _).
  rewrite do_main_after_opts, (bind_silent _ _ _ _ _ Hrun).
  apply after_opts_stops. cbn [int]. now rewrite Hss, Hint.
Qed.

Lemma X17_witness :
  isdigit "²" = true
  /\ do_main Samples.remote_up 0 superscript_end_argv 0%nat
     = mkRun (Raise ValueError) 0%nat [].
Proof.
  split; [reflexivity |].
  refine (X17_digits_that_are_no_number Samples.remote_up 0%nat
            [("--domain", Samples.wiki); ("--startrev", "²");
             ("--endrev", "25000000")]
            Samples.wiki "25000000" eq_refl eq_refl _ eq_refl eq_refl eq_refl
            eq_refl).
  discriminate.
Defined.

End Extras.
